(** * Multi-layer audio engine (src/audio-engine.js): model and properties

    The development embeds the [AudioEngine] class of src/audio-engine.js,
    and of the controller in src/app.js the preset table and the handlers
    that drive the engine.

    - JavaScript numbers (gain values, times, samples) are modelled as exact
      rationals [Q]; IEEE rounding and the Float32Array storage of sample
      buffers are not modelled.
    - [Math.random] is a stream [random : nat -> Q]; the state records how
      many draws were consumed.
    - The Web Audio objects the engine drives (AudioParam automation
      timelines, source nodes, media elements, timers, the console) are
      plain data in the state; each engine method is a function on it.
    - Every method call runs to completion before the next one starts: the
      suspension points of the [async] methods are not interleaved with
      other commands, and the result of [audio.play()] is an argument. *)

From Stdlib Require Import QArith Qabs Qminmax Lqa Lia.
From Stdlib Require Import Ascii String.
From stdpp Require Import gmap strings list pretty.

Open Scope Q_scope.

(** * Noise synthesizer: the loops of [createNoiseBuffer] *)

(** Filter memory of the pink-noise loop ([let b0 = 0, ..., b6 = 0]). *)
Record PinkState := mkPink {
  b0 : Q; b1 : Q; b2 : Q; b3 : Q; b4 : Q; b5 : Q; b6 : Q
}.

Definition pink_init : PinkState := mkPink 0 0 0 0 0 0 0.

(** One iteration of the pink loop body: the new filter memory and the
    sample written to [data[i]]. *)
Definition pink_body (st : PinkState) (white : Q) : PinkState * Q :=
  let b0' := 0.99886 * b0 st + white * 0.0555179 in
  let b1' := 0.99332 * b1 st + white * 0.0750759 in
  let b2' := 0.96900 * b2 st + white * 0.1538520 in
  let b3' := 0.86650 * b3 st + white * 0.3104856 in
  let b4' := 0.55000 * b4 st + white * 0.5329522 in
  let b5' := -0.7616 * b5 st - white * 0.0168980 in
  let out := (b0' + b1' + b2' + b3' + b4' + b5' + b6 st + white * 0.5362) * 0.11 in
  (mkPink b0' b1' b2' b3' b4' b5' (white * 0.115926), out).

(** One iteration of the brown loop body: the new [lastOut] and the sample
    left in [data[i]] after [data[i] *= 3.5]. *)
Definition brown_body (lastOut white : Q) : Q * Q :=
  let d := (lastOut + (0.02 * white)) / 1.02 in
  (d, d * 3.5).

Section NoiseSynthesizer.

(** The results of successive [Math.random()] calls. *)
Variable random : nat -> Q.

(** [Math.random() * 2 - 1] for the draw numbered [k]. *)
Definition white_draw (k : nat) : Q := random k * 2 - 1.

(** The three [for (let i = 0; i < bufferSize; i++)] loops; [n] is the
    number of iterations left and [k] the number of the next draw. *)
Fixpoint white_loop (n k : nat) : list Q :=
  match n with
  | O => []
  | S n' => white_draw k :: white_loop n' (S k)
  end.

Fixpoint pink_loop (n k : nat) (st : PinkState) : list Q :=
  match n with
  | O => []
  | S n' =>
      let '(st', out) := pink_body st (white_draw k) in
      out :: pink_loop n' (S k) st'
  end.

Fixpoint brown_loop (n k : nat) (lastOut : Q) : list Q :=
  match n with
  | O => []
  | S n' =>
      let '(lastOut', out) := brown_body lastOut (white_draw k) in
      out :: brown_loop n' (S k) lastOut'
  end.

(** The channel data after the [if / else if] chain: any other [noiseType]
    leaves the zero-initialised buffer untouched. *)
Definition noise_data (noiseType : string) (bufferSize k : nat) : list Q :=
  if String.eqb noiseType "white" then white_loop bufferSize k
  else if String.eqb noiseType "pink" then pink_loop bufferSize k pink_init
  else if String.eqb noiseType "brown" then brown_loop bufferSize k 0
  else replicate bufferSize 0.

(** Number of [Math.random()] calls made while filling the buffer. *)
Definition noise_draws (noiseType : string) (bufferSize : nat) : nat :=
  if String.eqb noiseType "white" then bufferSize
  else if String.eqb noiseType "pink" then bufferSize
  else if String.eqb noiseType "brown" then bufferSize
  else O.

End NoiseSynthesizer.

(** ** The pink filter bank as the specification words it *)

(** Decay factor and input gain of each of the six recursive filters. *)
Definition pink_filters : list (Q * Q) :=
  [ (0.99886, 0.0555179); (0.99332, 0.0750759); (0.96900, 0.1538520);
    (0.86650, 0.3104856); (0.55000, 0.5329522); (-0.7616, -0.0168980) ].

Definition Qsum (xs : list Q) : Q := foldr Qplus 0 xs.

(** Each filter state decays by its factor and takes in the white sample
    with its gain. *)
Definition bank_update (white : Q) (filters : list (Q * Q)) (states : list Q) : list Q :=
  zip_with (fun '(decay, gain) st => decay * st + gain * white) filters states.

(** Output sample: six states, the delayed state and the direct white term,
    scaled by 0.11; the delayed state becomes [0.115926 * white]. *)
Fixpoint pink_spec (whites : list Q) (states : list Q) (delayed : Q) : list Q :=
  match whites with
  | [] => []
  | white :: rest =>
      let states' := bank_update white pink_filters states in
      ((Qsum states' + delayed + 0.5362 * white) * 0.11)
        :: pink_spec rest states' (0.115926 * white)
  end.

(** The filter memory of the loop read as the bank's state list. *)
Definition bank_of (st : PinkState) : list Q :=
  [b0 st; b1 st; b2 st; b3 st; b4 st; b5 st].

(** Bounds the pink filter memory keeps when the white samples are in
    [[-1, 1]]. *)
Definition pink_bounded (st : PinkState) : Prop :=
  (- 49 <= b0 st <= 49) /\ (- 11.3 <= b1 st <= 11.3) /\ (- 5 <= b2 st <= 5) /\
  (- 2.4 <= b3 st <= 2.4) /\ (- 1.2 <= b4 st <= 1.2) /\
  (- 0.08 <= b5 st <= 0.08) /\ (- 0.115926 <= b6 st <= 0.115926).

(** * Platform model: automation timelines, nodes, timers, console *)

Inductive EventKind := SetValue | LinearRamp.

Record AutomationEvent := mkEvent {
  ev_kind : EventKind;
  ev_value : Q;
  ev_time : Q
}.

(** An [AudioParam] such as [gainNode.gain]: [current] is what the [.value]
    getter returns (refreshed when the audio clock advances), [events] the
    automation timeline ordered by time. *)
Record AudioParam := mkParam {
  current : Q;
  events : list AutomationEvent
}.

(** [createGain().gain] starts at its default value 1. *)
Definition default_gain : AudioParam := mkParam 1 [].

(** The new event goes after the events scheduled no later than it. *)
Fixpoint insert_event (e : AutomationEvent) (evs : list AutomationEvent)
  : list AutomationEvent :=
  match evs with
  | [] => [e]
  | e' :: rest =>
      if Qle_bool (ev_time e') (ev_time e) then e' :: insert_event e rest
      else e :: evs
  end.

(** [param.cancelScheduledValues(cancelTime)]: drops every event scheduled
    at or after [cancelTime]. *)
Definition cancelScheduledValues (cancelTime : Q) (p : AudioParam) : AudioParam :=
  mkParam (current p)
          (List.filter (fun e => negb (Qle_bool cancelTime (ev_time e))) (events p)).

Definition setValueAtTime (value startTime : Q) (p : AudioParam) : AudioParam :=
  mkParam (current p) (insert_event (mkEvent SetValue value startTime) (events p)).

Definition linearRampToValueAtTime (value endTime : Q) (p : AudioParam) : AudioParam :=
  mkParam (current p) (insert_event (mkEvent LinearRamp value endTime) (events p)).

(** [param.value = value] at time [now]: sets the current value and
    schedules it at [now]. *)
Definition set_value (value now : Q) (p : AudioParam) : AudioParam :=
  mkParam value (insert_event (mkEvent SetValue value now) (events p)).

Definition ramp_value (v0 t0 v1 t1 t : Q) : Q :=
  v0 + (v1 - v0) * ((t - t0) / (t1 - t0)).

(** Value the timeline gives at time [t]: the last event at or before [t]
    holds its value unless the next event is a ramp, which interpolates;
    before the first event the current value [held] stays. *)
Fixpoint timeline_from (prev : option AutomationEvent) (evs : list AutomationEvent)
    (t held : Q) : Q :=
  match evs with
  | [] => match prev with Some p => ev_value p | None => held end
  | e :: rest =>
      if Qle_bool (ev_time e) t then timeline_from (Some e) rest t held
      else match prev with
           | Some p =>
               match ev_kind e with
               | LinearRamp =>
                   ramp_value (ev_value p) (ev_time p) (ev_value e) (ev_time e) t
               | SetValue => ev_value p
               end
           | None => held
           end
  end.

(** Rendering up to time [t] refreshes the value the getter returns. *)
Definition render (t : Q) (p : AudioParam) : AudioParam :=
  mkParam (timeline_from None (events p) t (current p)) (events p).

Record AudioBuffer := mkBuffer {
  numberOfChannels : nat;
  buf_length : nat;
  buf_sampleRate : N;
  channelData : list Q
}.

Inductive NodeKind :=
| MediaElementSource (audio : nat)
| BufferSource (buffer : AudioBuffer) (loop : bool)
| Oscillator (type : string) (frequency : N).

Inductive Playback := Unscheduled | Started | Stopped.

(** A source node; [node_output] is the layer whose gain node it feeds. *)
Record SourceNode := mkNode {
  node_kind : NodeKind;
  node_playback : Playback;
  node_output : string
}.

(** An [Audio] element. *)
Record AudioElement := mkAudio {
  src : string;
  audio_loop : bool;
  paused : bool
}.

Inductive ContextState := Suspended | Running | Closed.

Record AudioContext := mkContext {
  ctx_sampleRate : N;
  ctx_state : ContextState
}.

Record AnalyserNode := mkAnalyser {
  fftSize : nat;
  smoothingTimeConstant : Q
}.

Definition frequencyBinCount (a : AnalyserNode) : nat := Nat.div2 (fftSize a).

(** The only callback the engine ever hands to [setTimeout]:
    [() => this._stopLayerImmediately(layerId)]. *)
Inductive Callback := StopLayerImmediately (layerId : string).

Record Timer := mkTimer {
  due : Q;
  callback : Callback
}.

Fixpoint insert_timer (tm : Timer) (tms : list Timer) : list Timer :=
  match tms with
  | [] => [tm]
  | tm' :: rest =>
      if Qle_bool (due tm') (due tm) then tm' :: insert_timer tm rest
      else tm :: tms
  end.

Inductive LogLevel := LogInfo | LogWarn | LogError.

(** * Engine state *)

Record Config := mkConfig {
  fadeDuration : Q;
  enableCrossfade : bool;
  loopLayers : bool;
  sampleRate : N
}.

Record Layer := mkLayer {
  id : string;
  audioElement : option nat;
  sourceNode : option nat;
  gainNode : AudioParam;
  analyserNode : AnalyserNode;
  currentSound : option string;
  isPlaying : bool;
  volume : Q;
  noiseBuffer : option AudioBuffer;
  noiseSource : option nat
}.

(** The fields of [AudioEngine] followed by the platform state: the clock
    ([audioContext.currentTime], also the timers' clock), pending timers,
    console lines (newest first), consumed random draws, and the stores of
    source nodes and media elements with their allocation counter.
    [layers] keeps the insertion order of the JavaScript [Map]. *)
Record State := mkState {
  audioContext : option AudioContext;
  masterGain : option AudioParam;
  layers : list (string * Layer);
  isInitialized : bool;
  noiseGenerators : gmap string AudioBuffer;
  config : Config;
  now : Q;
  timers : list Timer;
  console : list (LogLevel * string);
  rng : nat;
  nodes : gmap nat SourceNode;
  audios : gmap nat AudioElement;
  next_id : nat
}.

(** Outcome of a method call: normal return or a thrown error. *)
Inductive Completion :=
| Normal (s : State)
| Throw (message : string) (s : State).

Definition final (c : Completion) : State :=
  match c with Normal s => s | Throw _ s => s end.

Definition returns (c : Completion) : bool :=
  match c with Normal _ => true | Throw _ _ => false end.

(** ** Field updates *)

Definition with_audioElement (v : option nat) (l : Layer) : Layer :=
  mkLayer (id l) v (sourceNode l) (gainNode l) (analyserNode l) (currentSound l)
          (isPlaying l) (volume l) (noiseBuffer l) (noiseSource l).

Definition with_sourceNode (v : option nat) (l : Layer) : Layer :=
  mkLayer (id l) (audioElement l) v (gainNode l) (analyserNode l) (currentSound l)
          (isPlaying l) (volume l) (noiseBuffer l) (noiseSource l).

Definition with_gainNode (v : AudioParam) (l : Layer) : Layer :=
  mkLayer (id l) (audioElement l) (sourceNode l) v (analyserNode l) (currentSound l)
          (isPlaying l) (volume l) (noiseBuffer l) (noiseSource l).

Definition with_currentSound (v : option string) (l : Layer) : Layer :=
  mkLayer (id l) (audioElement l) (sourceNode l) (gainNode l) (analyserNode l) v
          (isPlaying l) (volume l) (noiseBuffer l) (noiseSource l).

Definition with_isPlaying (v : bool) (l : Layer) : Layer :=
  mkLayer (id l) (audioElement l) (sourceNode l) (gainNode l) (analyserNode l)
          (currentSound l) v (volume l) (noiseBuffer l) (noiseSource l).

Definition with_volume (v : Q) (l : Layer) : Layer :=
  mkLayer (id l) (audioElement l) (sourceNode l) (gainNode l) (analyserNode l)
          (currentSound l) (isPlaying l) v (noiseBuffer l) (noiseSource l).

Definition with_noiseSource (v : option nat) (l : Layer) : Layer :=
  mkLayer (id l) (audioElement l) (sourceNode l) (gainNode l) (analyserNode l)
          (currentSound l) (isPlaying l) (volume l) (noiseBuffer l) v.

Definition set_audioContext (v : option AudioContext) (s : State) : State :=
  mkState v (masterGain s) (layers s) (isInitialized s) (noiseGenerators s)
          (config s) (now s) (timers s) (console s) (rng s) (nodes s) (audios s)
          (next_id s).

Definition set_masterGain (v : option AudioParam) (s : State) : State :=
  mkState (audioContext s) v (layers s) (isInitialized s) (noiseGenerators s)
          (config s) (now s) (timers s) (console s) (rng s) (nodes s) (audios s)
          (next_id s).

Definition set_layers (v : list (string * Layer)) (s : State) : State :=
  mkState (audioContext s) (masterGain s) v (isInitialized s) (noiseGenerators s)
          (config s) (now s) (timers s) (console s) (rng s) (nodes s) (audios s)
          (next_id s).

Definition set_isInitialized (v : bool) (s : State) : State :=
  mkState (audioContext s) (masterGain s) (layers s) v (noiseGenerators s)
          (config s) (now s) (timers s) (console s) (rng s) (nodes s) (audios s)
          (next_id s).

Definition set_noiseGenerators (v : gmap string AudioBuffer) (s : State) : State :=
  mkState (audioContext s) (masterGain s) (layers s) (isInitialized s) v
          (config s) (now s) (timers s) (console s) (rng s) (nodes s) (audios s)
          (next_id s).

Definition set_config (v : Config) (s : State) : State :=
  mkState (audioContext s) (masterGain s) (layers s) (isInitialized s)
          (noiseGenerators s) v (now s) (timers s) (console s) (rng s) (nodes s)
          (audios s) (next_id s).

Definition set_now (v : Q) (s : State) : State :=
  mkState (audioContext s) (masterGain s) (layers s) (isInitialized s)
          (noiseGenerators s) (config s) v (timers s) (console s) (rng s) (nodes s)
          (audios s) (next_id s).

Definition set_timers (v : list Timer) (s : State) : State :=
  mkState (audioContext s) (masterGain s) (layers s) (isInitialized s)
          (noiseGenerators s) (config s) (now s) v (console s) (rng s) (nodes s)
          (audios s) (next_id s).

Definition set_console (v : list (LogLevel * string)) (s : State) : State :=
  mkState (audioContext s) (masterGain s) (layers s) (isInitialized s)
          (noiseGenerators s) (config s) (now s) (timers s) v (rng s) (nodes s)
          (audios s) (next_id s).

Definition set_rng (v : nat) (s : State) : State :=
  mkState (audioContext s) (masterGain s) (layers s) (isInitialized s)
          (noiseGenerators s) (config s) (now s) (timers s) (console s) v (nodes s)
          (audios s) (next_id s).

Definition set_nodes (v : gmap nat SourceNode) (s : State) : State :=
  mkState (audioContext s) (masterGain s) (layers s) (isInitialized s)
          (noiseGenerators s) (config s) (now s) (timers s) (console s) (rng s) v
          (audios s) (next_id s).

Definition set_audios (v : gmap nat AudioElement) (s : State) : State :=
  mkState (audioContext s) (masterGain s) (layers s) (isInitialized s)
          (noiseGenerators s) (config s) (now s) (timers s) (console s) (rng s)
          (nodes s) v (next_id s).

Definition set_next_id (v : nat) (s : State) : State :=
  mkState (audioContext s) (masterGain s) (layers s) (isInitialized s)
          (noiseGenerators s) (config s) (now s) (timers s) (console s) (rng s)
          (nodes s) (audios s) v.

(** ** The layer registry: a [Map] in insertion order *)

Fixpoint layers_get (ls : list (string * Layer)) (k : string) : option Layer :=
  match ls with
  | [] => None
  | (k', l) :: rest => if String.eqb k' k then Some l else layers_get rest k
  end.

(** [Map.set]: an existing key keeps its place, a new one goes last. *)
Fixpoint layers_set (ls : list (string * Layer)) (k : string) (v : Layer)
  : list (string * Layer) :=
  match ls with
  | [] => [(k, v)]
  | (k', l) :: rest =>
      if String.eqb k' k then (k', v) :: rest else (k', l) :: layers_set rest k v
  end.

Definition get_layer (layerId : string) (s : State) : option Layer :=
  layers_get (layers s) layerId.

(** Assignment to fields of the layer object stored under [layerId]. *)
Definition update_layer (layerId : string) (f : Layer -> Layer) (s : State) : State :=
  match get_layer layerId s with
  | Some l => set_layers (layers_set (layers s) layerId (f l)) s
  | None => s
  end.

(** [this.layers.forEach((layer, layerId) => ...)]: the keys in insertion
    order, each entry read when it is visited. *)
Definition forEach_layer (f : string -> Layer -> State -> State) (s : State) : State :=
  fold_left
    (fun s k => match get_layer k s with Some l => f k l s | None => s end)
    (map fst (layers s)) s.

(** ** Console, timers, node store *)

Definition log (level : LogLevel) (message : string) (s : State) : State :=
  set_console ((level, message) :: console s) s.

(** [setTimeout(callback, delay)] with [delay] in milliseconds; a negative
    delay counts as 0. *)
Definition setTimeout (cb : Callback) (delay : Q) (s : State) : State :=
  set_timers (insert_timer (mkTimer (now s + Qmax 0 delay / 1000) cb) (timers s)) s.

(** Creating a source node connected to a layer's gain node. *)
Definition new_node (kind : NodeKind) (layerId : string) (s : State) : nat * State :=
  (next_id s,
   set_next_id (S (next_id s))
     (set_nodes (<[next_id s := mkNode kind Unscheduled layerId]> (nodes s)) s)).

Definition new_Audio (path : string) (s : State) : nat * State :=
  (next_id s,
   set_next_id (S (next_id s))
     (set_audios (<[next_id s := mkAudio path false true]> (audios s)) s)).

(** [source.start()]. *)
Definition start_node (n : nat) (s : State) : State :=
  set_nodes (alter (fun nd => mkNode (node_kind nd) Started (node_output nd)) n (nodes s)) s.

(** Whether the node has a [stop] method: media element sources have none. *)
Definition has_stop (n : nat) (s : State) : bool :=
  match nodes s !! n with
  | Some nd => match node_kind nd with MediaElementSource _ => false | _ => true end
  | None => false
  end.

(** [try { source.stop() } catch (e) {}]: stops a started node; the error
    raised for a node that never started is swallowed. *)
Definition try_stop_node (n : nat) (s : State) : State :=
  set_nodes
    (alter (fun nd => match node_playback nd with
                      | Started => mkNode (node_kind nd) Stopped (node_output nd)
                      | _ => nd
                      end) n (nodes s)) s.

(** [audio.pause(); audio.currentTime = 0]. *)
Definition pause_audio (a : nat) (s : State) : State :=
  set_audios (alter (fun el => mkAudio (src el) (audio_loop el) true) a (audios s)) s.

Definition set_audio_loop (v : bool) (a : nat) (s : State) : State :=
  set_audios (alter (fun el => mkAudio (src el) v (paused el)) a (audios s)) s.

Definition set_audio_playing (a : nat) (s : State) : State :=
  set_audios (alter (fun el => mkAudio (src el) (audio_loop el) false) a (audios s)) s.

(** * The engine's methods *)

(** [new AudioEngine()]: the constructor's field values on a fresh platform. *)
Definition new_AudioEngine : State :=
  mkState None None [] false ∅ (mkConfig 1.0 true true 44100%N)
          0 [] [] O ∅ ∅ O.

(** [this.audioLibrary]: category, then sound name, then path ([None] for
    the entries that are [null]). *)
Definition audioLibrary : list (string * list (string * option string)) :=
  [ ("nature",
      [ ("rain", Some "assets/audio/nature/rain.mp3");
        ("forest", Some "assets/audio/nature/forest.mp3");
        ("ocean", Some "assets/audio/nature/ocean.mp3");
        ("stream", Some "assets/audio/nature/stream.mp3");
        ("birds", Some "assets/audio/nature/birds.mp3") ]);
    ("music",
      [ ("piano", Some "assets/audio/music/piano.mp3");
        ("ambient", Some "assets/audio/music/ambient.mp3");
        ("guitar", Some "assets/audio/music/guitar.mp3");
        ("strings", Some "assets/audio/music/strings.mp3");
        ("lofi", Some "assets/audio/music/lofi.mp3") ]);
    ("noise",
      [ ("white", None); ("pink", None); ("brown", None);
        ("fan", Some "assets/audio/noise/fan.mp3");
        ("cafe", Some "assets/audio/noise/cafe.mp3") ]);
    ("ambient",
      [ ("space", Some "assets/audio/ambient/space.mp3");
        ("temple", Some "assets/audio/ambient/temple.mp3");
        ("wind", Some "assets/audio/ambient/wind.mp3");
        ("tibetan", Some "assets/audio/ambient/tibetan.mp3");
        ("meditation", Some "assets/audio/ambient/meditation.mp3") ]) ].

Fixpoint assoc {A : Type} (k : string) (kvs : list (string * A)) : option A :=
  match kvs with
  | [] => None
  | (k', v) :: rest => if String.eqb k' k then Some v else assoc k rest
  end.

(** [this.audioLibrary[soundType]?.[soundName]], [None] when the result is
    falsy (own properties of the table only). *)
Definition library_path (soundType soundName : string) : option string :=
  match assoc soundType audioLibrary with
  | Some sounds =>
      match assoc soundName sounds with
      | Some (Some path) => Some path
      | _ => None
      end
  | None => None
  end.

(** [initialize()]; [created] is what [new AudioContext()] yields, [None]
    when it throws. *)
Definition initialize (created : option AudioContext) (s : State) : Completion :=
  if isInitialized s then Normal s
  else
    match created with
    | Some ctx =>
        let s := set_audioContext (Some ctx) s in
        let s := set_masterGain (Some (set_value 0.7 (now s) default_gain)) s in
        let s := set_isInitialized true s in
        Normal (log LogInfo "Audio Engine initialized successfully" s)
    | None =>
        Throw "AudioContext" (log LogError "Failed to initialize audio engine:" s)
    end.

Definition resume (s : State) : State :=
  match audioContext s with
  | Some ctx =>
      match ctx_state ctx with
      | Suspended => set_audioContext (Some (mkContext (ctx_sampleRate ctx) Running)) s
      | _ => s
      end
  | None => s
  end.

(** [createLayer(layerId, volume)]; the layer it returns is the one stored
    under [layerId] afterwards. *)
Definition createLayer (layerId : string) (volume : Q) (s : State) : Completion :=
  if negb (isInitialized s) then Throw "Audio engine not initialized" s
  else
    match get_layer layerId s with
    | Some _ => Normal (log LogWarn ("Layer " +:+ layerId +:+ " already exists") s)
    | None =>
        let layer :=
          mkLayer layerId None None (set_value volume (now s) default_gain)
                  (mkAnalyser 256 0.8) None false volume None None in
        let s := set_layers (layers_set (layers s) layerId layer) s in
        Normal (log LogInfo ("Created layer: " +:+ layerId) s)
    end.

Definition _stopLayerImmediately (layerId : string) (s : State) : State :=
  match get_layer layerId s with
  | None => s
  | Some layer =>
      let s :=
        match audioElement layer with
        | Some a => update_layer layerId (with_audioElement None) (pause_audio a s)
        | None => s
        end in
      let s :=
        match noiseSource layer with
        | Some n => update_layer layerId (with_noiseSource None) (try_stop_node n s)
        | None => s
        end in
      let s :=
        match sourceNode layer with
        | Some n => if has_stop n s then try_stop_node n s else s
        | None => s
        end in
      let s := update_layer layerId (with_sourceNode None) s in
      let s := update_layer layerId (with_currentSound None) s in
      let s := update_layer layerId (with_isPlaying false) s in
      log LogInfo ("Stopped layer: " +:+ layerId) s
  end.

Definition run_callback (cb : Callback) (s : State) : State :=
  match cb with
  | StopLayerImmediately layerId => _stopLayerImmediately layerId s
  end.

Definition fadeIn (layerId : string) (s : State) : State :=
  match get_layer layerId s with
  | None => s
  | Some layer =>
      let currentTime := now s in
      let targetVolume := volume layer in
      let g := cancelScheduledValues currentTime (gainNode layer) in
      let g := setValueAtTime 0 currentTime g in
      let g := linearRampToValueAtTime targetVolume
                 (currentTime + fadeDuration (config s)) g in
      update_layer layerId (with_gainNode g) s
  end.

Definition fadeOut (layerId : string) (cb : option Callback) (s : State) : State :=
  match get_layer layerId s with
  | None => s
  | Some layer =>
      let currentTime := now s in
      let g := cancelScheduledValues currentTime (gainNode layer) in
      let g := setValueAtTime (current g) currentTime g in
      let g := linearRampToValueAtTime 0 (currentTime + fadeDuration (config s)) g in
      let s := update_layer layerId (with_gainNode g) s in
      match cb with
      | Some c => setTimeout c (fadeDuration (config s) * 1000) s
      | None => s
      end
  end.

Definition stopLayer (layerId : string) (s : State) : State :=
  match get_layer layerId s with
  | None => s
  | Some layer =>
      if enableCrossfade (config s) && isPlaying layer
      then fadeOut layerId (Some (StopLayerImmediately layerId)) s
      else _stopLayerImmediately layerId s
  end.

(** [generateTone(layerId, frequency)]. *)
Definition generateTone (layerId : string) (frequency : N) (s : State) : State :=
  match get_layer layerId s with
  | None => s
  | Some _ =>
      let '(oscillator, s) := new_node (Oscillator "sine" frequency) layerId s in
      let s := update_layer layerId (with_sourceNode (Some oscillator)) s in
      let s := update_layer layerId
                 (with_currentSound (Some ("tone/" +:+ pretty frequency +:+ "Hz"))) s in
      let s := update_layer layerId (with_isPlaying true) s in
      let s := start_node oscillator s in
      log LogInfo ("Playing fallback tone: " +:+ pretty frequency +:+ "Hz on layer "
                     +:+ layerId) s
  end.

(** What happens to a file-backed sound inside the [try] block. *)
Inductive PlayOutcome :=
| ElementFails   (* creating the element or its source node throws *)
| PlayRejects    (* [audio.play()] rejects: the asset is missing or undecodable *)
| PlayResolves.

(** [layer.currentSound.split('/')]. *)
Fixpoint split_slash (str : string) : list string :=
  match str with
  | EmptyString => [EmptyString]
  | String c rest =>
      match split_slash rest with
      | [] => [String c EmptyString]
      | hd :: tl =>
          if Ascii.eqb c "/"%char then EmptyString :: hd :: tl else String c hd :: tl
      end
  end.

(** A missing array element is [undefined], which reads as that word both
    as a property key and inside a template string. *)
Definition part (i : nat) (parts : list string) : string :=
  nth i parts "undefined"%string.

(** Truthiness of [layer.currentSound]. *)
Definition truthy (o : option string) : bool :=
  match o with
  | Some str => negb (String.eqb str EmptyString)
  | None => false
  end.

Section Engine.

Variable random : nat -> Q.

(** [createNoiseBuffer(noiseType)] for a context [ctx], reading the random
    stream from draw [rng s] on. *)
Definition createNoiseBuffer (ctx : AudioContext) (noiseType : string) (s : State)
  : AudioBuffer * State :=
  let bufferSize := N.to_nat (ctx_sampleRate ctx * 2) in
  let data := noise_data random noiseType bufferSize (rng s) in
  (mkBuffer 1 bufferSize (ctx_sampleRate ctx) data,
   set_rng (rng s + noise_draws noiseType bufferSize)%nat s).

Definition generateAndPlayNoise (layerId noiseType : string) (s : State) : Completion :=
  match get_layer layerId s with
  | None => Normal s
  | Some _ =>
      match audioContext s with
      | None => Throw "TypeError" s
      | Some ctx =>
          let s :=
            match noiseGenerators s !! noiseType with
            | Some _ => s
            | None =>
                let '(buffer, s) := createNoiseBuffer ctx noiseType s in
                set_noiseGenerators (<[noiseType := buffer]> (noiseGenerators s)) s
            end in
          match noiseGenerators s !! noiseType with
          | None => Throw "TypeError" s
          | Some noiseBuffer =>
              let '(source, s) := new_node (BufferSource noiseBuffer true) layerId s in
              let s := update_layer layerId (with_noiseSource (Some source)) s in
              let s := update_layer layerId (with_sourceNode (Some source)) s in
              let s := update_layer layerId
                         (with_currentSound (Some ("noise/" +:+ noiseType))) s in
              let s := update_layer layerId (with_isPlaying true) s in
              let s := if enableCrossfade (config s) then fadeIn layerId s else s in
              let s := start_node source s in
              Normal (log LogInfo ("Playing " +:+ noiseType +:+ " noise on layer "
                                     +:+ layerId) s)
          end
      end
  end.

Definition loadAndPlayAudio (outcome : PlayOutcome)
    (layerId soundType soundName : string) (s : State) : Completion :=
  let s := resume s in
  match get_layer layerId s with
  | None => Throw ("Layer " +:+ layerId +:+ " not found") s
  | Some _ =>
      let s := stopLayer layerId s in
      if String.eqb soundType "noise"
         && existsb (String.eqb soundName) ["white"; "pink"; "brown"]%string
      then generateAndPlayNoise layerId soundName s
      else
        match library_path soundType soundName with
        | None =>
            let s := log LogError
                       ("Audio not found: " +:+ soundType +:+ "/" +:+ soundName) s in
            Normal (generateTone layerId 220 s)
        | Some audioPath =>
            match outcome with
            | ElementFails =>
                let s := log LogError ("Error loading audio for " +:+ layerId +:+ ":") s in
                Normal (generateTone layerId 220 s)
            | _ =>
                let '(audio, s) := new_Audio audioPath s in
                let s := set_audio_loop (loopLayers (config s)) audio s in
                let '(source, s) := new_node (MediaElementSource audio) layerId s in
                let s := update_layer layerId (with_audioElement (Some audio)) s in
                let s := update_layer layerId (with_sourceNode (Some source)) s in
                let s := update_layer layerId
                           (with_currentSound (Some (soundType +:+ "/" +:+ soundName))) s in
                let s := if enableCrossfade (config s) then fadeIn layerId s else s in
                match outcome with
                | PlayResolves =>
                    let s := set_audio_playing audio s in
                    let s := update_layer layerId (with_isPlaying true) s in
                    Normal (log LogInfo
                              ("Playing audio: " +:+ soundType +:+ "/" +:+ soundName
                                 +:+ " on layer " +:+ layerId) s)
                | _ =>
                    let s := log LogError
                               ("Error loading audio for " +:+ layerId +:+ ":") s in
                    Normal (generateTone layerId 220 s)
                end
            end
        end
  end.

Definition setLayerVolume (layerId : string) (volume : Q) (s : State) : State :=
  match get_layer layerId s with
  | None => s
  | Some layer =>
      let s := update_layer layerId (with_volume volume) s in
      if isPlaying layer then
        let currentTime := now s in
        let g := cancelScheduledValues currentTime (gainNode layer) in
        let g := setValueAtTime (current g) currentTime g in
        let g := linearRampToValueAtTime volume (currentTime + 0.05) g in
        update_layer layerId (with_gainNode g) s
      else
        update_layer layerId (with_gainNode (set_value volume (now s) (gainNode layer))) s
  end.

Definition setMasterVolume (volume : Q) (s : State) : State :=
  match masterGain s with
  | None => s
  | Some gain =>
      let currentTime := now s in
      let g := cancelScheduledValues currentTime gain in
      let g := setValueAtTime (current g) currentTime g in
      let g := linearRampToValueAtTime volume (currentTime + 0.05) g in
      set_masterGain (Some g) s
  end.

(** [getAnalyserData(layerId)]; [waveform] is what the analyser writes into
    the byte array. *)
Definition getAnalyserData (waveform : nat -> Byte.byte) (layerId : string) (s : State)
  : option (list Byte.byte) :=
  match get_layer layerId s with
  | None => None
  | Some layer =>
      if negb (isPlaying layer) then None
      else
        let bufferLength := frequencyBinCount (analyserNode layer) in
        Some (map waveform (seq 0 bufferLength))
  end.

Definition stopAll (s : State) : State :=
  forEach_layer (fun layerId layer s => if isPlaying layer then stopLayer layerId s else s) s.

(** [playAll()]; the calls to [loadAndPlayAudio] are not awaited, so an
    error they raise does not reach the caller. [outcome] gives the fate of
    the file-backed sound of each layer. *)
Definition playAll (outcome : string -> PlayOutcome) (s : State) : State :=
  forEach_layer
    (fun layerId layer s =>
       if truthy (currentSound layer) && negb (isPlaying layer) then
         let parts := split_slash (default EmptyString (currentSound layer)) in
         final (loadAndPlayAudio (outcome layerId) layerId (part 0 parts) (part 1 parts) s)
       else s) s.

Record LayerInfo := mkInfo {
  info_id : string;
  info_isPlaying : bool;
  info_currentSound : option string;
  info_volume : Q
}.

Definition getLayerInfo (layerId : string) (s : State) : option LayerInfo :=
  match get_layer layerId s with
  | None => None
  | Some layer =>
      Some (mkInfo (id layer) (isPlaying layer) (currentSound layer) (volume layer))
  end.

Definition getActiveLayersCount (s : State) : nat :=
  length (List.filter (fun kl => isPlaying (snd kl)) (layers s)).

(** The argument of [updateConfig]: the options that are present. *)
Record ConfigPatch := mkPatch {
  patch_fadeDuration : option Q;
  patch_enableCrossfade : option bool;
  patch_loopLayers : option bool;
  patch_sampleRate : option N
}.

Definition updateConfig (p : ConfigPatch) (s : State) : State :=
  let c := config s in
  let s := set_config
             (mkConfig (default (fadeDuration c) (patch_fadeDuration p))
                       (default (enableCrossfade c) (patch_enableCrossfade p))
                       (default (loopLayers c) (patch_loopLayers p))
                       (default (sampleRate c) (patch_sampleRate p))) s in
  match patch_loopLayers p with
  | Some v =>
      forEach_layer
        (fun _ layer s =>
           match audioElement layer with
           | Some a => set_audio_loop v a s
           | None => s
           end) s
  | None => s
  end.

Definition dispose (s : State) : State :=
  let s := stopAll s in
  let s :=
    match audioContext s with
    | Some ctx => set_audioContext (Some (mkContext (ctx_sampleRate ctx) Closed)) s
    | None => s
    end in
  let s := set_layers [] s in
  let s := set_noiseGenerators ∅ s in
  let s := set_isInitialized false s in
  log LogInfo "Audio engine disposed" s.

(** ** Time passing *)

(** The rendering path brings every gain's current value up to date. *)
Definition render_all (s : State) : State :=
  let s := set_masterGain (render (now s) <$> masterGain s) s in
  set_layers
    (map (fun kl => (fst kl, with_gainNode (render (now s) (gainNode (snd kl))) (snd kl)))
         (layers s)) s.

(** [dt] seconds pass: the timers that come due fire in order, then the
    clock and the gains are brought to the new time. *)
Definition advance (dt : Q) (s : State) : State :=
  let t := now s + dt in
  let fired := List.filter (fun tm => Qle_bool (due tm) t) (timers s) in
  let kept := List.filter (fun tm => negb (Qle_bool (due tm) t)) (timers s) in
  let s := set_timers kept s in
  let s := fold_left (fun s tm => run_callback (callback tm) s) fired s in
  render_all (set_now t s).

(** ** Commands *)

(** The command surface, with time passing as one more command. *)
Inductive Command :=
| Initialize (created : option AudioContext)
| Resume
| CreateLayer (layerId : string) (volume : Q)
| Play (outcome : PlayOutcome) (layerId soundType soundName : string)
| PlayNoise (layerId noiseType : string)
| Tone (layerId : string) (frequency : N)
| Stop (layerId : string)
| StopAll
| PlayAll (outcome : string -> PlayOutcome)
| SetLayerVolume (layerId : string) (volume : Q)
| SetMasterVolume (volume : Q)
| UpdateConfig (p : ConfigPatch)
| Dispose
| Advance (dt : Q).

Definition exec (c : Command) (s : State) : State :=
  match c with
  | Initialize created => final (initialize created s)
  | Resume => resume s
  | CreateLayer layerId volume => final (createLayer layerId volume s)
  | Play outcome layerId soundType soundName =>
      final (loadAndPlayAudio outcome layerId soundType soundName s)
  | PlayNoise layerId noiseType => final (generateAndPlayNoise layerId noiseType s)
  | Tone layerId frequency => generateTone layerId frequency s
  | Stop layerId => stopLayer layerId s
  | StopAll => stopAll s
  | PlayAll outcome => playAll outcome s
  | SetLayerVolume layerId volume => setLayerVolume layerId volume s
  | SetMasterVolume volume => setMasterVolume volume s
  | UpdateConfig p => updateConfig p s
  | Dispose => dispose s
  | Advance dt => advance dt s
  end.

Definition run (cs : list Command) (s : State) : State :=
  fold_left (fun s c => exec c s) cs s.

End Engine.

(** * Phases of the two playback methods

    The bodies of [generateAndPlayNoise] and [loadAndPlayAudio] cut at
    their comments, so that proofs can follow them one part at a time; the
    lemmas [generateAndPlayNoise_phases] and [loadAndPlayAudio_phases] state
    that the methods are the compositions of these parts. *)

(** "Generate noise buffer if not already generated". *)
Definition noise_cached (random : nat -> Q) (ctx : AudioContext) (noiseType : string)
    (s : State) : State :=
  match noiseGenerators s !! noiseType with
  | Some _ => s
  | None =>
      let '(buffer, s) := createNoiseBuffer random ctx noiseType s in
      set_noiseGenerators (<[noiseType := buffer]> (noiseGenerators s)) s
  end.

(** "Create buffer source" up to the optional fade in. *)
Definition bind_noise (layerId noiseType : string) (noiseBuffer : AudioBuffer)
    (s : State) : nat * State :=
  let '(source, s) := new_node (BufferSource noiseBuffer true) layerId s in
  let s := update_layer layerId (with_noiseSource (Some source)) s in
  let s := update_layer layerId (with_sourceNode (Some source)) s in
  let s := update_layer layerId (with_currentSound (Some ("noise/" +:+ noiseType))) s in
  let s := update_layer layerId (with_isPlaying true) s in
  (source, if enableCrossfade (config s) then fadeIn layerId s else s).

(** "Create audio element" up to the optional fade in. *)
Definition bind_audio (layerId soundType soundName audioPath : string) (s : State)
  : nat * State :=
  let '(audio, s) := new_Audio audioPath s in
  let s := set_audio_loop (loopLayers (config s)) audio s in
  let '(source, s) := new_node (MediaElementSource audio) layerId s in
  let s := update_layer layerId (with_audioElement (Some audio)) s in
  let s := update_layer layerId (with_sourceNode (Some source)) s in
  let s := update_layer layerId
             (with_currentSound (Some (soundType +:+ "/" +:+ soundName))) s in
  (audio, if enableCrossfade (config s) then fadeIn layerId s else s).

(** The [catch] block and the missing-path branch: log, then the tone. *)
Definition fall_back (layerId message : string) (s : State) : State :=
  generateTone layerId 220 (log LogError message s).

(** * Predicates used by the properties *)

(** Pointwise rational equality of sample buffers. *)
Definition samples_eq (xs ys : list Q) : Prop := Forall2 Qeq xs ys.

(** Every sample lies in [[-b, b]]. *)
Definition samples_within (b : Q) (xs : list Q) : Prop :=
  Forall (fun x => - b <= x <= b) xs.

Definition unit_range (x : Q) : Prop := 0 <= x <= 1.

(** The value the getter returns and every scheduled value are in [[0, 1]]. *)
Definition param_ok (p : AudioParam) : Prop :=
  unit_range (current p) /\ Forall (fun e => unit_range (ev_value e)) (events p).

Definition layer_ok (l : Layer) : Prop :=
  param_ok (gainNode l) /\ unit_range (volume l).

Definition gains_ok (s : State) : Prop :=
  (forall g, masterGain s = Some g -> param_ok g) /\
  (forall k l, get_layer k s = Some l -> layer_ok l).

(** The volume a command passes in, if any, is in [[0, 1]]. *)
Definition volume_arg_ok (c : Command) : Prop :=
  match c with
  | CreateLayer _ v | SetLayerVolume _ v | SetMasterVolume v => unit_range v
  | _ => True
  end.



Definition is_dispose (c : Command) : bool :=
  match c with Dispose => true | _ => false end.

Definition is_advance (c : Command) : bool :=
  match c with Advance _ => true | _ => false end.

Definition is_generated_noise (soundType soundName : string) : bool :=
  String.eqb soundType "noise"
  && existsb (String.eqb soundName) ["white"; "pink"; "brown"]%string.

(** A projection that only reads the fields playback never assigns. *)
Definition ignores_playback {A} (proj : Layer -> A) : Prop :=
  forall l a n c p ns,
    proj (mkLayer (id l) a n (gainNode l) (analyserNode l) c p (volume l)
                  (noiseBuffer l) ns) = proj l.

(** A projection that does not read the gain either. *)
Definition ignores_gain {A} (proj : Layer -> A) : Prop :=
  forall l g, proj (with_gainNode g l) = proj l.

(** The gain parameter and stored volume of a layer. *)
Definition gain_volume (l : Layer) : AudioParam * Q := (gainNode l, volume l).

(** The noise cache, the random draws consumed and the audio context. *)
Definition cache_view (s : State) :=
  (noiseGenerators s, rng s, audioContext s).

(** The playback state [playAll] looks at. *)
Definition playback_view (l : Layer) : option string * bool :=
  (currentSound l, isPlaying l).


(** Nothing has been set up: the engine is not initialized and has no layer. *)
Definition blank (s : State) : Prop :=
  isInitialized s = false /\ layers s = [].

(** * Further predicates and views *)

(** The keys of the layer registry, in insertion order. *)
Definition layer_ids (s : State) : list string := map fst (layers s).

(** What a layer is created with and keeps: its id and its analyser. *)
Definition identity_view (l : Layer) : string * AnalyserNode :=
  (id l, analyserNode l).

(** A projection that does not read the stored volume. *)
Definition ignores_volume {A} (proj : Layer -> A) : Prop :=
  forall l v, proj (with_volume v l) = proj l.

Definition is_initialize (c : Command) : bool :=
  match c with Initialize _ => true | _ => false end.

Definition is_createLayer (c : Command) : bool :=
  match c with CreateLayer _ _ => true | _ => false end.

Definition is_setLayerVolume (c : Command) : bool :=
  match c with SetLayerVolume _ _ => true | _ => false end.

(** Every layer is stored under its own id and has the analyser
    [createLayer] configures. *)
Definition layers_well_formed (s : State) : Prop :=
  NoDup (layer_ids s) /\
  forall k l, get_layer k s = Some l ->
    id l = k /\ analyserNode l = mkAnalyser 256 0.8.

(** The value a layer's gain getter returns. *)
Definition gain_value (k : string) (s : State) : option Q :=
  (fun l => current (gainNode l)) <$> get_layer k s.

(** What a teardown leaves of a layer's playback fields. *)
Definition torn_down (l : Layer) : Prop :=
  isPlaying l = false /\ currentSound l = None /\ sourceNode l = None /\
  audioElement l = None /\ noiseSource l = None.

(** The events of a gain once a ramp from [x] at [t0] to [v] at [t1] has
    been scheduled the way the engine does it: cancel, anchor, ramp. *)
Definition scheduled_ramp (x v t0 t1 : Q) (p : AudioParam) : AudioParam :=
  linearRampToValueAtTime v t1 (setValueAtTime x t0 (cancelScheduledValues t0 p)).

(** Layer [k] exists and is on its way to silence: it is not playing, or a
    teardown for it is pending and due by [t]. *)
Definition stopping (k : string) (t : Q) (s : State) : Prop :=
  is_Some (get_layer k s) /\
  (isPlaying <$> get_layer k s = Some false \/
   exists tm, In tm (timers s) /\ callback tm = StopLayerImmediately k /\ due tm <= t).

(** The body of the loop in [stopAll]. *)
Definition stopAll_step (s : State) (k : string) : State :=
  match get_layer k s with
  | Some l => if isPlaying l then stopLayer k s else s
  | None => s
  end.

(** The fields [bind_audio] assigns, with the stored volume. *)
Definition bound_view (l : Layer) : option nat * option nat * option string * bool * Q :=
  (audioElement l, sourceNode l, currentSound l, isPlaying l, volume l).

(** * The application controller (app.js)

    The controller is modelled by what it does to the engine; the page
    elements it reads and writes (sliders, selects, buttons) are left out,
    and every element it looks up is taken to exist. *)

(** One layer's entry of a preset: [{ sound, volume }]. *)
Record LayerPreset := mkLayerPreset {
  preset_sound : option string;
  preset_volume : Q
}.

Definition Preset := list (string * LayerPreset).

(** [this.layers]. *)
Definition app_layers : list string := ["nature"; "music"; "noise"; "ambient"]%string.

(** [this.presets] as the constructor fills it. *)
Definition presets : list (string * Preset) :=
  [ ("deep-focus",
      [ ("nature", mkLayerPreset (Some "stream") 0.3);
        ("music", mkLayerPreset (Some "ambient") 0.5);
        ("noise", mkLayerPreset (Some "brown") 0.4);
        ("ambient", mkLayerPreset (Some "space") 0.2) ]);
    ("calm-workspace",
      [ ("nature", mkLayerPreset (Some "rain") 0.4);
        ("music", mkLayerPreset (Some "piano") 0.3);
        ("noise", mkLayerPreset (Some "cafe") 0.3);
        ("ambient", mkLayerPreset None 0) ]);
    ("nature-retreat",
      [ ("nature", mkLayerPreset (Some "forest") 0.6);
        ("music", mkLayerPreset None 0);
        ("noise", mkLayerPreset None 0);
        ("ambient", mkLayerPreset (Some "wind") 0.4) ]);
    ("rain-study",
      [ ("nature", mkLayerPreset (Some "rain") 0.7);
        ("music", mkLayerPreset (Some "lofi") 0.4);
        ("noise", mkLayerPreset (Some "white") 0.2);
        ("ambient", mkLayerPreset None 0) ]);
    ("meditation",
      [ ("nature", mkLayerPreset (Some "ocean") 0.3);
        ("music", mkLayerPreset None 0);
        ("noise", mkLayerPreset None 0);
        ("ambient", mkLayerPreset (Some "tibetan") 0.5) ]) ]%string.

Section App.

Variable random : nat -> Q.

(** [handleStopAll()]. *)
Definition handleStopAll (s : State) : State := stopAll s.

(** [playLayer(layerId, soundType, soundName)]. *)
Definition playLayer (outcome : PlayOutcome) (layerId soundType soundName : string)
    (s : State) : Completion :=
  loadAndPlayAudio random outcome layerId soundType soundName s.

(** One round of the loop of [loadPreset]; a round after an error does not
    run. *)
Definition applyLayerPreset (outcome : string -> PlayOutcome) (preset : Preset)
    (c : Completion) (layerId : string) : Completion :=
  match c with
  | Throw _ _ => c
  | Normal s =>
      match assoc layerId preset with
      | None => Normal s
      | Some entry =>
          let r :=
            match get_layer layerId s with
            | None => createLayer layerId (preset_volume entry) s
            | Some _ => Normal (setLayerVolume layerId (preset_volume entry) s)
            end in
          match r with
          | Throw m s => Throw m s
          | Normal s =>
              if truthy (preset_sound entry)
              then playLayer (outcome layerId) layerId layerId
                     (default EmptyString (preset_sound entry)) s
              else Normal s
          end
      end
  end.

(** [loadPreset(presetName)] over the preset table [table] (own entries
    only); [created] and [outcome] are as for [initialize] and [playAll]. *)
Definition loadPreset (table : list (string * Preset)) (created : option AudioContext)
    (outcome : string -> PlayOutcome) (presetName : string) (s : State) : Completion :=
  match assoc presetName table with
  | None => Normal (log LogError ("Preset not found: " +:+ presetName) s)
  | Some preset =>
      let s := log LogInfo ("Loading preset: " +:+ presetName) s in
      match (if negb (isInitialized s) then initialize created s else Normal s) with
      | Throw m s => Throw m s
      | Normal s =>
          let s := handleStopAll s in
          fold_left (applyLayerPreset outcome preset) app_layers (Normal s)
      end
  end.

(** [handleLayerVolumeChange(layerId, event)] for a slider at [percent]. *)
Definition handleLayerVolumeChange (layerId : string) (percent : Q) (s : State) : State :=
  let volume := percent / 100 in
  match get_layer layerId s with
  | Some _ => setLayerVolume layerId volume s
  | None => s
  end.

(** [handleMasterVolumeChange(event)] for a slider at [percent]. *)
Definition handleMasterVolumeChange (percent : Q) (s : State) : State :=
  let volume := percent / 100 in
  if isInitialized s then setMasterVolume volume s else s.

(** [handleAudioSelect(layerId, event)] for the selected value [selected];
    the call to [playLayer] is not awaited, so an error it raises does not
    reach the caller. *)
Definition handleAudioSelect (outcome : PlayOutcome) (layerId selected : string)
    (s : State) : State :=
  if String.eqb selected EmptyString then s
  else
    match getLayerInfo layerId s with
    | Some layerInfo =>
        if info_isPlaying layerInfo
        then final (playLayer outcome layerId layerId selected s)
        else s
    | None => s
    end.

(** [handleLayerToggle(layerId)] for a volume slider at [percent] and the
    selected value [selected]. An error inside the [try] block is logged;
    the call to [playLayer] is not awaited, so an error it raises does not
    reach the [catch]. *)
Definition handleLayerToggle (created : option AudioContext) (outcome : PlayOutcome)
    (layerId : string) (percent : Q) (selected : string) (s : State) : State :=
  let failed := log LogError ("Error toggling layer " +:+ layerId +:+ ":") in
  match (if negb (isInitialized s) then initialize created s else Normal s) with
  | Throw _ s => failed s
  | Normal s =>
      let r :=
        match get_layer layerId s with
        | None => createLayer layerId (percent / 100) s
        | Some _ => Normal s
        end in
      match r with
      | Throw _ s => failed s
      | Normal s =>
          match getLayerInfo layerId s with
          | None => failed s
          | Some layerInfo =>
              if info_isPlaying layerInfo then stopLayer layerId s
              else if negb (String.eqb selected EmptyString)
                   then final (playLayer outcome layerId layerId selected s)
                   else s
          end
      end
  end.

(** What [updateStatus()] writes to the page: the number of active
    layers, the playback status and the engine status. *)
Definition updateStatus (s : State) : nat * string * string :=
  let activeLayers := getActiveLayersCount s in
  (activeLayers,
   if Nat.ltb 0 activeLayers then "Playing"%string else "Stopped"%string,
   if isInitialized s then "Initialized"%string else "Not Initialized"%string).

(** The points [drawWaveform] hands to the canvas for waveform [data] on a
    canvas of [width] by [height]: one per byte, then the closing point. *)
Fixpoint waveform_loop (sliceWidth height x : Q) (data : list Byte.byte) : list (Q * Q) :=
  match data with
  | [] => []
  | b :: rest =>
      let v := inject_Z (Z.of_N (Byte.to_N b)) / 128 in
      let y := (v * height) / 2 in
      (x, y) :: waveform_loop sliceWidth height (x + sliceWidth) rest
  end.

Definition drawWaveform (width height : Q) (data : list Byte.byte) : list (Q * Q) :=
  let sliceWidth := width / inject_Z (Z.of_nat (length data)) in
  waveform_loop sliceWidth height 0 data ++ [(width, height / 2)].

End App.

(** Every volume of the preset is in [[0, 1]]. *)
Definition preset_volumes_ok (p : Preset) : Prop :=
  Forall (fun e => unit_range (preset_volume (snd e))) p.

(** A teardown of layer [k], due at [t], is pending while the layer plays. *)
Definition doomed (k : string) (t : Q) (s : State) : Prop :=
  isPlaying <$> get_layer k s = Some true /\
  exists tm, In tm (timers s) /\ callback tm = StopLayerImmediately k /\ due tm == t.

Arguments update_layer : simpl never.
Arguments forEach_layer : simpl never.
Arguments set_audioContext : simpl never.
Arguments set_masterGain : simpl never.
Arguments set_layers : simpl never.
Arguments set_isInitialized : simpl never.
Arguments set_noiseGenerators : simpl never.
Arguments set_config : simpl never.
Arguments set_now : simpl never.
Arguments set_timers : simpl never.
Arguments set_console : simpl never.
Arguments set_rng : simpl never.
Arguments set_nodes : simpl never.
Arguments set_audios : simpl never.
Arguments set_next_id : simpl never.
Arguments log : simpl never.
Arguments setTimeout : simpl never.
Arguments start_node : simpl never.
Arguments try_stop_node : simpl never.
Arguments pause_audio : simpl never.
Arguments set_audio_loop : simpl never.
Arguments set_audio_playing : simpl never.

(** * Properties of the noise synthesizer *)

Lemma Qdiv_102 (x : Q) : x / 1.02 == x * (50 # 51).
Proof. unfold Qdiv. change (/ 1.02) with (100 # 102). lra. Qed.

Lemma white_loop_length random n k : length (white_loop random n k) = n.
Proof. revert k. induction n as [|n IH]; intros k; simpl; [done | by rewrite IH]. Qed.

Lemma pink_loop_length random n k st : length (pink_loop random n k st) = n.
Proof.
  revert k st. induction n as [|n IH]; intros k st; simpl; [done|].
  by rewrite IH.
Qed.

Lemma brown_loop_length random n k last : length (brown_loop random n k last) = n.
Proof.
  revert k last. induction n as [|n IH]; intros k last; simpl; [done|].
  by rewrite IH.
Qed.

Lemma noise_data_length random noiseType n k :
  length (noise_data random noiseType n k) = n.
Proof.
  unfold noise_data. repeat case_match.
  - apply white_loop_length.
  - apply pink_loop_length.
  - apply brown_loop_length.
  - apply length_replicate.
Qed.

(** C3 (as amended): for every noise type, in particular white, pink and
    brown, the generated buffer holds twice the audio context's sample rate
    samples (two seconds at the rate of the context); the [sampleRate]
    option of the configuration does not enter. *)
Theorem createNoiseBuffer_length random ctx noiseType s :
  let buffer := fst (createNoiseBuffer random ctx noiseType s) in
  length (channelData buffer) = N.to_nat (2 * ctx_sampleRate ctx) /\
  buf_length buffer = N.to_nat (2 * ctx_sampleRate ctx) /\
  buf_sampleRate buffer = ctx_sampleRate ctx.
Proof.
  cbn [createNoiseBuffer fst channelData buf_length buf_sampleRate].
  rewrite noise_data_length, N.mul_comm. done.
Qed.

(** C3 (as stated) fails: with the default configuration ([sampleRate]
    44100) on a platform whose audio context runs at 48000 Hz, the white
    noise buffer has 96000 samples, not 2 * 44100. *)
Lemma createNoiseBuffer_ignores_config_sampleRate :
  let ctx := mkContext 48000 Running in
  let s := final (initialize (Some ctx) new_AudioEngine) in
  audioContext s = Some ctx /\
  sampleRate (config s) = 44100%N /\
  length (channelData (fst (createNoiseBuffer (fun _ => 1 # 2) ctx "white" s)))
    <> N.to_nat (2 * sampleRate (config s)).
Proof.
  intros ctx s. split; [done|]. split; [done|].
  cbn [createNoiseBuffer fst channelData]. rewrite noise_data_length.
  intros H%N2Nat.inj. discriminate H.
Qed.

(** ** Pink noise: the loop is the six-filter bank *)

Lemma pink_body_bank st states delayed white :
  Forall2 Qeq (bank_of st) states ->
  b6 st == delayed ->
  let '(st', out) := pink_body st white in
  let states' := bank_update white pink_filters states in
  Forall2 Qeq (bank_of st') states' /\
  b6 st' == 0.115926 * white /\
  out == (Qsum states' + delayed + 0.5362 * white) * 0.11.
Proof.
  intros Hst Hd. unfold bank_of in Hst.
  repeat match goal with
         | H : Forall2 _ (_ :: _) _ |- _ =>
             apply Forall2_cons_inv_l in H as (? & ? & ? & H & ->)
         | H : Forall2 _ [] _ |- _ => apply Forall2_nil_inv_l in H as ->
         end.
  cbn -[Qmult Qplus Qminus Qeq].
  split; [|split].
  - unfold bank_of. cbn -[Qmult Qplus Qminus Qeq].
    repeat (constructor; [lra|]). constructor.
  - lra.
  - unfold Qsum. cbn -[Qmult Qplus Qminus Qeq]. lra.
Qed.

Lemma pink_loop_bank random n : forall k st states delayed,
  Forall2 Qeq (bank_of st) states ->
  b6 st == delayed ->
  samples_eq (pink_loop random n k st)
             (pink_spec (map (white_draw random) (seq k n)) states delayed).
Proof.
  induction n as [|n IH]; intros k st states delayed Hst Hd.
  - constructor.
  - pose proof (pink_body_bank st states delayed (white_draw random k) Hst Hd) as Hb.
    cbn [pink_loop seq map pink_spec].
    destruct (pink_body st (white_draw random k)) as [st' out].
    destruct Hb as (Hst' & Hd' & Hout).
    constructor; [exact Hout|].
    apply IH; assumption.
Qed.

(** C5: the pink-noise samples are those of a bank of six recursive filters
    with the stated decay factors and input gains, all starting at 0: each
    sample is the sum of the six updated states, the one-sample-delayed
    white state (gain 0.115926, starting at 0) and the direct white term
    (gain 0.5362), scaled by 0.11. *)
Theorem pink_noise_is_filter_bank random bufferSize k :
  samples_eq (noise_data random "pink" bufferSize k)
             (pink_spec (map (white_draw random) (seq k bufferSize))
                        (replicate 6 0) 0).
Proof.
  change (noise_data random "pink" bufferSize k)
    with (pink_loop random bufferSize k pink_init).
  apply pink_loop_bank.
  - repeat constructor.
  - reflexivity.
Qed.

(** ** Sample ranges *)

Section SampleRanges.

Variable random : nat -> Q.
Hypothesis white_range : forall k, -1 <= white_draw random k <= 1.

Lemma white_loop_within n : forall k, samples_within 1 (white_loop random n k).
Proof.
  induction n as [|n IH]; intros k; constructor.
  - apply white_range.
  - apply IH.
Qed.

Lemma brown_body_within lastOut white :
  -1 <= lastOut <= 1 -> -1 <= white <= 1 ->
  -1 <= fst (brown_body lastOut white) <= 1 /\
  -3.5 <= snd (brown_body lastOut white) <= 3.5.
Proof.
  intros Hl Hw. unfold brown_body. cbn [fst snd].
  rewrite !Qdiv_102. lra.
Qed.

Lemma brown_loop_within n : forall k lastOut,
  -1 <= lastOut <= 1 -> samples_within 3.5 (brown_loop random n k lastOut).
Proof.
  induction n as [|n IH]; intros k lastOut Hl; [constructor|].
  cbn [brown_loop].
  pose proof (brown_body_within lastOut (white_draw random k) Hl (white_range k)) as Hb.
  destruct (brown_body lastOut (white_draw random k)) as [lastOut' out].
  cbn [fst snd] in Hb. constructor; [apply Hb|]. apply IH, Hb.
Qed.

Lemma pink_body_within st white :
  pink_bounded st -> -1 <= white <= 1 ->
  pink_bounded (fst (pink_body st white)) /\ -8 <= snd (pink_body st white) <= 8.
Proof.
  unfold pink_bounded, pink_body. cbn [fst snd b0 b1 b2 b3 b4 b5 b6].
  intros (H0 & H1 & H2 & H3 & H4 & H5 & H6) Hw.
  repeat split; lra.
Qed.

Lemma pink_loop_within n : forall k st,
  pink_bounded st -> samples_within 8 (pink_loop random n k st).
Proof.
  induction n as [|n IH]; intros k st Hst; [constructor|].
  cbn [pink_loop].
  pose proof (pink_body_within st (white_draw random k) Hst (white_range k)) as Hb.
  destruct (pink_body st (white_draw random k)) as [st' out].
  cbn [fst snd] in Hb. constructor; [apply Hb|]. apply IH, Hb.
Qed.

End SampleRanges.

Lemma pink_init_bounded : pink_bounded pink_init.
Proof. unfold pink_bounded, pink_init. cbn. repeat split; lra. Qed.

(** C6 (as amended): when every white sample [Math.random() * 2 - 1] is in
    [[-1, 1]], the samples of the white buffer are in [[-1, 1]], those of
    the brown buffer (after the 3.5 scaling) in [[-3.5, 3.5]] and those of
    the pink buffer in [[-8, 8]]. *)
Theorem noise_samples_bounded random ctx s :
  (forall k, -1 <= white_draw random k <= 1) ->
  samples_within 1 (channelData (fst (createNoiseBuffer random ctx "white" s))) /\
  samples_within 8 (channelData (fst (createNoiseBuffer random ctx "pink" s))) /\
  samples_within 3.5 (channelData (fst (createNoiseBuffer random ctx "brown" s))).
Proof.
  intros Hw. cbn [createNoiseBuffer fst channelData].
  split; [|split].
  - change (noise_data random "white" ?n ?k) with (white_loop random n k).
    by apply white_loop_within.
  - change (noise_data random "pink" ?n ?k) with (pink_loop random n k pink_init).
    apply pink_loop_within; [done | apply pink_init_bounded].
  - change (noise_data random "brown" ?n ?k) with (brown_loop random n k 0).
    apply brown_loop_within; [done | lra].
Qed.

(** The bounds at work: every draw 3/4, an 8000 Hz context. *)
Lemma noise_samples_bounded_witness :
  let random := fun _ : nat => 3 # 4 in
  let ctx := mkContext 8000 Running in
  (forall k, -1 <= white_draw random k <= 1) /\
  samples_within 1
    (channelData (fst (createNoiseBuffer random ctx "white" new_AudioEngine))) /\
  samples_within 8
    (channelData (fst (createNoiseBuffer random ctx "pink" new_AudioEngine))) /\
  samples_within 3.5
    (channelData (fst (createNoiseBuffer random ctx "brown" new_AudioEngine))).
Proof.
  intros random ctx.
  assert (Hw : forall k, -1 <= white_draw random k <= 1)
    by (intros k; unfold white_draw, random; lra).
  split; [exact Hw|].
  exact (noise_samples_bounded random ctx new_AudioEngine Hw).
Defined.

Lemma brown_loop_prefix random n : forall i k lastOut,
  (i < n)%nat ->
  brown_loop random n k lastOut !! i = brown_loop random (S i) k lastOut !! i.
Proof.
  induction n as [|n IH]; intros i k lastOut Hi; [lia|].
  destruct i as [|i].
  - cbn [brown_loop]. destruct (brown_body _ _). done.
  - change (brown_loop random (S n) k lastOut)
      with (let '(l', out) := brown_body lastOut (white_draw random k) in
            out :: brown_loop random n (S k) l').
    change (brown_loop random (S (S i)) k lastOut)
      with (let '(l', out) := brown_body lastOut (white_draw random k) in
            out :: brown_loop random (S i) (S k) l').
    destruct (brown_body _ _) as [l' out]. cbn [lookup list_lookup].
    apply IH. lia.
Qed.

(** C6 (as stated) fails: with every draw of [Math.random()] equal to 0.99
    (white samples 0.98, inside [[-1, 1]]) at 44100 Hz, the brown buffer holds
    a sample above 3. *)
Lemma brown_noise_leaves_unit_range :
  let random := fun _ : nat => 99 # 100 in
  let ctx := mkContext 44100 Running in
  (forall k, -1 <= white_draw random k <= 1) /\
  exists i x,
    channelData (fst (createNoiseBuffer random ctx "brown" new_AudioEngine)) !! i
      = Some x /\ 3 < x.
Proof.
  intros random ctx. split.
  - intros k. unfold white_draw, random. lra.
  - exists 119%nat. cbn [createNoiseBuffer fst channelData].
    change (noise_data random "brown" ?n ?k) with (brown_loop random n k 0).
    rewrite brown_loop_prefix by (cbn [ctx_sampleRate ctx]; lia).
    eexists. split; [vm_compute; reflexivity|].
    vm_compute. reflexivity.
Qed.

(** * Properties of the engine *)

(** ** The layer registry *)

Lemma layers_get_set ls k v k' :
  layers_get (layers_set ls k v) k' =
  if String.eqb k k' then Some v else layers_get ls k'.
Proof.
  induction ls as [|[k0 l0] ls IH]; cbn.
  - done.
  - destruct (String.eqb_spec k0 k) as [->|Hne]; cbn.
    + by destruct (String.eqb k k').
    + rewrite IH. destruct (String.eqb_spec k0 k') as [->|Hne'].
      * destruct (String.eqb_spec k k'); [congruence | done].
      * done.
Qed.

Lemma get_layer_update_layer k f s k' :
  get_layer k' (update_layer k f s) =
  if String.eqb k k' then f <$> get_layer k' s else get_layer k' s.
Proof.
  unfold update_layer. destruct (get_layer k s) as [l|] eqn:Hl.
  - unfold get_layer at 1, set_layers. cbn [layers]. rewrite layers_get_set.
    destruct (String.eqb_spec k k') as [<-|Hne]; [|done].
    fold (get_layer k s). by rewrite Hl.
  - destruct (String.eqb_spec k k') as [<-|Hne]; [|done]. by rewrite Hl.
Qed.

Lemma get_layer_update_same k f s :
  get_layer k (update_layer k f s) = f <$> get_layer k s.
Proof. by rewrite get_layer_update_layer, String.eqb_refl. Qed.

(** A projection of the layers that the update leaves alone. *)
Lemma update_layer_proj {A} (proj : Layer -> A) k f s k' :
  (forall l, proj (f l) = proj l) ->
  proj <$> get_layer k' (update_layer k f s) = proj <$> get_layer k' s.
Proof.
  intros Hf. rewrite get_layer_update_layer.
  destruct (String.eqb k k'); [|done].
  destruct (get_layer k' s); cbn; [by rewrite Hf | done].
Qed.

(** What an update leaves of the rest of the state. *)
Lemma update_layer_rest k f s :
  update_layer k f s = set_layers (layers (update_layer k f s)) s.
Proof. unfold update_layer. destruct (get_layer k s); by destruct s. Qed.

Lemma update_layer_nodes k f s : nodes (update_layer k f s) = nodes s.
Proof. by rewrite update_layer_rest. Qed.
Lemma update_layer_audios k f s : audios (update_layer k f s) = audios s.
Proof. by rewrite update_layer_rest. Qed.
Lemma update_layer_console k f s : console (update_layer k f s) = console s.
Proof. by rewrite update_layer_rest. Qed.
Lemma update_layer_timers k f s : timers (update_layer k f s) = timers s.
Proof. by rewrite update_layer_rest. Qed.
Lemma update_layer_rng k f s : rng (update_layer k f s) = rng s.
Proof. by rewrite update_layer_rest. Qed.
Lemma update_layer_noiseGenerators k f s :
  noiseGenerators (update_layer k f s) = noiseGenerators s.
Proof. by rewrite update_layer_rest. Qed.
Lemma update_layer_config k f s : config (update_layer k f s) = config s.
Proof. by rewrite update_layer_rest. Qed.
Lemma update_layer_now k f s : now (update_layer k f s) = now s.
Proof. by rewrite update_layer_rest. Qed.
Lemma update_layer_masterGain k f s : masterGain (update_layer k f s) = masterGain s.
Proof. by rewrite update_layer_rest. Qed.
Lemma update_layer_audioContext k f s :
  audioContext (update_layer k f s) = audioContext s.
Proof. by rewrite update_layer_rest. Qed.
Lemma update_layer_next_id k f s : next_id (update_layer k f s) = next_id s.
Proof. by rewrite update_layer_rest. Qed.
Lemma update_layer_isInitialized k f s :
  isInitialized (update_layer k f s) = isInitialized s.
Proof. by rewrite update_layer_rest. Qed.

Lemma layers_update_same k f s :
  layers_get (layers (update_layer k f s)) k = f <$> layers_get (layers s) k.
Proof. apply get_layer_update_same. Qed.

Lemma layers_update_other k f s k' :
  k <> k' ->
  layers_get (layers (update_layer k f s)) k' = layers_get (layers s) k'.
Proof.
  intros Hne. change (get_layer k' (update_layer k f s) = get_layer k' s).
  rewrite get_layer_update_layer. by destruct (String.eqb_spec k k').
Qed.

Create Rewrite HintDb engine.
#[export] Hint Rewrite update_layer_nodes update_layer_audios update_layer_console
  update_layer_timers update_layer_rng update_layer_noiseGenerators
  update_layer_config update_layer_now update_layer_masterGain
  update_layer_audioContext update_layer_next_id update_layer_isInitialized
  layers_update_same : engine.

(** Field updates are only looked through from under a projection, so that
    composed states keep their size. *)
Ltac is_proj p :=
  lazymatch p with
  | audioContext => idtac | masterGain => idtac | layers => idtac
  | isInitialized => idtac | noiseGenerators => idtac | config => idtac
  | now => idtac | timers => idtac | console => idtac | rng => idtac
  | nodes => idtac | audios => idtac | next_id => idtac
  end.

Ltac is_setter f :=
  lazymatch f with
  | set_audioContext => idtac | set_masterGain => idtac | set_layers => idtac
  | set_isInitialized => idtac | set_noiseGenerators => idtac | set_config => idtac
  | set_now => idtac | set_timers => idtac | set_console => idtac | set_rng => idtac
  | set_nodes => idtac | set_audios => idtac | set_next_id => idtac
  end.

Ltac is_op t :=
  lazymatch t with
  | log _ _ _ => idtac | setTimeout _ _ _ => idtac | start_node _ _ => idtac
  | try_stop_node _ _ => idtac | pause_audio _ _ => idtac
  | set_audio_loop _ _ _ => idtac | set_audio_playing _ _ => idtac
  end.

Ltac proj_step :=
  match goal with
  | |- context [?p (?f ?v ?s)] =>
      is_proj p; is_setter f;
      first [ change (p (f v s)) with (p s) | change (p (f v s)) with v ]
  | H : context [?p (?f ?v ?s)] |- _ =>
      is_proj p; is_setter f;
      first [ change (p (f v s)) with (p s) in H | change (p (f v s)) with v in H ]
  | |- context [?p ?t] =>
      is_proj p; is_op t;
      let t' := eval red in t in change (p t) with (p t')
  | H : context [?p ?t] |- _ =>
      is_proj p; is_op t;
      let t' := eval red in t in change (p t) with (p t') in H
  end.

(** Normalises projections and layer lookups of a composed state. *)
Ltac simp_state :=
  repeat (first
    [ progress (unfold get_layer in * )
    | proj_step
    | progress (cbn -[Qmult Qplus Qminus Qdiv Qopp Qle Qlt Qeq Qmax String.append
                      pretty insert_event List.filter] in * )
    | progress (autorewrite with engine in * ) ]).

(** ** C10: analyser data *)

(** C10: [getAnalyserData] returns nothing for an unknown layer and for a
    layer whose [isPlaying] flag is false; for an existing, playing layer it
    returns a byte array of [frequencyBinCount] entries. *)
Theorem getAnalyserData_cases waveform layerId s :
  match get_layer layerId s with
  | None => getAnalyserData waveform layerId s = None
  | Some layer =>
      if isPlaying layer
      then exists data,
             getAnalyserData waveform layerId s = Some data /\
             length data = frequencyBinCount (analyserNode layer)
      else getAnalyserData waveform layerId s = None
  end.
Proof.
  unfold getAnalyserData. destruct (get_layer layerId s) as [layer|]; [|done].
  destruct (isPlaying layer); cbn; [|done].
  eexists. split; [done|]. by rewrite length_map, length_seq.
Qed.

(** ** The playback methods as compositions of their parts *)

Lemma generateAndPlayNoise_phases random layerId noiseType s :
  generateAndPlayNoise random layerId noiseType s =
  match get_layer layerId s with
  | None => Normal s
  | Some _ =>
      match audioContext s with
      | None => Throw "TypeError" s
      | Some ctx =>
          let s1 := noise_cached random ctx noiseType s in
          match noiseGenerators s1 !! noiseType with
          | None => Throw "TypeError" s1
          | Some noiseBuffer =>
              let '(source, s2) := bind_noise layerId noiseType noiseBuffer s1 in
              Normal (log LogInfo ("Playing " +:+ noiseType +:+ " noise on layer "
                                     +:+ layerId) (start_node source s2))
          end
      end
  end.
Proof. reflexivity. Qed.

Lemma loadAndPlayAudio_phases random outcome layerId soundType soundName s :
  loadAndPlayAudio random outcome layerId soundType soundName s =
  match get_layer layerId (resume s) with
  | None => Throw ("Layer " +:+ layerId +:+ " not found") (resume s)
  | Some _ =>
      let s1 := stopLayer layerId (resume s) in
      if is_generated_noise soundType soundName
      then generateAndPlayNoise random layerId soundName s1
      else
        match library_path soundType soundName with
        | None =>
            Normal (fall_back layerId
                      ("Audio not found: " +:+ soundType +:+ "/" +:+ soundName) s1)
        | Some audioPath =>
            match outcome with
            | ElementFails =>
                Normal (fall_back layerId
                          ("Error loading audio for " +:+ layerId +:+ ":") s1)
            | PlayRejects =>
                Normal (fall_back layerId
                          ("Error loading audio for " +:+ layerId +:+ ":")
                          (snd (bind_audio layerId soundType soundName audioPath s1)))
            | PlayResolves =>
                let '(audio, s2) :=
                  bind_audio layerId soundType soundName audioPath s1 in
                Normal (log LogInfo
                          ("Playing audio: " +:+ soundType +:+ "/" +:+ soundName
                             +:+ " on layer " +:+ layerId)
                          (update_layer layerId (with_isPlaying true)
                             (set_audio_playing audio s2)))
            end
        end
  end.
Proof.
  unfold loadAndPlayAudio, is_generated_noise, fall_back.
  destruct (get_layer layerId (resume s)); [|done].
  cbv zeta. case_match; [done|].
  destruct (library_path soundType soundName); [|done].
  destruct outcome; [reflexivity|..];
    unfold bind_audio; cbv beta iota zeta delta [new_Audio new_node snd];
    reflexivity.
Qed.

(** ** Projections of the layers that a method leaves alone *)

Lemma fmap_proj_with {A} (proj : Layer -> A) (f : Layer -> Layer) (x : option Layer) :
  (forall l, proj (f l) = proj l) -> proj <$> (f <$> x) = proj <$> x.
Proof. intros Hf. destruct x; cbn; [by rewrite Hf | done]. Qed.

Lemma layers_update_proj {A} (proj : Layer -> A) k f s k' :
  (forall l, proj (f l) = proj l) ->
  proj <$> layers_get (layers (update_layer k f s)) k' = proj <$> layers_get (layers s) k'.
Proof. apply update_layer_proj. Qed.

Lemma fmap_unit_is_Some {A B} (x : option A) (y : option B) :
  (fun _ => ()) <$> x = (fun _ => ()) <$> y -> is_Some y -> is_Some x.
Proof. destruct x, y; cbn; intros H [? ?]; try done. Qed.

(** Rewrites away layer updates under a projection they do not touch. *)
Ltac drop_updates :=
  repeat (first
    [ rewrite layers_update_proj by done
    | rewrite fmap_proj_with by done
    | progress simp_state ]).

Lemma ignores_playback_with {A} (proj : Layer -> A) :
  ignores_playback proj ->
  (forall v l, proj (with_audioElement v l) = proj l) /\
  (forall v l, proj (with_noiseSource v l) = proj l) /\
  (forall v l, proj (with_sourceNode v l) = proj l) /\
  (forall v l, proj (with_currentSound v l) = proj l) /\
  (forall v l, proj (with_isPlaying v l) = proj l).
Proof. intros Hp. repeat split; intros; apply Hp. Qed.

Lemma resume_layers s : layers (resume s) = layers s.
Proof. unfold resume. repeat case_match; done. Qed.

Lemma resume_config s : config (resume s) = config s.
Proof. unfold resume. repeat case_match; done. Qed.

Lemma resume_console s : console (resume s) = console s.
Proof. unfold resume. repeat case_match; done. Qed.

Lemma _stopLayerImmediately_proj {A} (proj : Layer -> A) k s k' :
  ignores_playback proj ->
  proj <$> get_layer k' (_stopLayerImmediately k s) = proj <$> get_layer k' s.
Proof.
  intros (? & ? & ? & ? & ?)%ignores_playback_with.
  unfold _stopLayerImmediately. repeat case_match; drop_updates; done.
Qed.

Lemma fadeIn_proj {A} (proj : Layer -> A) k s k' :
  ignores_gain proj ->
  proj <$> get_layer k' (fadeIn k s) = proj <$> get_layer k' s.
Proof. intros Hp. unfold fadeIn. repeat case_match; drop_updates; done. Qed.

Lemma fadeOut_proj {A} (proj : Layer -> A) k cb s k' :
  ignores_gain proj ->
  proj <$> get_layer k' (fadeOut k cb s) = proj <$> get_layer k' s.
Proof. intros Hp. unfold fadeOut. repeat case_match; drop_updates; done. Qed.

Lemma stopLayer_proj {A} (proj : Layer -> A) k s k' :
  ignores_playback proj -> ignores_gain proj ->
  proj <$> get_layer k' (stopLayer k s) = proj <$> get_layer k' s.
Proof.
  intros Hp Hg. unfold stopLayer. repeat case_match; try done.
  - by apply fadeOut_proj.
  - by apply _stopLayerImmediately_proj.
Qed.

Lemma generateTone_proj {A} (proj : Layer -> A) k f s k' :
  ignores_playback proj ->
  proj <$> get_layer k' (generateTone k f s) = proj <$> get_layer k' s.
Proof.
  intros (? & ? & ? & ? & ?)%ignores_playback_with.
  unfold generateTone. destruct (get_layer k s); [|done].
  cbn [new_node]. drop_updates. done.
Qed.

Lemma fall_back_proj {A} (proj : Layer -> A) k msg s k' :
  ignores_playback proj ->
  proj <$> get_layer k' (fall_back k msg s) = proj <$> get_layer k' s.
Proof. intros Hp. unfold fall_back. by rewrite generateTone_proj. Qed.

Lemma stopLayer_exists k s k' :
  is_Some (get_layer k' s) -> is_Some (get_layer k' (stopLayer k s)).
Proof. apply fmap_unit_is_Some, stopLayer_proj; done. Qed.




(** ** C9: fallback tone *)





(** ** What the parts leave of the rest of the state *)

Ltac frame_tac :=
  intros;
  unfold stopLayer, fadeOut, fadeIn, _stopLayerImmediately, generateTone, fall_back,
    noise_cached, bind_noise, bind_audio, resume;
  cbn [new_node new_Audio createNoiseBuffer snd fst];
  repeat case_match; simp_state; try done.

Lemma _stopLayerImmediately_config k s : config (_stopLayerImmediately k s) = config s.
Proof. frame_tac. Qed.
Lemma _stopLayerImmediately_noiseGenerators k s :
  noiseGenerators (_stopLayerImmediately k s) = noiseGenerators s.
Proof. frame_tac. Qed.
Lemma _stopLayerImmediately_rng k s : rng (_stopLayerImmediately k s) = rng s.
Proof. frame_tac. Qed.
Lemma _stopLayerImmediately_masterGain k s :
  masterGain (_stopLayerImmediately k s) = masterGain s.
Proof. frame_tac. Qed.
Lemma _stopLayerImmediately_timers k s : timers (_stopLayerImmediately k s) = timers s.
Proof. frame_tac. Qed.
Lemma _stopLayerImmediately_audioContext k s :
  audioContext (_stopLayerImmediately k s) = audioContext s.
Proof. frame_tac. Qed.

#[export] Hint Rewrite _stopLayerImmediately_config
  _stopLayerImmediately_noiseGenerators _stopLayerImmediately_rng
  _stopLayerImmediately_masterGain _stopLayerImmediately_timers
  _stopLayerImmediately_audioContext : engine.

Lemma fadeOut_config k cb s : config (fadeOut k cb s) = config s.
Proof. frame_tac. Qed.
Lemma fadeOut_noiseGenerators k cb s : noiseGenerators (fadeOut k cb s) = noiseGenerators s.
Proof. frame_tac. Qed.
Lemma fadeOut_rng k cb s : rng (fadeOut k cb s) = rng s.
Proof. frame_tac. Qed.
Lemma fadeOut_masterGain k cb s : masterGain (fadeOut k cb s) = masterGain s.
Proof. frame_tac. Qed.
Lemma fadeOut_audioContext k cb s : audioContext (fadeOut k cb s) = audioContext s.
Proof. frame_tac. Qed.

#[export] Hint Rewrite fadeOut_config fadeOut_noiseGenerators fadeOut_rng
  fadeOut_masterGain fadeOut_audioContext : engine.

Lemma stopLayer_config k s : config (stopLayer k s) = config s.
Proof. frame_tac. Qed.
Lemma stopLayer_noiseGenerators k s :
  noiseGenerators (stopLayer k s) = noiseGenerators s.
Proof. frame_tac. Qed.
Lemma stopLayer_rng k s : rng (stopLayer k s) = rng s.
Proof. frame_tac. Qed.
Lemma stopLayer_masterGain k s : masterGain (stopLayer k s) = masterGain s.
Proof. frame_tac. Qed.
Lemma stopLayer_audioContext k s : audioContext (stopLayer k s) = audioContext s.
Proof. frame_tac. Qed.

#[export] Hint Rewrite stopLayer_config stopLayer_noiseGenerators stopLayer_rng
  stopLayer_masterGain stopLayer_audioContext : engine.

Lemma fadeIn_config k s : config (fadeIn k s) = config s.
Proof. frame_tac. Qed.
Lemma fadeIn_noiseGenerators k s : noiseGenerators (fadeIn k s) = noiseGenerators s.
Proof. frame_tac. Qed.
Lemma fadeIn_rng k s : rng (fadeIn k s) = rng s.
Proof. frame_tac. Qed.
Lemma fadeIn_masterGain k s : masterGain (fadeIn k s) = masterGain s.
Proof. frame_tac. Qed.
Lemma fadeIn_nodes k s : nodes (fadeIn k s) = nodes s.
Proof. frame_tac. Qed.
Lemma fadeIn_console k s : console (fadeIn k s) = console s.
Proof. frame_tac. Qed.
Lemma fadeIn_timers k s : timers (fadeIn k s) = timers s.
Proof. frame_tac. Qed.
Lemma fadeIn_next_id k s : next_id (fadeIn k s) = next_id s.
Proof. frame_tac. Qed.

#[export] Hint Rewrite fadeIn_config fadeIn_noiseGenerators fadeIn_rng
  fadeIn_masterGain fadeIn_nodes fadeIn_console fadeIn_timers fadeIn_next_id : engine.

Lemma generateTone_config k f s : config (generateTone k f s) = config s.
Proof. frame_tac. Qed.
Lemma generateTone_noiseGenerators k f s :
  noiseGenerators (generateTone k f s) = noiseGenerators s.
Proof. frame_tac. Qed.
Lemma generateTone_rng k f s : rng (generateTone k f s) = rng s.
Proof. frame_tac. Qed.
Lemma generateTone_masterGain k f s : masterGain (generateTone k f s) = masterGain s.
Proof. frame_tac. Qed.
Lemma generateTone_timers k f s : timers (generateTone k f s) = timers s.
Proof. frame_tac. Qed.

#[export] Hint Rewrite generateTone_config generateTone_noiseGenerators
  generateTone_rng generateTone_masterGain generateTone_timers : engine.

Lemma fall_back_config k m s : config (fall_back k m s) = config s.
Proof. unfold fall_back. by rewrite generateTone_config. Qed.
Lemma fall_back_noiseGenerators k m s :
  noiseGenerators (fall_back k m s) = noiseGenerators s.
Proof. unfold fall_back. by rewrite generateTone_noiseGenerators. Qed.
Lemma fall_back_rng k m s : rng (fall_back k m s) = rng s.
Proof. unfold fall_back. by rewrite generateTone_rng. Qed.
Lemma fall_back_masterGain k m s : masterGain (fall_back k m s) = masterGain s.
Proof. unfold fall_back. by rewrite generateTone_masterGain. Qed.
Lemma fall_back_timers k m s : timers (fall_back k m s) = timers s.
Proof. unfold fall_back. by rewrite generateTone_timers. Qed.

#[export] Hint Rewrite fall_back_config fall_back_noiseGenerators fall_back_rng
  fall_back_masterGain fall_back_timers : engine.

Lemma noise_cached_layers random ctx t s : layers (noise_cached random ctx t s) = layers s.
Proof. frame_tac. Qed.
Lemma noise_cached_config random ctx t s : config (noise_cached random ctx t s) = config s.
Proof. frame_tac. Qed.
Lemma noise_cached_masterGain random ctx t s :
  masterGain (noise_cached random ctx t s) = masterGain s.
Proof. frame_tac. Qed.
Lemma noise_cached_timers random ctx t s : timers (noise_cached random ctx t s) = timers s.
Proof. frame_tac. Qed.

#[export] Hint Rewrite noise_cached_layers noise_cached_config
  noise_cached_masterGain noise_cached_timers : engine.

Lemma bind_noise_config k t b s : config (snd (bind_noise k t b s)) = config s.
Proof. frame_tac. Qed.
Lemma bind_noise_noiseGenerators k t b s :
  noiseGenerators (snd (bind_noise k t b s)) = noiseGenerators s.
Proof. frame_tac. Qed.
Lemma bind_noise_rng k t b s : rng (snd (bind_noise k t b s)) = rng s.
Proof. frame_tac. Qed.
Lemma bind_noise_masterGain k t b s :
  masterGain (snd (bind_noise k t b s)) = masterGain s.
Proof. frame_tac. Qed.
Lemma bind_noise_timers k t b s : timers (snd (bind_noise k t b s)) = timers s.
Proof. frame_tac. Qed.

#[export] Hint Rewrite bind_noise_config bind_noise_noiseGenerators bind_noise_rng
  bind_noise_masterGain bind_noise_timers : engine.

Lemma bind_audio_config k st sn p s : config (snd (bind_audio k st sn p s)) = config s.
Proof. frame_tac. Qed.
Lemma bind_audio_noiseGenerators k st sn p s :
  noiseGenerators (snd (bind_audio k st sn p s)) = noiseGenerators s.
Proof. frame_tac. Qed.
Lemma bind_audio_rng k st sn p s : rng (snd (bind_audio k st sn p s)) = rng s.
Proof. frame_tac. Qed.
Lemma bind_audio_masterGain k st sn p s :
  masterGain (snd (bind_audio k st sn p s)) = masterGain s.
Proof. frame_tac. Qed.
Lemma bind_audio_timers k st sn p s : timers (snd (bind_audio k st sn p s)) = timers s.
Proof. frame_tac. Qed.

#[export] Hint Rewrite bind_audio_config bind_audio_noiseGenerators bind_audio_rng
  bind_audio_masterGain bind_audio_timers : engine.

Lemma resume_noiseGenerators s : noiseGenerators (resume s) = noiseGenerators s.
Proof. frame_tac. Qed.
Lemma resume_rng s : rng (resume s) = rng s.
Proof. frame_tac. Qed.
Lemma resume_masterGain s : masterGain (resume s) = masterGain s.
Proof. frame_tac. Qed.
Lemma resume_timers s : timers (resume s) = timers s.
Proof. frame_tac. Qed.

#[export] Hint Rewrite resume_noiseGenerators resume_rng resume_masterGain
  resume_timers : engine.

#[export] Hint Rewrite resume_layers resume_config resume_console : engine.

(** ** C8: starting playback with crossfade disabled *)

Lemma stopLayer_gain_without_crossfade k s k' :
  enableCrossfade (config s) = false ->
  gainNode <$> get_layer k' (stopLayer k s) = gainNode <$> get_layer k' s.
Proof.
  intros Hcf. unfold stopLayer. rewrite Hcf. cbn [andb].
  destruct (get_layer k s); [|done].
  by apply _stopLayerImmediately_proj.
Qed.

Lemma bind_noise_gain_without_crossfade k t b s k' :
  enableCrossfade (config s) = false ->
  gainNode <$> get_layer k' (snd (bind_noise k t b s)) = gainNode <$> get_layer k' s.
Proof.
  intros Hcf. unfold bind_noise. cbn [new_node snd]. simp_state.
  rewrite Hcf. drop_updates. done.
Qed.

Lemma bind_audio_gain_without_crossfade k st sn p s k' :
  enableCrossfade (config s) = false ->
  gainNode <$> get_layer k' (snd (bind_audio k st sn p s)) = gainNode <$> get_layer k' s.
Proof.
  intros Hcf. unfold bind_audio. cbn [new_Audio new_node snd]. simp_state.
  rewrite Hcf. drop_updates. done.
Qed.

Lemma generateAndPlayNoise_gain_without_crossfade random k noiseType s k' :
  enableCrossfade (config s) = false ->
  gainNode <$> get_layer k' (final (generateAndPlayNoise random k noiseType s))
  = gainNode <$> get_layer k' s.
Proof.
  intros Hcf. rewrite generateAndPlayNoise_phases.
  destruct (get_layer k s); [|done].
  destruct (audioContext s) as [ctx|]; [|done]. cbv zeta.
  assert (Hc : forall k0, get_layer k0 (noise_cached random ctx noiseType s)
                          = get_layer k0 s)
    by (intros; unfold get_layer; by rewrite noise_cached_layers).
  assert (Hcf1 : enableCrossfade (config (noise_cached random ctx noiseType s)) = false)
    by (by rewrite noise_cached_config).
  set (s1 := noise_cached random ctx noiseType s) in *.
  destruct (noiseGenerators s1 !! noiseType) as [b|]; [|by rewrite <- Hc].
  pose proof (bind_noise_gain_without_crossfade k noiseType b s1 k' Hcf1) as Hb.
  destruct (bind_noise k noiseType b s1) as [source s2]. cbn [snd final] in *.
  rewrite <- Hc, <- Hb. unfold get_layer. simp_state. done.
Qed.

(** C8 (as amended): with crossfade disabled, starting playback schedules
    nothing on any layer's gain: after [loadAndPlayAudio], whatever the sound
    and the outcome, every layer's gain parameter (current value and
    timeline) is what it was before the call. *)
Theorem playback_without_crossfade_keeps_gain
    random outcome layerId soundType soundName s k' :
  enableCrossfade (config s) = false ->
  gainNode <$> get_layer k'
     (final (loadAndPlayAudio random outcome layerId soundType soundName s))
  = gainNode <$> get_layer k' s.
Proof.
  intros Hcf. rewrite loadAndPlayAudio_phases.
  assert (Hres : forall k, get_layer k (resume s) = get_layer k s)
    by (intros; unfold get_layer; by rewrite resume_layers).
  assert (Hstop : gainNode <$> get_layer k' (stopLayer layerId (resume s))
                  = gainNode <$> get_layer k' s)
    by (rewrite stopLayer_gain_without_crossfade, Hres; [done | by rewrite resume_config]).
  assert (Hcf2 : enableCrossfade (config (stopLayer layerId (resume s))) = false)
    by (by rewrite stopLayer_config, resume_config).
  destruct (get_layer layerId (resume s)); [|by rewrite <- Hres].
  cbv zeta. set (s1 := stopLayer layerId (resume s)) in *.
  destruct (is_generated_noise soundType soundName).
  { by rewrite generateAndPlayNoise_gain_without_crossfade. }
  destruct (library_path soundType soundName) as [path|].
  - pose proof (bind_audio_gain_without_crossfade
                  layerId soundType soundName path s1 k' Hcf2) as Hb.
    destruct outcome; cbn [final].
    + by rewrite fall_back_proj.
    + rewrite fall_back_proj by done. by rewrite Hb.
    + destruct (bind_audio layerId soundType soundName path s1) as [audio s2].
      cbn [snd final] in *. rewrite <- Hstop, <- Hb.
      unfold get_layer. drop_updates. done.
  - cbn [final]. by rewrite fall_back_proj.
Qed.

(** The gain is left alone when a sound starts with crossfade switched off. *)
Lemma playback_without_crossfade_keeps_gain_witness :
  let random := fun _ : nat => 1 # 2 in
  let s :=
    run random
      [ Initialize (Some (mkContext 44100 Running)); CreateLayer "nature" 0.6;
        UpdateConfig (mkPatch None (Some false) None None) ] new_AudioEngine in
  enableCrossfade (config s) = false /\
  gainNode <$> get_layer "nature"
     (final (loadAndPlayAudio random PlayResolves "nature" "nature" "rain" s))
  = gainNode <$> get_layer "nature" s.
Proof.
  intros random s.
  assert (H : enableCrossfade (config s) = false) by reflexivity.
  split; [exact H|].
  exact (playback_without_crossfade_keeps_gain random PlayResolves "nature" "nature"
           "rain" s "nature" H).
Defined.

(** C8 (as stated) fails: a layer of volume 0.6 plays for two seconds and is
    stopped; once the fade-out has brought its gain to 0 and torn it down,
    crossfade is switched off and a sound is started on the layer. The layer
    plays, its target volume is 0.6, and its gain is left at 0, also one
    second later. *)
Lemma playback_without_crossfade_can_stay_silent :
  let random := fun _ : nat => 1 # 2 in
  let before :=
    run random
      [ Initialize (Some (mkContext 44100 Running)); CreateLayer "nature" 0.6;
        Play PlayResolves "nature" "nature" "rain"; Advance 2;
        Stop "nature"; Advance 1;
        UpdateConfig (mkPatch None (Some false) None None) ] new_AudioEngine in
  let after := exec random (Play PlayResolves "nature" "nature" "forest") before in
  let later := exec random (Advance 1) after in
  enableCrossfade (config before) = false /\
  (exists l, get_layer "nature" after = Some l /\
             isPlaying l = true /\
             currentSound l = Some "nature/forest"%string /\
             Qeq_bool (volume l) 0.6 = true /\
             Qeq_bool (current (gainNode l)) 0 = true) /\
  (exists l, get_layer "nature" later = Some l /\
             isPlaying l = true /\
             Qeq_bool (volume l) 0.6 = true /\
             Qeq_bool (current (gainNode l)) 0 = true).
Proof.
  split; [reflexivity|]. split; eexists; (split; [vm_compute; reflexivity|]);
    repeat split; vm_compute; reflexivity.
Qed.

(** ** C4: gain values and the range [[0, 1]] *)

Lemma unit_range_0 : unit_range 0.
Proof. unfold unit_range. lra. Qed.

Lemma unit_range_1 : unit_range 1.
Proof. unfold unit_range. lra. Qed.

Lemma Forall_list_filter {A} (P : A -> Prop) (f : A -> bool) (xs : list A) :
  Forall P xs -> Forall P (List.filter f xs).
Proof.
  induction 1 as [|x xs Hx _ IH]; cbn; [constructor|].
  destruct (f x); [by constructor | done].
Qed.

Lemma insert_event_Forall (P : AutomationEvent -> Prop) e evs :
  P e -> Forall P evs -> Forall P (insert_event e evs).
Proof.
  intros He. induction 1 as [|e' evs He' Hevs IH]; cbn.
  - by repeat constructor.
  - destruct (Qle_bool (ev_time e') (ev_time e)).
    + by constructor.
    + by repeat constructor.
Qed.

Lemma cancelScheduledValues_ok t p : param_ok p -> param_ok (cancelScheduledValues t p).
Proof. intros [Hc He]. split; [done|]. by apply Forall_list_filter. Qed.

Lemma setValueAtTime_ok v t p :
  unit_range v -> param_ok p -> param_ok (setValueAtTime v t p).
Proof. intros Hv [Hc He]. split; [done|]. by apply insert_event_Forall. Qed.

Lemma linearRampToValueAtTime_ok v t p :
  unit_range v -> param_ok p -> param_ok (linearRampToValueAtTime v t p).
Proof. intros Hv [Hc He]. split; [done|]. by apply insert_event_Forall. Qed.

Lemma set_value_ok v t p : unit_range v -> param_ok p -> param_ok (set_value v t p).
Proof. intros Hv [Hc He]. split; [done|]. by apply insert_event_Forall. Qed.

Lemma default_gain_ok : param_ok default_gain.
Proof. split; [apply unit_range_1 | constructor]. Qed.

(** A ramp between two values of [[0, 1]] stays there between its end points. *)
Lemma ramp_value_range v0 t0 v1 t1 t :
  unit_range v0 -> unit_range v1 -> t0 <= t -> t < t1 ->
  unit_range (ramp_value v0 t0 v1 t1 t).
Proof.
  unfold unit_range, ramp_value. intros H0 H1 Hlo Hhi.
  assert (Hd : 0 < t1 - t0) by lra.
  set (k := (t - t0) / (t1 - t0)).
  assert (Hk : 0 <= k <= 1).
  { unfold k. split.
    - apply Qle_shift_div_l; [done | lra].
    - apply Qle_shift_div_r; [done | lra]. }
  nra.
Qed.

Lemma timeline_from_range evs : forall prev t held,
  Forall (fun e => unit_range (ev_value e)) evs ->
  unit_range held ->
  (forall p, prev = Some p -> unit_range (ev_value p) /\ ev_time p <= t) ->
  unit_range (timeline_from prev evs t held).
Proof.
  induction evs as [|e evs IH]; intros prev t held Hevs Hheld Hprev; cbn.
  - destruct prev as [p|]; [by apply Hprev | done].
  - inversion Hevs as [|? ? He Hrest]; subst.
    destruct (Qle_bool (ev_time e) t) eqn:Hle.
    + apply IH; [done | done |].
      intros p [= <-]. split; [done | by apply Qle_bool_iff].
    + destruct prev as [p|]; [|done].
      destruct (Hprev p eq_refl) as [Hp Htp].
      destruct (ev_kind e); [done|].
      apply ramp_value_range; [done | done | done |].
      apply Qnot_le_lt. intros Hc%Qle_bool_iff. congruence.
Qed.

Lemma render_ok t p : param_ok p -> param_ok (render t p).
Proof.
  intros [Hc He]. split; [|done]. cbn.
  apply timeline_from_range; [done | done | intros ? [=]].
Qed.

(** Invariants that read only the layers and the master gain. *)
Lemma gains_ok_frame s s' :
  layers s' = layers s -> masterGain s' = masterGain s -> gains_ok s -> gains_ok s'.
Proof.
  intros Hl Hm [Hmaster Hlayers]. split.
  - by rewrite Hm.
  - intros k l. unfold get_layer. rewrite Hl. apply Hlayers.
Qed.

Lemma gains_ok_same_gains s s' :
  (forall k, gain_volume <$> get_layer k s' = gain_volume <$> get_layer k s) ->
  masterGain s' = masterGain s ->
  gains_ok s -> gains_ok s'.
Proof.
  intros Hl Hm [Hmaster Hlayers]. split; [by rewrite Hm|].
  intros k l' Hl'. specialize (Hl k). rewrite Hl' in Hl.
  destruct (get_layer k s) as [l|] eqn:Hk; [|done].
  injection Hl as Hg Hv. specialize (Hlayers k l Hk).
  unfold layer_ok in *. by rewrite Hg, Hv.
Qed.

Lemma gains_ok_update_layer k f s :
  gains_ok s ->
  (forall l, get_layer k s = Some l -> layer_ok l -> layer_ok (f l)) ->
  gains_ok (update_layer k f s).
Proof.
  intros [Hmaster Hlayers] Hf. split.
  - by rewrite update_layer_masterGain.
  - intros k' l'. rewrite get_layer_update_layer.
    destruct (String.eqb_spec k k') as [<-|Hne]; [|apply Hlayers].
    destruct (get_layer k s) as [l|] eqn:Hk; [|done].
    intros [= <-]. apply Hf; [done|]. by apply (Hlayers k).
Qed.

Lemma gain_volume_ignores_playback : ignores_playback gain_volume.
Proof. intros l a n c p ns. done. Qed.

Lemma _stopLayerImmediately_gains_ok k s :
  gains_ok s -> gains_ok (_stopLayerImmediately k s).
Proof.
  apply gains_ok_same_gains.
  - intros k'. apply _stopLayerImmediately_proj, gain_volume_ignores_playback.
  - apply _stopLayerImmediately_masterGain.
Qed.

Lemma generateTone_gains_ok k f s : gains_ok s -> gains_ok (generateTone k f s).
Proof.
  apply gains_ok_same_gains.
  - intros k'. apply generateTone_proj, gain_volume_ignores_playback.
  - apply generateTone_masterGain.
Qed.

Lemma fall_back_gains_ok k m s : gains_ok s -> gains_ok (fall_back k m s).
Proof.
  apply gains_ok_same_gains.
  - intros k'. apply fall_back_proj, gain_volume_ignores_playback.
  - apply fall_back_masterGain.
Qed.

Lemma fadeIn_gains_ok k s : gains_ok s -> gains_ok (fadeIn k s).
Proof.
  intros Hs. unfold fadeIn. destruct (get_layer k s) as [layer|] eqn:Hk; [|done].
  apply gains_ok_update_layer; [done|].
  intros l Hl [Hg Hv]. destruct (proj2 Hs k layer Hk) as [Hg' Hv'].
  split; [|done]. cbn.
  apply linearRampToValueAtTime_ok; [done|].
  apply setValueAtTime_ok; [apply unit_range_0|].
  by apply cancelScheduledValues_ok.
Qed.

Lemma fadeOut_gains_ok k cb s : gains_ok s -> gains_ok (fadeOut k cb s).
Proof.
  intros Hs. unfold fadeOut. destruct (get_layer k s) as [layer|] eqn:Hk; [|done].
  assert (Hu : gains_ok (update_layer k
            (with_gainNode
               (linearRampToValueAtTime 0 (now s + fadeDuration (config s))
                  (setValueAtTime (current (cancelScheduledValues (now s) (gainNode layer)))
                     (now s) (cancelScheduledValues (now s) (gainNode layer))))) s)).
  { apply gains_ok_update_layer; [done|].
    intros l Hl [Hg Hv]. destruct (proj2 Hs k layer Hk) as [Hg' Hv'].
    split; [|done]. cbn.
    apply linearRampToValueAtTime_ok; [apply unit_range_0|].
    apply setValueAtTime_ok; [apply Hg'|].
    by apply cancelScheduledValues_ok. }
  cbv zeta. destruct cb; [|done].
  revert Hu. apply gains_ok_frame; unfold setTimeout; simp_state; done.
Qed.

Lemma stopLayer_gains_ok k s : gains_ok s -> gains_ok (stopLayer k s).
Proof.
  intros Hs. unfold stopLayer. repeat case_match; try done.
  - by apply fadeOut_gains_ok.
  - by apply _stopLayerImmediately_gains_ok.
Qed.

Lemma noise_cached_gains_ok random ctx t s :
  gains_ok s -> gains_ok (noise_cached random ctx t s).
Proof.
  apply gains_ok_frame; [apply noise_cached_layers | apply noise_cached_masterGain].
Qed.

Lemma update_playback_gains_ok k f s :
  (forall l, gain_volume (f l) = gain_volume l) ->
  gains_ok s -> gains_ok (update_layer k f s).
Proof.
  intros Hf. apply gains_ok_same_gains.
  - intros k'. by apply update_layer_proj.
  - apply update_layer_masterGain.
Qed.

Lemma bind_noise_gains_ok k t b s : gains_ok s -> gains_ok (snd (bind_noise k t b s)).
Proof.
  intros Hs. unfold bind_noise. cbn [new_node snd].
  match goal with
  | |- gains_ok (if _ then fadeIn _ ?x else _) => assert (Hx : gains_ok x)
  end.
  { repeat (apply update_playback_gains_ok; [done|]).
    revert Hs. apply gains_ok_frame; simp_state; done. }
  destruct (enableCrossfade _); [by apply fadeIn_gains_ok | done].
Qed.

Lemma bind_audio_gains_ok k st sn p s :
  gains_ok s -> gains_ok (snd (bind_audio k st sn p s)).
Proof.
  intros Hs. unfold bind_audio. cbn [new_Audio new_node snd].
  match goal with
  | |- gains_ok (if _ then fadeIn _ ?x else _) => assert (Hx : gains_ok x)
  end.
  { repeat (apply update_playback_gains_ok; [done|]).
    revert Hs. apply gains_ok_frame; simp_state; done. }
  destruct (enableCrossfade _); [by apply fadeIn_gains_ok | done].
Qed.

Lemma generateAndPlayNoise_gains_ok random k t s :
  gains_ok s -> gains_ok (final (generateAndPlayNoise random k t s)).
Proof.
  intros Hs. rewrite generateAndPlayNoise_phases.
  destruct (get_layer k s); [|done].
  destruct (audioContext s) as [ctx|]; [|done]. cbv zeta.
  pose proof (noise_cached_gains_ok random ctx t s Hs) as H1.
  set (s1 := noise_cached random ctx t s) in *.
  destruct (noiseGenerators s1 !! t) as [b|]; [|done].
  pose proof (bind_noise_gains_ok k t b s1 H1) as H2.
  destruct (bind_noise k t b s1) as [source s2]. cbn [snd final] in *.
  revert H2. apply gains_ok_frame; unfold start_node; simp_state; done.
Qed.

Lemma resume_gains_ok s : gains_ok s -> gains_ok (resume s).
Proof. apply gains_ok_frame; [apply resume_layers | apply resume_masterGain]. Qed.

Lemma loadAndPlayAudio_gains_ok random outcome k st sn s :
  gains_ok s -> gains_ok (final (loadAndPlayAudio random outcome k st sn s)).
Proof.
  intros Hs. rewrite loadAndPlayAudio_phases.
  pose proof (resume_gains_ok s Hs) as H0.
  destruct (get_layer k (resume s)); [|done]. cbv zeta.
  pose proof (stopLayer_gains_ok k (resume s) H0) as H1.
  set (s1 := stopLayer k (resume s)) in *.
  destruct (is_generated_noise st sn); [by apply generateAndPlayNoise_gains_ok|].
  destruct (library_path st sn) as [path|]; [|by apply fall_back_gains_ok].
  pose proof (bind_audio_gains_ok k st sn path s1 H1) as H2.
  destruct outcome; cbn [final].
  - by apply fall_back_gains_ok.
  - by apply fall_back_gains_ok.
  - destruct (bind_audio k st sn path s1) as [audio s2]. cbn [snd final] in *.
    match goal with |- gains_ok (log _ _ ?x) => assert (Hx : gains_ok x) end.
    { apply update_playback_gains_ok; [done|].
      revert H2. apply gains_ok_frame; unfold set_audio_playing; simp_state; done. }
    revert Hx. apply gains_ok_frame; simp_state; done.
Qed.

Lemma setLayerVolume_gains_ok k v s :
  unit_range v -> gains_ok s -> gains_ok (setLayerVolume k v s).
Proof.
  intros Hv Hs. unfold setLayerVolume.
  destruct (get_layer k s) as [layer|] eqn:Hk; [|done].
  destruct (proj2 Hs k layer Hk) as [Hg _].
  assert (H1 : gains_ok (update_layer k (with_volume v) s)).
  { apply gains_ok_update_layer; [done|]. intros l _ [Hgl _]. by split. }
  cbv zeta. destruct (isPlaying layer).
  - apply gains_ok_update_layer; [done|]. intros l _ [_ Hvl]. split; [|done]. cbn.
    apply linearRampToValueAtTime_ok; [done|].
    apply setValueAtTime_ok; [apply Hg|].
    by apply cancelScheduledValues_ok.
  - apply gains_ok_update_layer; [done|]. intros l _ [_ Hvl]. split; [|done]. cbn.
    by apply set_value_ok.
Qed.

Lemma set_masterGain_gains_ok g s :
  param_ok g -> gains_ok s -> gains_ok (set_masterGain (Some g) s).
Proof.
  intros Hg [Hm Hl]. split.
  - simp_state. by intros ? [= <-].
  - intros k l. unfold get_layer. simp_state. apply Hl.
Qed.

Lemma setMasterVolume_gains_ok v s :
  unit_range v -> gains_ok s -> gains_ok (setMasterVolume v s).
Proof.
  intros Hv Hs. unfold setMasterVolume.
  destruct (masterGain s) as [gain|] eqn:Hg; [|done].
  pose proof (proj1 Hs gain Hg) as Hm.
  apply set_masterGain_gains_ok; [|done].
  apply linearRampToValueAtTime_ok; [done|].
  apply setValueAtTime_ok; [apply Hm|].
  by apply cancelScheduledValues_ok.
Qed.

Lemma initialize_gains_ok created s :
  gains_ok s -> gains_ok (final (initialize created s)).
Proof.
  intros Hs. unfold initialize. repeat case_match; cbn [final].
  - done.
  - match goal with |- gains_ok (log _ _ (set_isInitialized _ ?x)) =>
      assert (Hx : gains_ok x) end.
    { apply set_masterGain_gains_ok.
      - apply set_value_ok; [unfold unit_range; lra | apply default_gain_ok].
      - revert Hs. apply gains_ok_frame; simp_state; done. }
    revert Hx. apply gains_ok_frame; simp_state; done.
  - revert Hs. apply gains_ok_frame; simp_state; done.
Qed.

Lemma createLayer_gains_ok k v s :
  unit_range v -> gains_ok s -> gains_ok (final (createLayer k v s)).
Proof.
  intros Hv Hs. unfold createLayer.
  destruct (negb (isInitialized s)); [done|].
  destruct (get_layer k s); cbn [final].
  - revert Hs. apply gains_ok_frame; simp_state; done.
  - destruct Hs as [Hm Hl]. split; [simp_state; done|].
    unfold get_layer. simp_state. intros k' l'.
    rewrite layers_get_set. case_match; [|apply Hl].
    intros [= <-]. split; [|done]. cbn.
    apply set_value_ok; [done | apply default_gain_ok].
Qed.

(** ** Iteration *)

Lemma fold_left_preserves {A S} (P : S -> Prop) (f : S -> A -> S) xs : forall s,
  P s -> (forall x s', P s' -> P (f s' x)) -> P (fold_left f xs s).
Proof.
  induction xs as [|x xs IH]; intros s Hs Hf; cbn; [done|].
  apply IH; [by apply Hf | done].
Qed.

Lemma forEach_layer_preserves (P : State -> Prop) f s :
  P s -> (forall k l s', P s' -> P (f k l s')) -> P (forEach_layer f s).
Proof.
  intros Hs Hf. unfold forEach_layer.
  apply fold_left_preserves; [done|].
  intros k s' Hs'. destruct (get_layer k s'); [by apply Hf | done].
Qed.

Lemma stopAll_gains_ok s : gains_ok s -> gains_ok (stopAll s).
Proof.
  intros Hs. unfold stopAll. apply forEach_layer_preserves; [done|].
  intros k l s' Hs'. destruct (isPlaying l); [by apply stopLayer_gains_ok | done].
Qed.

Lemma playAll_gains_ok random outcome s : gains_ok s -> gains_ok (playAll random outcome s).
Proof.
  intros Hs. unfold playAll. apply forEach_layer_preserves; [done|].
  intros k l s' Hs'. case_match; [by apply loadAndPlayAudio_gains_ok | done].
Qed.

Lemma updateConfig_gains_ok p s : gains_ok s -> gains_ok (updateConfig p s).
Proof.
  intros Hs. unfold updateConfig. cbv zeta.
  match goal with
  | |- context [set_config ?c s] => assert (Hc : gains_ok (set_config c s))
  end.
  { revert Hs. apply gains_ok_frame; simp_state; done. }
  destruct (patch_loopLayers p); [|done].
  apply forEach_layer_preserves; [done|].
  intros k l s' Hs'. destruct (audioElement l); [|done].
  revert Hs'. apply gains_ok_frame; simp_state; done.
Qed.

Lemma dispose_gains_ok s : gains_ok s -> gains_ok (dispose s).
Proof.
  intros Hs. unfold dispose. cbv zeta.
  pose proof (stopAll_gains_ok s Hs) as [Hm _].
  split.
  - simp_state. destruct (audioContext (stopAll s)); simp_state; done.
  - intros k l. unfold get_layer. simp_state. done.
Qed.

Lemma layers_get_map (f : Layer -> Layer) ls k :
  layers_get (map (fun kl => (fst kl, f (snd kl))) ls) k = f <$> layers_get ls k.
Proof.
  induction ls as [|[k0 l0] ls IH]; cbn; [done|].
  destruct (String.eqb k0 k); [done | apply IH].
Qed.

Lemma get_layer_render_all k s :
  get_layer k (render_all s) =
  (fun l => with_gainNode (render (now s) (gainNode l)) l) <$> get_layer k s.
Proof.
  unfold render_all, get_layer, set_layers, set_masterGain. cbn [layers now].
  apply (layers_get_map (fun l => with_gainNode (render (now s) (gainNode l)) l)).
Qed.

Lemma render_all_gains_ok s : gains_ok s -> gains_ok (render_all s).
Proof.
  intros [Hm Hl]. split.
  - unfold render_all. simp_state. intros g. destruct (masterGain s) as [g0|]; [|done].
    intros [= <-]. apply render_ok. by apply Hm.
  - intros k l. rewrite get_layer_render_all.
    destruct (get_layer k s) as [l0|] eqn:Hk; [|done].
    intros [= <-]. destruct (Hl k l0 Hk) as [Hg Hv].
    split; [|done]. by apply render_ok.
Qed.

Lemma advance_gains_ok dt s : gains_ok s -> gains_ok (advance dt s).
Proof.
  intros Hs. unfold advance. cbv zeta.
  apply render_all_gains_ok.
  match goal with |- gains_ok (set_now _ ?x) => assert (Hx : gains_ok x) end.
  { apply fold_left_preserves.
    - revert Hs. apply gains_ok_frame; simp_state; done.
    - intros tm s' Hs'. destruct (callback tm). by apply _stopLayerImmediately_gains_ok. }
  revert Hx. apply gains_ok_frame; simp_state; done.
Qed.

Lemma exec_gains_ok random c s :
  volume_arg_ok c -> gains_ok s -> gains_ok (exec random c s).
Proof.
  intros Hc Hs. destruct c; cbn [exec volume_arg_ok] in *.
  - by apply initialize_gains_ok.
  - by apply resume_gains_ok.
  - by apply createLayer_gains_ok.
  - by apply loadAndPlayAudio_gains_ok.
  - by apply generateAndPlayNoise_gains_ok.
  - by apply generateTone_gains_ok.
  - by apply stopLayer_gains_ok.
  - by apply stopAll_gains_ok.
  - by apply playAll_gains_ok.
  - by apply setLayerVolume_gains_ok.
  - by apply setMasterVolume_gains_ok.
  - by apply updateConfig_gains_ok.
  - by apply dispose_gains_ok.
  - by apply advance_gains_ok.
Qed.

Lemma new_AudioEngine_gains_ok : gains_ok new_AudioEngine.
Proof. split; [intros g [=] | intros k l [=]]. Qed.

(** C4 (as amended): the engine clamps nothing, it stores and schedules the
    values it is given. When every volume passed to [createLayer],
    [setLayerVolume] and [setMasterVolume] is in [[0, 1]], then after any
    sequence of commands on a fresh engine every layer's stored volume, the
    current value of every layer gain and of the master gain, and every value
    scheduled on them are in [[0, 1]]. *)
Theorem gains_stay_in_unit_range random cs :
  Forall volume_arg_ok cs -> gains_ok (run random cs new_AudioEngine).
Proof.
  intros Hcs. unfold run.
  generalize new_AudioEngine_gains_ok. generalize new_AudioEngine.
  induction Hcs as [|c cs Hc _ IH]; intros s Hs; cbn; [done|].
  apply IH. by apply exec_gains_ok.
Qed.

(** The invariant at work on a short session with volumes 0.6, 1 and 0. *)
Lemma gains_stay_in_unit_range_witness :
  let cs :=
    [ Initialize (Some (mkContext 44100 Running)); CreateLayer "nature" 0.6;
      Play PlayResolves "nature" "nature" "rain"; SetLayerVolume "nature" 1;
      SetMasterVolume 0; Advance 0.5; Stop "nature" ] in
  Forall volume_arg_ok cs /\ gains_ok (run (fun _ => 1 # 2) cs new_AudioEngine).
Proof.
  intros cs.
  assert (Hcs : Forall volume_arg_ok cs)
    by (repeat constructor; cbn; unfold unit_range; lra).
  split; [exact Hcs|].
  exact (gains_stay_in_unit_range (fun _ => 1 # 2) cs Hcs).
Defined.

(** C4 (as stated) fails: a layer created with volume 2 stores 2 and has its
    gain at 2, and a master volume of 1.5 is reached by the master gain. *)
Lemma volumes_are_not_clamped :
  let s :=
    run (fun _ => 1 # 2)
      [ Initialize (Some (mkContext 44100 Running)); CreateLayer "nature" 2;
        SetMasterVolume 1.5; Advance 1 ] new_AudioEngine in
  exists l g,
    get_layer "nature" s = Some l /\
    Qeq_bool (volume l) 2 = true /\
    Qeq_bool (current (gainNode l)) 2 = true /\
    masterGain s = Some g /\
    Qeq_bool (current g) 1.5 = true.
Proof.
  eexists _, _. split; [vm_compute; reflexivity|].
  split; [vm_compute; reflexivity|]. split; [vm_compute; reflexivity|].
  split; vm_compute; reflexivity.
Qed.

(** ** C7: the noise-buffer cache *)

Lemma cache_view_frame s s' :
  noiseGenerators s' = noiseGenerators s -> rng s' = rng s ->
  audioContext s' = audioContext s -> cache_view s' = cache_view s.
Proof. unfold cache_view. by intros -> -> ->. Qed.

Ltac cache_tac :=
  intros; apply cache_view_frame;
  unfold stopLayer, fadeOut, fadeIn, _stopLayerImmediately, generateTone, fall_back,
    bind_noise, bind_audio, setLayerVolume, setMasterVolume, createLayer, render_all;
  cbn [new_node new_Audio snd fst final];
  repeat case_match; simp_state; try done.

Lemma update_layer_cache_view k f s : cache_view (update_layer k f s) = cache_view s.
Proof. cache_tac. Qed.
Lemma _stopLayerImmediately_cache_view k s :
  cache_view (_stopLayerImmediately k s) = cache_view s.
Proof. cache_tac. Qed.
Lemma fadeIn_cache_view k s : cache_view (fadeIn k s) = cache_view s.
Proof. cache_tac. Qed.
Lemma fadeOut_cache_view k cb s : cache_view (fadeOut k cb s) = cache_view s.
Proof. cache_tac. Qed.
Lemma stopLayer_cache_view k s : cache_view (stopLayer k s) = cache_view s.
Proof.
  unfold stopLayer. repeat case_match; try done.
  - apply fadeOut_cache_view.
  - apply _stopLayerImmediately_cache_view.
Qed.
Lemma generateTone_cache_view k f s : cache_view (generateTone k f s) = cache_view s.
Proof. cache_tac. Qed.
Lemma fall_back_cache_view k m s : cache_view (fall_back k m s) = cache_view s.
Proof. unfold fall_back. by rewrite generateTone_cache_view. Qed.
Lemma bind_noise_cache_view k t b s :
  cache_view (snd (bind_noise k t b s)) = cache_view s.
Proof.
  unfold bind_noise. cbn [new_node snd].
  destruct (enableCrossfade _); rewrite ?fadeIn_cache_view, !update_layer_cache_view;
    apply cache_view_frame; simp_state; done.
Qed.
Lemma bind_audio_cache_view k st sn p s :
  cache_view (snd (bind_audio k st sn p s)) = cache_view s.
Proof.
  unfold bind_audio. cbn [new_Audio new_node snd].
  destruct (enableCrossfade _); rewrite ?fadeIn_cache_view, !update_layer_cache_view;
    apply cache_view_frame; simp_state; done.
Qed.
Lemma createLayer_cache_view k v s : cache_view (final (createLayer k v s)) = cache_view s.
Proof. cache_tac. Qed.
Lemma setLayerVolume_cache_view k v s : cache_view (setLayerVolume k v s) = cache_view s.
Proof. cache_tac. Qed.
Lemma setMasterVolume_cache_view v s : cache_view (setMasterVolume v s) = cache_view s.
Proof. cache_tac. Qed.
Lemma render_all_cache_view s : cache_view (render_all s) = cache_view s.
Proof. cache_tac. Qed.

Lemma stopAll_cache_view s : cache_view (stopAll s) = cache_view s.
Proof.
  unfold stopAll.
  apply (forEach_layer_preserves (fun s' => cache_view s' = cache_view s)); [done|].
  intros k l s' <-. destruct (isPlaying l); [apply stopLayer_cache_view | done].
Qed.

Lemma updateConfig_cache_view p s : cache_view (updateConfig p s) = cache_view s.
Proof.
  unfold updateConfig. cbv zeta.
  match goal with
  | |- context [set_config ?c s] =>
      assert (Hc : cache_view (set_config c s) = cache_view s)
        by (apply cache_view_frame; simp_state; done)
  end.
  destruct (patch_loopLayers p); [|done]. rewrite <- Hc.
  apply (forEach_layer_preserves (fun s' => cache_view s' = _)); [done|].
  intros k l s' <-. destruct (audioElement l); [|done].
  apply cache_view_frame; simp_state; done.
Qed.

Lemma advance_cache_view dt s : cache_view (advance dt s) = cache_view s.
Proof.
  unfold advance. cbv zeta. rewrite render_all_cache_view.
  match goal with
  | |- cache_view (set_now _ ?x) = _ => assert (Hx : cache_view x = cache_view s)
  end.
  { apply (fold_left_preserves (fun s' => cache_view s' = cache_view s)).
    - apply cache_view_frame; simp_state; done.
    - intros tm s' <-. destruct (callback tm). apply _stopLayerImmediately_cache_view. }
  rewrite <- Hx. apply cache_view_frame; simp_state; done.
Qed.

Lemma cache_view_entry s s' c :
  cache_view s' = cache_view s -> noiseGenerators s' !! c = noiseGenerators s !! c.
Proof. unfold cache_view. by intros [= -> _ _]. Qed.

(** When the buffer is cached, [noise_cached] does nothing. *)
Lemma noise_cached_hit random ctx t b s :
  noiseGenerators s !! t = Some b -> noise_cached random ctx t s = s.
Proof. intros H. unfold noise_cached. by rewrite H. Qed.

(** After [noise_cached] the buffer is there. *)
Lemma noise_cached_fills random ctx t s :
  is_Some (noiseGenerators (noise_cached random ctx t s) !! t).
Proof.
  unfold noise_cached. destruct (noiseGenerators s !! t) eqn:H; [by rewrite H|].
  cbn [createNoiseBuffer]. simp_state. rewrite lookup_insert_eq. done.
Qed.

(** [noise_cached] never replaces or drops an entry. *)
Lemma noise_cached_keeps random ctx t s c b :
  noiseGenerators s !! c = Some b ->
  noiseGenerators (noise_cached random ctx t s) !! c = Some b.
Proof.
  intros Hc. unfold noise_cached. destruct (noiseGenerators s !! t) eqn:Ht; [done|].
  cbn [createNoiseBuffer]. simp_state.
  rewrite lookup_insert_ne; [done | congruence].
Qed.

Lemma noise_cached_audioContext random ctx t s :
  audioContext (noise_cached random ctx t s) = audioContext s.
Proof.
  unfold noise_cached. destruct (noiseGenerators s !! t); [done|].
  cbn [createNoiseBuffer]. simp_state. done.
Qed.

Lemma bind_noise_binds k t b s :
  is_Some (get_layer k s) ->
  fst (bind_noise k t b s) = next_id s /\
  sourceNode <$> get_layer k (snd (bind_noise k t b s)) = Some (Some (next_id s)) /\
  nodes (snd (bind_noise k t b s)) !! next_id s
    = Some (mkNode (BufferSource b true) Unscheduled k).
Proof.
  intros [l Hl]. unfold bind_noise. cbn [new_node fst snd].
  split; [done|].
  match goal with
  | |- context [if _ then fadeIn _ ?x else _] =>
      assert (Hx : sourceNode <$> get_layer k x = Some (Some (next_id s)) /\
                   nodes x !! next_id s
                     = Some (mkNode (BufferSource b true) Unscheduled k))
  end.
  { split.
    - unfold get_layer in *. simp_state. rewrite Hl. done.
    - simp_state. apply lookup_insert_eq. }
  destruct (enableCrossfade _); [|done].
  rewrite fadeIn_proj by done. by rewrite fadeIn_nodes.
Qed.

Lemma generateAndPlayNoise_keeps random k t s c b :
  noiseGenerators s !! c = Some b ->
  noiseGenerators (final (generateAndPlayNoise random k t s)) !! c = Some b.
Proof.
  intros Hc. rewrite generateAndPlayNoise_phases.
  destruct (get_layer k s); [|done].
  destruct (audioContext s) as [ctx|]; [|done]. cbv zeta.
  pose proof (noise_cached_keeps random ctx t s c b Hc) as H1.
  set (s1 := noise_cached random ctx t s) in *.
  destruct (noiseGenerators s1 !! t) as [b'|]; [|done].
  pose proof (bind_noise_cache_view k t b' s1) as H2.
  destruct (bind_noise k t b' s1) as [source s2]. cbn [snd final] in *.
  rewrite <- H1, <- (cache_view_entry s1 s2 c H2).
  unfold start_node. simp_state. done.
Qed.

Lemma generateAndPlayNoise_audioContext random k t s :
  audioContext (final (generateAndPlayNoise random k t s)) = audioContext s.
Proof.
  rewrite generateAndPlayNoise_phases.
  destruct (get_layer k s); [|done].
  destruct (audioContext s) as [ctx|] eqn:Hctx; [|done]. cbv zeta.
  pose proof (noise_cached_audioContext random ctx t s) as H1.
  set (s1 := noise_cached random ctx t s) in *.
  destruct (noiseGenerators s1 !! t) as [b'|]; [|cbn [final]; by rewrite H1].
  pose proof (bind_noise_cache_view k t b' s1) as H2.
  destruct (bind_noise k t b' s1) as [source s2]. cbn [snd final] in *.
  injection H2 as _ _ H2. rewrite <- Hctx, <- H1, <- H2.
  unfold start_node. simp_state. done.
Qed.

Lemma generateAndPlayNoise_fills random k t s :
  is_Some (get_layer k s) -> is_Some (audioContext s) ->
  is_Some (noiseGenerators (final (generateAndPlayNoise random k t s)) !! t).
Proof.
  intros [l Hl] [ctx Hctx]. rewrite generateAndPlayNoise_phases, Hl, Hctx. cbv zeta.
  pose proof (noise_cached_fills random ctx t s) as [b Hb]. rewrite Hb.
  pose proof (bind_noise_cache_view k t b (noise_cached random ctx t s)) as H2.
  destruct (bind_noise k t b _) as [source s2]. cbn [snd final] in *.
  apply (cache_view_entry _ _ t) in H2.
  unfold start_node. simp_state. rewrite H2, Hb. done.
Qed.

(** A request for a cached noise type neither touches the cache nor draws
    random numbers, and binds a source playing the cached buffer. *)
Lemma generateAndPlayNoise_hit random k t s b :
  noiseGenerators s !! t = Some b ->
  let s' := final (generateAndPlayNoise random k t s) in
  cache_view s' = cache_view s /\
  (is_Some (get_layer k s) -> is_Some (audioContext s) ->
   exists l n,
     get_layer k s' = Some l /\ sourceNode l = Some n /\
     nodes s' !! n = Some (mkNode (BufferSource b true) Started k)).
Proof.
  intros Hb. rewrite generateAndPlayNoise_phases.
  destruct (get_layer k s) as [l|] eqn:Hl; [|split; [done | by intros []]].
  destruct (audioContext s) as [ctx|] eqn:Hctx; [|split; [done | by intros _ []]].
  cbv zeta. rewrite (noise_cached_hit random ctx t b s Hb), Hb.
  pose proof (bind_noise_cache_view k t b s) as H2.
  destruct (bind_noise_binds k t b s (mk_is_Some _ _ Hl)) as (Hsrc & Hlay & Hnode).
  destruct (bind_noise k t b s) as [source s2]. cbn [fst snd final] in *. subst source.
  split.
  - rewrite <- H2. apply cache_view_frame; unfold start_node; simp_state; done.
  - intros _ _. unfold get_layer in *. simp_state.
    destruct (layers_get (layers s2) k) as [l2|]; [|done].
    exists l2, (next_id s). split; [done|]. split; [by injection Hlay|].
    unfold start_node. simp_state. rewrite lookup_alter_eq, Hnode. done.
Qed.

Lemma resume_audioContext_Some s :
  is_Some (audioContext s) -> is_Some (audioContext (resume s)).
Proof. unfold resume. repeat case_match; simp_state; done. Qed.

Lemma loadAndPlayAudio_keeps random outcome k st sn s c b :
  noiseGenerators s !! c = Some b ->
  noiseGenerators (final (loadAndPlayAudio random outcome k st sn s)) !! c = Some b.
Proof.
  intros Hc. rewrite loadAndPlayAudio_phases.
  assert (H0 : noiseGenerators (resume s) !! c = Some b)
    by (by rewrite resume_noiseGenerators).
  destruct (get_layer k (resume s)); [|done]. cbv zeta.
  assert (H1 : noiseGenerators (stopLayer k (resume s)) !! c = Some b)
    by (by rewrite stopLayer_noiseGenerators).
  set (s1 := stopLayer k (resume s)) in *.
  destruct (is_generated_noise st sn); [by apply generateAndPlayNoise_keeps|].
  destruct (library_path st sn) as [path|];
    [|cbn [final]; by rewrite fall_back_noiseGenerators].
  destruct outcome; cbn [final].
  - by rewrite fall_back_noiseGenerators.
  - by rewrite fall_back_noiseGenerators, bind_audio_noiseGenerators.
  - pose proof (bind_audio_noiseGenerators k st sn path s1) as H2.
    destruct (bind_audio k st sn path s1) as [audio s2]. cbn [snd final] in *.
    unfold set_audio_playing. simp_state. by rewrite H2.
Qed.

Lemma loadAndPlayAudio_audioContext_Some random outcome k st sn s :
  is_Some (audioContext s) ->
  is_Some (audioContext (final (loadAndPlayAudio random outcome k st sn s))).
Proof.
  intros Hc%resume_audioContext_Some. rewrite loadAndPlayAudio_phases.
  destruct (get_layer k (resume s)); [|done]. cbv zeta.
  assert (H1 : is_Some (audioContext (stopLayer k (resume s))))
    by (by rewrite stopLayer_audioContext).
  set (s1 := stopLayer k (resume s)) in *.
  destruct (is_generated_noise st sn); [by rewrite generateAndPlayNoise_audioContext|].
  assert (Hfb : forall m s', cache_view s' = cache_view s1 ->
                  is_Some (audioContext (fall_back k m s'))).
  { intros m s' Hs'. pose proof (fall_back_cache_view k m s') as Hf.
    rewrite Hs' in Hf. injection Hf as _ _ ->. done. }
  destruct (library_path st sn) as [path|]; [|by apply Hfb].
  pose proof (bind_audio_cache_view k st sn path s1) as H2.
  destruct outcome; cbn [final].
  - by apply Hfb.
  - by apply Hfb.
  - destruct (bind_audio k st sn path s1) as [audio s2]. cbn [snd final] in *.
    injection H2 as _ _ H2. unfold set_audio_playing. simp_state. by rewrite H2.
Qed.

Lemma initialize_noiseGenerators created s :
  noiseGenerators (final (initialize created s)) = noiseGenerators s.
Proof. unfold initialize. repeat case_match; cbn [final]; simp_state; done. Qed.

Lemma initialize_audioContext_Some created s :
  is_Some (audioContext s) -> is_Some (audioContext (final (initialize created s))).
Proof. unfold initialize. repeat case_match; cbn [final]; simp_state; done. Qed.

Lemma dispose_audioContext_Some s :
  is_Some (audioContext s) -> is_Some (audioContext (dispose s)).
Proof.
  intros Hs. unfold dispose. cbv zeta.
  pose proof (stopAll_cache_view s) as [= _ _ Hc]. rewrite <- Hc in Hs.
  simp_state. destruct (audioContext (stopAll s)); simp_state; done.
Qed.

Lemma playAll_keeps random outcome s c b :
  noiseGenerators s !! c = Some b ->
  noiseGenerators (playAll random outcome s) !! c = Some b.
Proof.
  intros Hs. unfold playAll.
  apply (forEach_layer_preserves (fun s' => noiseGenerators s' !! c = Some b)); [done|].
  intros k l s' Hs'. case_match; [by apply loadAndPlayAudio_keeps | done].
Qed.

Lemma playAll_audioContext_Some random outcome s :
  is_Some (audioContext s) -> is_Some (audioContext (playAll random outcome s)).
Proof.
  intros Hs. unfold playAll.
  apply (forEach_layer_preserves (fun s' => is_Some (audioContext s'))); [done|].
  intros k l s' Hs'. case_match; [by apply loadAndPlayAudio_audioContext_Some | done].
Qed.

(** Every command but [dispose] keeps the cached buffers. *)
Lemma exec_keeps random cmd s c b :
  is_dispose cmd = false ->
  noiseGenerators s !! c = Some b ->
  noiseGenerators (exec random cmd s) !! c = Some b.
Proof.
  intros Hd Hs. destruct cmd; cbn [exec]; try done.
  - by rewrite initialize_noiseGenerators.
  - by rewrite resume_noiseGenerators.
  - by rewrite (cache_view_entry _ _ c (createLayer_cache_view _ _ _)).
  - by apply loadAndPlayAudio_keeps.
  - by apply generateAndPlayNoise_keeps.
  - by rewrite (cache_view_entry _ _ c (generateTone_cache_view _ _ _)).
  - by rewrite (cache_view_entry _ _ c (stopLayer_cache_view _ _)).
  - by rewrite (cache_view_entry _ _ c (stopAll_cache_view _)).
  - by apply playAll_keeps.
  - by rewrite (cache_view_entry _ _ c (setLayerVolume_cache_view _ _ _)).
  - by rewrite (cache_view_entry _ _ c (setMasterVolume_cache_view _ _)).
  - by rewrite (cache_view_entry _ _ c (updateConfig_cache_view _ _)).
  - by rewrite (cache_view_entry _ _ c (advance_cache_view _ _)).
Qed.

Lemma cache_view_audioContext_Some s s' :
  cache_view s' = cache_view s -> is_Some (audioContext s) -> is_Some (audioContext s').
Proof. by intros [= _ _ ->]. Qed.

Lemma exec_audioContext_Some random cmd s :
  is_Some (audioContext s) -> is_Some (audioContext (exec random cmd s)).
Proof.
  intros Hs. destruct cmd; cbn [exec].
  - by apply initialize_audioContext_Some.
  - by apply resume_audioContext_Some.
  - apply (cache_view_audioContext_Some s); [apply createLayer_cache_view | done].
  - by apply loadAndPlayAudio_audioContext_Some.
  - by rewrite generateAndPlayNoise_audioContext.
  - apply (cache_view_audioContext_Some s); [apply generateTone_cache_view | done].
  - apply (cache_view_audioContext_Some s); [apply stopLayer_cache_view | done].
  - apply (cache_view_audioContext_Some s); [apply stopAll_cache_view | done].
  - by apply playAll_audioContext_Some.
  - apply (cache_view_audioContext_Some s); [apply setLayerVolume_cache_view | done].
  - apply (cache_view_audioContext_Some s); [apply setMasterVolume_cache_view | done].
  - apply (cache_view_audioContext_Some s); [apply updateConfig_cache_view | done].
  - by apply dispose_audioContext_Some.
  - apply (cache_view_audioContext_Some s); [apply advance_cache_view | done].
Qed.

Lemma run_keeps random cs : forall s c b,
  forallb (fun cmd => negb (is_dispose cmd)) cs = true ->
  noiseGenerators s !! c = Some b ->
  noiseGenerators (run random cs s) !! c = Some b.
Proof.
  induction cs as [|cmd cs IH]; intros s c b Hcs Hs; [done|].
  cbn in Hcs. apply andb_prop in Hcs as [Hd Hcs].
  apply (IH (exec random cmd s)); [done|].
  apply exec_keeps; [by destruct (is_dispose cmd) | done].
Qed.

Lemma run_audioContext_Some random cs : forall s,
  is_Some (audioContext s) -> is_Some (audioContext (run random cs s)).
Proof.
  induction cs as [|cmd cs IH]; intros s Hs; [done|].
  apply (IH (exec random cmd s)). by apply exec_audioContext_Some.
Qed.

(** The first request for a generated noise fills the cache. *)
Lemma loadAndPlayAudio_noise_fills random outcome k color s :
  is_generated_noise "noise" color = true ->
  is_Some (get_layer k s) -> is_Some (audioContext s) ->
  is_Some (noiseGenerators
             (final (loadAndPlayAudio random outcome k "noise" color s)) !! color).
Proof.
  intros Hn Hl Hc%resume_audioContext_Some. rewrite loadAndPlayAudio_phases, Hn.
  assert (Hl0 : is_Some (get_layer k (resume s)))
    by (unfold get_layer in *; by rewrite resume_layers).
  destruct Hl0 as [l0 Hl0]. rewrite Hl0. cbv zeta.
  apply generateAndPlayNoise_fills.
  - by apply stopLayer_exists.
  - by rewrite stopLayer_audioContext.
Qed.

(** A later request for a cached noise leaves the cache and the random
    stream alone and plays the cached buffer. *)
Lemma loadAndPlayAudio_noise_hit random outcome k color s b :
  is_generated_noise "noise" color = true ->
  noiseGenerators s !! color = Some b ->
  let s' := final (loadAndPlayAudio random outcome k "noise" color s) in
  noiseGenerators s' = noiseGenerators s /\ rng s' = rng s /\
  (is_Some (get_layer k s) -> is_Some (audioContext s) ->
   exists l n,
     get_layer k s' = Some l /\ sourceNode l = Some n /\
     nodes s' !! n = Some (mkNode (BufferSource b true) Started k)).
Proof.
  intros Hn Hb. rewrite loadAndPlayAudio_phases, Hn.
  destruct (get_layer k (resume s)) as [l0|] eqn:Hl0.
  - cbv zeta.
    assert (Hb1 : noiseGenerators (stopLayer k (resume s)) !! color = Some b)
      by (by rewrite stopLayer_noiseGenerators, resume_noiseGenerators).
    destruct (generateAndPlayNoise_hit random k color _ b Hb1) as [Hv Hbind].
    injection Hv as Hg Hr _.
    rewrite stopLayer_noiseGenerators, resume_noiseGenerators in Hg.
    rewrite stopLayer_rng, resume_rng in Hr.
    split; [done|]. split; [done|]. intros _ Hc. apply Hbind.
    + apply stopLayer_exists. by rewrite Hl0.
    + rewrite stopLayer_audioContext. by apply resume_audioContext_Some.
  - cbn [final]. rewrite resume_noiseGenerators, resume_rng.
    split; [done|]. split; [done|]. intros Hl.
    unfold get_layer in *. rewrite resume_layers in Hl0. rewrite Hl0 in Hl.
    by destruct Hl.
Qed.

(** ** A layer is only ever found next to an audio context *)

Lemma blank_get_layer k s : blank s -> get_layer k s = None.
Proof. intros [_ Hl]. unfold get_layer. by rewrite Hl. Qed.

Lemma blank_frame s s' :
  isInitialized s' = isInitialized s -> layers s' = layers s -> blank s -> blank s'.
Proof. unfold blank. by intros -> ->. Qed.

Lemma blank_forEach_layer f s : blank s -> forEach_layer f s = s.
Proof. intros [_ Hl]. unfold forEach_layer. by rewrite Hl. Qed.

Lemma blank_resume s : blank s -> blank (resume s).
Proof.
  apply blank_frame; [|apply resume_layers].
  unfold resume. repeat case_match; simp_state; done.
Qed.

Lemma exec_blank_or_context random c s :
  blank s -> is_Some (audioContext (exec random c s)) \/ blank (exec random c s).
Proof.
  intros Hb. pose proof Hb as [Hi Hl].
  destruct c; cbn [exec].
  - unfold initialize. rewrite Hi. destruct created; cbn [final].
    + left. simp_state. done.
    + right. revert Hb. apply blank_frame; simp_state; done.
  - right. by apply blank_resume.
  - right. unfold createLayer. by rewrite Hi.
  - right. unfold loadAndPlayAudio. cbv zeta.
    rewrite (blank_get_layer _ _ (blank_resume s Hb)). by apply blank_resume.
  - right. unfold generateAndPlayNoise. by rewrite blank_get_layer.
  - right. unfold generateTone. by rewrite blank_get_layer.
  - right. unfold stopLayer. by rewrite blank_get_layer.
  - right. unfold stopAll. by rewrite blank_forEach_layer.
  - right. unfold playAll. by rewrite blank_forEach_layer.
  - right. unfold setLayerVolume. by rewrite blank_get_layer.
  - right. unfold setMasterVolume. destruct (masterGain s); [|done].
    revert Hb. apply blank_frame; simp_state; done.
  - right. unfold updateConfig. cbv zeta.
    match goal with
    | |- context [set_config ?c s] => assert (Hc : blank (set_config c s))
        by (revert Hb; apply blank_frame; simp_state; done)
    end.
    destruct (patch_loopLayers p); [|done]. by rewrite blank_forEach_layer.
  - right. unfold dispose. cbv zeta. split; simp_state; done.
  - right. unfold advance. cbv zeta.
    match goal with
    | |- blank (render_all (set_now _ ?x)) => assert (Hx : blank x)
    end.
    { apply fold_left_preserves.
      - revert Hb. apply blank_frame; simp_state; done.
      - intros tm s' Hs'. destruct (callback tm). cbn [run_callback].
        unfold _stopLayerImmediately. by rewrite blank_get_layer. }
    destruct Hx as [Hxi Hxl]. unfold render_all. split; simp_state; [done|].
    by rewrite Hxl.
Qed.

Lemma run_blank_or_context random cs : forall s,
  is_Some (audioContext s) \/ blank s ->
  is_Some (audioContext (run random cs s)) \/ blank (run random cs s).
Proof.
  induction cs as [|c cs IH]; intros s Hs; [done|].
  apply (IH (exec random c s)). destruct Hs as [Hs|Hs].
  - left. by apply exec_audioContext_Some.
  - by apply exec_blank_or_context.
Qed.

(** In every state a fresh engine can reach, a layer that exists comes with
    an audio context. *)
Lemma layer_has_context random cs k :
  let s := run random cs new_AudioEngine in
  is_Some (get_layer k s) -> is_Some (audioContext s).
Proof.
  intros s Hk.
  destruct (run_blank_or_context random cs new_AudioEngine) as [H|H].
  - right. by split.
  - done.
  - fold s in H. rewrite (blank_get_layer k s H) in Hk. by destruct Hk.
Qed.

(** C7: once a generated noise color has been requested on an existing
    layer, its buffer is in the cache; it stays there, unchanged, through any
    commands short of [dispose]; and a later request for the same color
    leaves the cache as it is, consumes no random draw (the generation loop
    does not run) and plays the cached buffer. *)
Theorem noise_buffer_generated_once random history o1 o2 k1 k2 color cs :
  let s := run random history new_AudioEngine in
  is_generated_noise "noise" color = true ->
  is_Some (get_layer k1 s) ->
  forallb (fun cmd => negb (is_dispose cmd)) cs = true ->
  let s1 := final (loadAndPlayAudio random o1 k1 "noise" color s) in
  let s2 := run random cs s1 in
  let s3 := final (loadAndPlayAudio random o2 k2 "noise" color s2) in
  exists buffer,
    noiseGenerators s1 !! color = Some buffer /\
    noiseGenerators s2 !! color = Some buffer /\
    noiseGenerators s3 = noiseGenerators s2 /\
    rng s3 = rng s2 /\
    (is_Some (get_layer k2 s2) ->
     exists l n,
       get_layer k2 s3 = Some l /\ sourceNode l = Some n /\
       nodes s3 !! n = Some (mkNode (BufferSource buffer true) Started k2)).
Proof.
  intros s Hn Hl Hcs s1 s2 s3.
  pose proof (layer_has_context random history k1 Hl) as Hc. fold s in Hc.
  destruct (loadAndPlayAudio_noise_fills random o1 k1 color s Hn Hl Hc) as [b Hb].
  fold s1 in Hb. exists b. split; [done|].
  pose proof (run_keeps random cs s1 color b Hcs Hb) as Hb2. fold s2 in Hb2.
  split; [done|].
  destruct (loadAndPlayAudio_noise_hit random o2 k2 color s2 b Hn Hb2)
    as (Hg & Hr & Hbind).
  split; [done|]. split; [done|]. intros Hl2. apply Hbind; [done|].
  apply run_audioContext_Some. by apply loadAndPlayAudio_audioContext_Some.
Qed.

(** The cache at work: white noise is requested, stopped and requested again. *)
Lemma noise_buffer_generated_once_witness :
  let random := fun _ : nat => 1 # 2 in
  let history :=
    [ Initialize (Some (mkContext 44100 Running)); CreateLayer "noise" 0.4 ] in
  let s := run random history new_AudioEngine in
  let cs := [ Advance 1; Stop "noise"; Advance 2 ] in
  let s1 := final (loadAndPlayAudio random PlayResolves "noise" "noise" "white" s) in
  let s2 := run random cs s1 in
  let s3 := final (loadAndPlayAudio random PlayResolves "noise" "noise" "white" s2) in
  is_generated_noise "noise" "white" = true /\
  is_Some (get_layer "noise" s) /\
  forallb (fun cmd => negb (is_dispose cmd)) cs = true /\
  exists buffer,
    noiseGenerators s1 !! "white" = Some buffer /\
    noiseGenerators s2 !! "white" = Some buffer /\
    noiseGenerators s3 = noiseGenerators s2 /\
    rng s3 = rng s2 /\
    (is_Some (get_layer "noise" s2) ->
     exists l n,
       get_layer "noise" s3 = Some l /\ sourceNode l = Some n /\
       nodes s3 !! n = Some (mkNode (BufferSource buffer true) Started "noise")).
Proof.
  intros random history s cs s1 s2 s3.
  assert (H1 : is_generated_noise "noise" "white" = true) by reflexivity.
  assert (H2 : is_Some (get_layer "noise" s)) by (vm_compute; eauto).
  assert (H4 : forallb (fun cmd => negb (is_dispose cmd)) cs = true) by reflexivity.
  split; [exact H1|]. split; [exact H2|]. split; [exact H4|].
  exact (noise_buffer_generated_once random history PlayResolves PlayResolves
           "noise" "noise" "white" cs H1 H2 H4).
Defined.

(** ** Commands on one layer leave the other layers alone *)

Ltac local_tac :=
  intros;
  unfold stopLayer, fadeOut, fadeIn, _stopLayerImmediately, generateTone, fall_back,
    bind_noise, bind_audio, setLayerVolume;
  cbn [new_node new_Audio snd fst final];
  unfold get_layer in *;
  repeat case_match;
  repeat (first [rewrite layers_update_other by done | progress simp_state]);
  try done.

Lemma _stopLayerImmediately_local k s k' :
  k <> k' -> get_layer k' (_stopLayerImmediately k s) = get_layer k' s.
Proof. local_tac. Qed.

Lemma fadeIn_local k s k' : k <> k' -> get_layer k' (fadeIn k s) = get_layer k' s.
Proof. local_tac. Qed.

Lemma fadeOut_local k cb s k' :
  k <> k' -> get_layer k' (fadeOut k cb s) = get_layer k' s.
Proof. local_tac. Qed.

Lemma stopLayer_local k s k' : k <> k' -> get_layer k' (stopLayer k s) = get_layer k' s.
Proof.
  intros. unfold stopLayer. repeat case_match; try done.
  - by apply fadeOut_local.
  - by apply _stopLayerImmediately_local.
Qed.

Lemma generateTone_local k f s k' :
  k <> k' -> get_layer k' (generateTone k f s) = get_layer k' s.
Proof. local_tac. Qed.

Lemma fall_back_local k m s k' :
  k <> k' -> get_layer k' (fall_back k m s) = get_layer k' s.
Proof. intros. unfold fall_back. by rewrite generateTone_local. Qed.

Lemma bind_noise_local k t b s k' :
  k <> k' -> get_layer k' (snd (bind_noise k t b s)) = get_layer k' s.
Proof.
  intros. unfold bind_noise. cbn [new_node snd].
  destruct (enableCrossfade _); rewrite ?fadeIn_local by done;
    unfold get_layer;
    repeat (first [rewrite layers_update_other by done | progress simp_state]);
    done.
Qed.

Lemma bind_audio_local k st sn p s k' :
  k <> k' -> get_layer k' (snd (bind_audio k st sn p s)) = get_layer k' s.
Proof.
  intros. unfold bind_audio. cbn [new_Audio new_node snd].
  destruct (enableCrossfade _); rewrite ?fadeIn_local by done;
    unfold get_layer;
    repeat (first [rewrite layers_update_other by done | progress simp_state]);
    done.
Qed.

(** ** C2: a remembered sound always belongs to a playing layer *)

































(** C2 fails on the code: two layers play remembered sounds at volumes 0.3
    and 0.4; after [stopAll] and the teardowns (no timer is left), their
    sound references are gone, and [playAll] changes nothing: no layer is
    played again. *)
Theorem playAll_after_stopAll_restores_nothing :
  let random := fun _ : nat => 1 # 2 in
  let playing :=
    run random
      [ Initialize (Some (mkContext 44100 Running));
        CreateLayer "nature" 0.3; CreateLayer "music" 0.4;
        Play PlayResolves "nature" "nature" "rain";
        Play PlayResolves "music" "music" "piano"; Advance 2 ] new_AudioEngine in
  let stopped := run random [StopAll; Advance 1] playing in
  let resumed := playAll random (fun _ => PlayResolves) stopped in
  map (fun kl => (fst kl, currentSound (snd kl), isPlaying (snd kl))) (layers playing)
    = [("nature", Some "nature/rain", true); ("music", Some "music/piano", true)]%string /\
  timers stopped = [] /\
  resumed = stopped /\
  map (fun kl => (fst kl, currentSound (snd kl), isPlaying (snd kl))) (layers resumed)
    = [("nature", None, false); ("music", None, false)]%string.
Proof. split; [|split; [|split]]; vm_compute; reflexivity. Qed.

(** ** C1: what a later command cancels *)

(** The automation events of a gain are cancelled by every later fade or
    volume ramp: nothing scheduled at or after the cancel time is left. *)
Lemma cancelScheduledValues_clears t p :
  Forall (fun e => Qle_bool t (ev_time e) = false) (events (cancelScheduledValues t p)).
Proof.
  unfold cancelScheduledValues. cbn [events].
  induction (events p) as [|e evs IH]; [constructor|].
  cbn [List.filter]. destruct (Qle_bool t (ev_time e)) eqn:He; cbn [negb].
  - exact IH.
  - by constructor.
Qed.

#[local] Hint Resolve incl_refl : core.

Lemma insert_timer_In tm tm' tms : In tm tms -> In tm (insert_timer tm' tms).
Proof.
  induction tms as [|t0 tms IH]; cbn; [done|].
  destruct (Qle_bool (due t0) (due tm')); cbn; [|tauto].
  intros [->|H]; [by left | right; by apply IH].
Qed.

Lemma fadeOut_keeps_timers k cb s : incl (timers s) (timers (fadeOut k cb s)).
Proof.
  unfold fadeOut. destruct (get_layer k s); [|done]. cbv zeta.
  destruct cb; [|by rewrite update_layer_timers].
  intros tm Htm. unfold setTimeout. simp_state. by apply insert_timer_In.
Qed.

Lemma stopLayer_keeps_timers k s : incl (timers s) (timers (stopLayer k s)).
Proof.
  unfold stopLayer. repeat case_match; try done.
  - apply fadeOut_keeps_timers.
  - by rewrite _stopLayerImmediately_timers.
Qed.

Lemma generateAndPlayNoise_timers random k t s :
  timers (final (generateAndPlayNoise random k t s)) = timers s.
Proof.
  rewrite generateAndPlayNoise_phases.
  destruct (get_layer k s); [|done].
  destruct (audioContext s) as [ctx|]; [|done]. cbv zeta.
  pose proof (noise_cached_timers random ctx t s) as H1.
  set (s1 := noise_cached random ctx t s) in *.
  destruct (noiseGenerators s1 !! t) as [b|]; [|done].
  pose proof (bind_noise_timers k t b s1) as H2.
  destruct (bind_noise k t b s1) as [source s2]. cbn [snd final] in *.
  unfold start_node. simp_state. congruence.
Qed.

Lemma loadAndPlayAudio_keeps_timers random outcome k st sn s :
  incl (timers s) (timers (final (loadAndPlayAudio random outcome k st sn s))).
Proof.
  rewrite loadAndPlayAudio_phases.
  destruct (get_layer k (resume s));
    [|cbn [final]; by rewrite resume_timers].
  cbv zeta.
  assert (H1 : incl (timers s) (timers (stopLayer k (resume s)))).
  { rewrite <- (resume_timers s) at 1. apply stopLayer_keeps_timers. }
  set (s1 := stopLayer k (resume s)) in *.
  destruct (is_generated_noise st sn); [by rewrite generateAndPlayNoise_timers|].
  destruct (library_path st sn) as [path|];
    [|cbn [final]; by rewrite fall_back_timers].
  destruct outcome; cbn [final].
  - by rewrite fall_back_timers.
  - by rewrite fall_back_timers, bind_audio_timers.
  - pose proof (bind_audio_timers k st sn path s1) as H2.
    destruct (bind_audio k st sn path s1) as [audio s2]. cbn [snd final] in *.
    unfold set_audio_playing. simp_state. by rewrite H2.
Qed.

Lemma stopAll_keeps_timers s : incl (timers s) (timers (stopAll s)).
Proof.
  unfold stopAll.
  apply (forEach_layer_preserves (fun s' => incl (timers s) (timers s'))); [done|].
  intros k l s' Hs'. destruct (isPlaying l); [|done].
  eapply incl_tran; [done | apply stopLayer_keeps_timers].
Qed.

Lemma playAll_keeps_timers random outcome s :
  incl (timers s) (timers (playAll random outcome s)).
Proof.
  unfold playAll.
  apply (forEach_layer_preserves (fun s' => incl (timers s) (timers s'))); [done|].
  intros k l s' Hs'. case_match; [|done].
  eapply incl_tran; [done | apply loadAndPlayAudio_keeps_timers].
Qed.

Lemma updateConfig_timers p s : timers (updateConfig p s) = timers s.
Proof.
  unfold updateConfig. cbv zeta. destruct (patch_loopLayers p); [|by simp_state].
  match goal with
  | |- timers (forEach_layer _ ?x) = _ =>
      apply (forEach_layer_preserves (fun s' => timers s' = timers s))
  end; [by simp_state|].
  intros k l s' <-. destruct (audioElement l); [|done]. by simp_state.
Qed.

(** X25: No command cancels a timer: whatever is pending stays pending until
    time passes. *)
Lemma exec_keeps_timers random c s :
  is_advance c = false -> incl (timers s) (timers (exec random c s)).
Proof.
  intros Hc. destruct c; cbn [exec]; try done.
  - unfold initialize. repeat case_match; cbn [final]; simp_state; done.
  - by rewrite resume_timers.
  - unfold createLayer. repeat case_match; cbn [final]; simp_state; done.
  - apply loadAndPlayAudio_keeps_timers.
  - by rewrite generateAndPlayNoise_timers.
  - by rewrite generateTone_timers.
  - apply stopLayer_keeps_timers.
  - apply stopAll_keeps_timers.
  - apply playAll_keeps_timers.
  - unfold setLayerVolume. repeat case_match; simp_state; done.
  - unfold setMasterVolume. repeat case_match; simp_state; done.
  - by rewrite updateConfig_timers.
  - unfold dispose. cbv zeta.
    destruct (audioContext (stopAll s)); simp_state; apply stopAll_keeps_timers.
Qed.

(** C1 fails on the code: a layer playing rain is stopped at time 2 (the
    fade-out schedules its teardown for time 3); at time 2.5 a new sound is
    started on it. Right after that command the layer plays the new sound,
    yet the teardown of the earlier fade-out is still pending, and when it
    fires at time 3 it stops the new sound: the layer is left not playing,
    with no current sound and its media element paused. *)
Theorem stale_teardown_stops_later_playback :
  let random := fun _ : nat => 1 # 2 in
  let s1 :=
    run random
      [ Initialize (Some (mkContext 44100 Running)); CreateLayer "nature" 0.6;
        Play PlayResolves "nature" "nature" "rain"; Advance 2;
        Stop "nature"; Advance 0.5;
        Play PlayResolves "nature" "nature" "forest" ] new_AudioEngine in
  let s2 := exec random (Advance 0.5) s1 in
  (exists l a, get_layer "nature" s1 = Some l /\
               isPlaying l = true /\
               currentSound l = Some "nature/forest"%string /\
               audioElement l = Some a /\
               paused <$> audios s1 !! a = Some false /\
               paused <$> audios s2 !! a = Some true) /\
  map callback (timers s1)
    = [StopLayerImmediately "nature"; StopLayerImmediately "nature"] /\
  map (fun tm => Qeq_bool (due tm) 3) (timers s1) = [true; false] /\
  Qeq_bool (now s2) 3 = true /\
  (exists l, get_layer "nature" s2 = Some l /\
             isPlaying l = false /\
             currentSound l = None /\
             audioElement l = None /\
             sourceNode l = None).
Proof.
  split; [|split; [|split; [|split]]]; try (vm_compute; reflexivity).
  - eexists _, _. split; [vm_compute; reflexivity|].
    repeat split; vm_compute; reflexivity.
  - eexists. split; [vm_compute; reflexivity|].
    repeat split; vm_compute; reflexivity.
Qed.

(** * Further properties of the engine *)

(** ** The registry under the commands *)

Lemma layers_set_ids_existing ls k v :
  is_Some (layers_get ls k) -> map fst (layers_set ls k v) = map fst ls.
Proof.
  induction ls as [|[k0 l0] ls IH]; cbn; [by intros []|].
  destruct (String.eqb k0 k); cbn; [done|]. intros H. by rewrite IH.
Qed.

Lemma layers_set_ids_new ls k v :
  layers_get ls k = None -> map fst (layers_set ls k v) = map fst ls ++ [k].
Proof.
  induction ls as [|[k0 l0] ls IH]; cbn; [done|].
  destruct (String.eqb k0 k); cbn; [done|]. intros H. by rewrite IH.
Qed.

Lemma layers_get_None_ids ls k : layers_get ls k = None <-> k ∉ map fst ls.
Proof.
  induction ls as [|[k0 l0] ls IH]; cbn.
  - split; [intros _; apply not_elem_of_nil | done].
  - rewrite not_elem_of_cons. destruct (String.eqb_spec k0 k) as [->|Hne].
    + split; [done | intros [? _]; done].
    + rewrite IH. split; [intros ?; split; [congruence | done] | by intros [_ ?]].
Qed.

Lemma update_layer_ids k f s : map fst (layers (update_layer k f s)) = map fst (layers s).
Proof.
  unfold update_layer. destruct (get_layer k s) as [l|] eqn:Hk; [|done].
  unfold set_layers. cbn [layers]. apply layers_set_ids_existing.
  unfold get_layer in Hk. by rewrite Hk.
Qed.

#[export] Hint Rewrite update_layer_ids : engine.

Ltac ids_tac :=
  intros; unfold layer_ids;
  unfold stopLayer, fadeOut, fadeIn, _stopLayerImmediately, generateTone, fall_back,
    noise_cached, bind_noise, bind_audio, resume, setLayerVolume, setMasterVolume,
    initialize;
  cbn [new_node new_Audio createNoiseBuffer snd fst final];
  repeat case_match; simp_state; try done.

Lemma _stopLayerImmediately_ids k s :
  layer_ids (_stopLayerImmediately k s) = layer_ids s.
Proof. ids_tac. Qed.
Lemma fadeIn_ids k s : layer_ids (fadeIn k s) = layer_ids s.
Proof. ids_tac. Qed.
Lemma fadeOut_ids k cb s : layer_ids (fadeOut k cb s) = layer_ids s.
Proof. ids_tac. Qed.
Lemma stopLayer_ids k s : layer_ids (stopLayer k s) = layer_ids s.
Proof.
  unfold stopLayer. repeat case_match; try done;
    [apply fadeOut_ids | apply _stopLayerImmediately_ids].
Qed.
Lemma generateTone_ids k f s : layer_ids (generateTone k f s) = layer_ids s.
Proof. ids_tac. Qed.
Lemma fall_back_ids k m s : layer_ids (fall_back k m s) = layer_ids s.
Proof. unfold fall_back. rewrite generateTone_ids. ids_tac. Qed.
Lemma bind_noise_ids k t b s : layer_ids (snd (bind_noise k t b s)) = layer_ids s.
Proof.
  unfold bind_noise. cbn [new_node snd].
  destruct (enableCrossfade _); rewrite ?fadeIn_ids; ids_tac.
Qed.
Lemma bind_audio_ids k st sn p s : layer_ids (snd (bind_audio k st sn p s)) = layer_ids s.
Proof.
  unfold bind_audio. cbn [new_Audio new_node snd].
  destruct (enableCrossfade _); rewrite ?fadeIn_ids; ids_tac.
Qed.
Lemma setLayerVolume_ids k v s : layer_ids (setLayerVolume k v s) = layer_ids s.
Proof. ids_tac. Qed.
Lemma setMasterVolume_ids v s : layer_ids (setMasterVolume v s) = layer_ids s.
Proof. ids_tac. Qed.
Lemma initialize_ids created s : layer_ids (final (initialize created s)) = layer_ids s.
Proof. ids_tac. Qed.
Lemma resume_ids s : layer_ids (resume s) = layer_ids s.
Proof. unfold layer_ids. by rewrite resume_layers. Qed.

Lemma generateAndPlayNoise_ids random k t s :
  layer_ids (final (generateAndPlayNoise random k t s)) = layer_ids s.
Proof.
  rewrite generateAndPlayNoise_phases.
  destruct (get_layer k s); [|done].
  destruct (audioContext s) as [ctx|]; [|done]. cbv zeta.
  assert (H1 : layer_ids (noise_cached random ctx t s) = layer_ids s)
    by (unfold layer_ids; by rewrite noise_cached_layers).
  set (s1 := noise_cached random ctx t s) in *.
  destruct (noiseGenerators s1 !! t) as [b|]; [|done].
  pose proof (bind_noise_ids k t b s1) as H2.
  destruct (bind_noise k t b s1) as [source s2]. cbn [snd final] in *.
  rewrite <- H1, <- H2. ids_tac.
Qed.

Lemma loadAndPlayAudio_ids random outcome k st sn s :
  layer_ids (final (loadAndPlayAudio random outcome k st sn s)) = layer_ids s.
Proof.
  rewrite loadAndPlayAudio_phases.
  destruct (get_layer k (resume s)); [|apply resume_ids]. cbv zeta.
  assert (H1 : layer_ids (stopLayer k (resume s)) = layer_ids s)
    by (by rewrite stopLayer_ids, resume_ids).
  set (s1 := stopLayer k (resume s)) in *.
  destruct (is_generated_noise st sn); [by rewrite generateAndPlayNoise_ids|].
  destruct (library_path st sn) as [path|]; [|cbn [final]; by rewrite fall_back_ids].
  pose proof (bind_audio_ids k st sn path s1) as H2.
  destruct outcome; cbn [final].
  - by rewrite fall_back_ids.
  - by rewrite fall_back_ids, H2.
  - destruct (bind_audio k st sn path s1) as [audio s2]. cbn [snd final] in *.
    rewrite <- H1, <- H2. ids_tac.
Qed.

Lemma stopAll_ids s : layer_ids (stopAll s) = layer_ids s.
Proof.
  unfold stopAll.
  apply (forEach_layer_preserves (fun s' => layer_ids s' = layer_ids s)); [done|].
  intros k l s' <-. destruct (isPlaying l); [apply stopLayer_ids | done].
Qed.

Lemma playAll_ids random outcome s : layer_ids (playAll random outcome s) = layer_ids s.
Proof.
  unfold playAll.
  apply (forEach_layer_preserves (fun s' => layer_ids s' = layer_ids s)); [done|].
  intros k l s' <-. case_match; [apply loadAndPlayAudio_ids | done].
Qed.

Lemma updateConfig_layers p s : layers (updateConfig p s) = layers s.
Proof.
  unfold updateConfig. cbv zeta. destruct (patch_loopLayers p); [|by simp_state].
  match goal with
  | |- layers (forEach_layer _ ?x) = _ =>
      apply (forEach_layer_preserves (fun s' => layers s' = layers s))
  end; [by simp_state|].
  intros k l s' <-. destruct (audioElement l); [|done]. by simp_state.
Qed.

Lemma render_all_ids s : layer_ids (render_all s) = layer_ids s.
Proof.
  unfold layer_ids, render_all, set_layers, set_masterGain. cbn [layers].
  rewrite map_map. by apply map_ext.
Qed.

Lemma advance_ids dt s : layer_ids (advance dt s) = layer_ids s.
Proof.
  unfold advance. cbv zeta. rewrite render_all_ids.
  match goal with
  | |- layer_ids (set_now _ ?x) = _ => assert (Hx : layer_ids x = layer_ids s)
  end.
  { apply (fold_left_preserves (fun s' => layer_ids s' = layer_ids s)).
    - ids_tac.
    - intros tm s' <-. destruct (callback tm). apply _stopLayerImmediately_ids. }
  rewrite <- Hx. ids_tac.
Qed.

(** Only [createLayer] adds a layer, at the end and only under a new id on an
    initialized engine; only [dispose] removes layers, all of them; every
    other command keeps the registry's ids and their order. *)
Lemma exec_ids random c s :
  layer_ids (exec random c s) =
  match c with
  | CreateLayer k _ =>
      if isInitialized s && negb (bool_decide (k ∈ layer_ids s))
      then layer_ids s ++ [k] else layer_ids s
  | Dispose => []
  | _ => layer_ids s
  end.
Proof.
  destruct c; cbn [exec].
  - apply initialize_ids.
  - apply resume_ids.
  - unfold createLayer. destruct (isInitialized s); cbn [negb andb]; [|done].
    destruct (get_layer layerId s) as [l|] eqn:Hk; cbn [final].
    + rewrite bool_decide_true; [ids_tac|].
      unfold get_layer in Hk. destruct (decide (layerId ∈ layer_ids s)); [done|].
      apply layers_get_None_ids in n. congruence.
    + rewrite bool_decide_false by (by apply layers_get_None_ids).
      cbn [negb]. unfold layer_ids. simp_state. by apply layers_set_ids_new.
  - apply loadAndPlayAudio_ids.
  - apply generateAndPlayNoise_ids.
  - apply generateTone_ids.
  - apply stopLayer_ids.
  - apply stopAll_ids.
  - apply playAll_ids.
  - apply setLayerVolume_ids.
  - apply setMasterVolume_ids.
  - unfold layer_ids. by rewrite updateConfig_layers.
  - unfold dispose. cbv zeta. unfold layer_ids. simp_state. done.
  - apply advance_ids.
Qed.

(** X1: Only [createLayer] and [dispose] change which layers exist: on an
    initialized engine [createLayer] puts a new id last and leaves a known
    one where it is, [dispose] empties the registry, and every other command
    keeps the ids and their order. *)
Theorem exec_layer_ids random c s :
  layer_ids (exec random c s) =
  match c with
  | CreateLayer k _ =>
      if isInitialized s && negb (bool_decide (k ∈ layer_ids s))
      then layer_ids s ++ [k] else layer_ids s
  | Dispose => []
  | _ => layer_ids s
  end.
Proof. exact (exec_ids random c s). Qed.


(** ** What the commands keep of each layer *)

Section KeptProjection.

Context {A : Type} (proj : Layer -> A).
Hypothesis proj_playback : ignores_playback proj.
Hypothesis proj_gain : ignores_gain proj.

Lemma bind_noise_proj k t b s k' :
  proj <$> get_layer k' (snd (bind_noise k t b s)) = proj <$> get_layer k' s.
Proof using proj_playback proj_gain.
  destruct (ignores_playback_with proj proj_playback) as (? & ? & ? & ? & ?).
  unfold bind_noise. cbn [new_node snd].
  destruct (enableCrossfade _); rewrite ?fadeIn_proj by done; drop_updates; done.
Qed.

Lemma bind_audio_proj k st sn p s k' :
  proj <$> get_layer k' (snd (bind_audio k st sn p s)) = proj <$> get_layer k' s.
Proof using proj_playback proj_gain.
  destruct (ignores_playback_with proj proj_playback) as (? & ? & ? & ? & ?).
  unfold bind_audio. cbn [new_Audio new_node snd].
  destruct (enableCrossfade _); rewrite ?fadeIn_proj by done; drop_updates; done.
Qed.

Lemma generateAndPlayNoise_proj random k t s k' :
  proj <$> get_layer k' (final (generateAndPlayNoise random k t s))
  = proj <$> get_layer k' s.
Proof using proj_playback proj_gain.
  rewrite generateAndPlayNoise_phases.
  destruct (get_layer k s); [|done].
  destruct (audioContext s) as [ctx|]; [|done]. cbv zeta.
  assert (Hn1 : get_layer k' (noise_cached random ctx t s) = get_layer k' s)
    by (unfold get_layer; by rewrite noise_cached_layers).
  set (s1 := noise_cached random ctx t s) in *.
  destruct (noiseGenerators s1 !! t) as [b|]; [|by rewrite <- Hn1].
  pose proof (bind_noise_proj k t b s1 k') as Hn2.
  destruct (bind_noise k t b s1) as [source s2]. cbn [snd final] in *.
  rewrite <- Hn1, <- Hn2. unfold get_layer. simp_state. done.
Qed.

Lemma loadAndPlayAudio_proj random outcome k st sn s k' :
  proj <$> get_layer k' (final (loadAndPlayAudio random outcome k st sn s))
  = proj <$> get_layer k' s.
Proof using proj_playback proj_gain.
  destruct (ignores_playback_with proj proj_playback) as (? & ? & ? & ? & ?).
  rewrite loadAndPlayAudio_phases.
  assert (Hr : get_layer k' (resume s) = get_layer k' s)
    by (unfold get_layer; by rewrite resume_layers).
  destruct (get_layer k (resume s)); [|by rewrite <- Hr]. cbv zeta.
  assert (Hs1 : proj <$> get_layer k' (stopLayer k (resume s)) = proj <$> get_layer k' s)
    by (by rewrite stopLayer_proj, Hr).
  set (s1 := stopLayer k (resume s)) in *.
  destruct (is_generated_noise st sn); [by rewrite generateAndPlayNoise_proj|].
  destruct (library_path st sn) as [path|];
    [|cbn [final]; by rewrite fall_back_proj].
  pose proof (bind_audio_proj k st sn path s1 k') as Hs2.
  destruct outcome; cbn [final].
  - by rewrite fall_back_proj.
  - by rewrite fall_back_proj, Hs2.
  - destruct (bind_audio k st sn path s1) as [audio s2]. cbn [snd final] in *.
    rewrite <- Hs1, <- Hs2. unfold get_layer. drop_updates. done.
Qed.

Lemma stopAll_proj s k' : proj <$> get_layer k' (stopAll s) = proj <$> get_layer k' s.
Proof using proj_playback proj_gain.
  unfold stopAll.
  apply (forEach_layer_preserves
           (fun s' => proj <$> get_layer k' s' = proj <$> get_layer k' s)); [done|].
  intros k l s' <-. destruct (isPlaying l); [by apply stopLayer_proj | done].
Qed.

Lemma playAll_proj random outcome s k' :
  proj <$> get_layer k' (playAll random outcome s) = proj <$> get_layer k' s.
Proof using proj_playback proj_gain.
  unfold playAll.
  apply (forEach_layer_preserves
           (fun s' => proj <$> get_layer k' s' = proj <$> get_layer k' s)); [done|].
  intros k l s' <-. case_match; [apply loadAndPlayAudio_proj | done].
Qed.

Lemma render_all_proj s k' :
  proj <$> get_layer k' (render_all s) = proj <$> get_layer k' s.
Proof using proj_gain.
  rewrite get_layer_render_all. destruct (get_layer k' s); cbn; [|done].
  by rewrite proj_gain.
Qed.

Lemma advance_proj dt s k' :
  proj <$> get_layer k' (advance dt s) = proj <$> get_layer k' s.
Proof using proj_playback proj_gain.
  unfold advance. cbv zeta. rewrite render_all_proj.
  match goal with
  | |- proj <$> get_layer k' (set_now _ ?x) = _ =>
      assert (Hx : proj <$> get_layer k' x = proj <$> get_layer k' s)
  end.
  { apply (fold_left_preserves
             (fun s' => proj <$> get_layer k' s' = proj <$> get_layer k' s)).
    - unfold get_layer. simp_state. done.
    - intros tm s' <-. destruct (callback tm). by apply _stopLayerImmediately_proj. }
  rewrite <- Hx. unfold get_layer. simp_state. done.
Qed.

Lemma createLayer_proj k v s k' :
  is_Some (get_layer k' s) ->
  proj <$> get_layer k' (final (createLayer k v s)) = proj <$> get_layer k' s.
Proof.
  intros [l Hl]. unfold createLayer.
  destruct (negb (isInitialized s)); [done|].
  destruct (get_layer k s) eqn:Hk; cbn [final]; unfold get_layer in *; simp_state;
    [done|].
  rewrite layers_get_set. destruct (String.eqb_spec k k'); [congruence | done].
Qed.

(** Every command but [createLayer], [setLayerVolume] and [dispose] keeps
    such a projection of every layer. *)
Lemma exec_proj random c s k' :
  is_createLayer c = false -> is_setLayerVolume c = false -> is_dispose c = false ->
  proj <$> get_layer k' (exec random c s) = proj <$> get_layer k' s.
Proof using proj_playback proj_gain.
  intros Hc Hv Hd. destruct c; cbn [exec]; try done.
  - unfold initialize, get_layer. repeat case_match; cbn [final]; simp_state; done.
  - unfold get_layer. by rewrite resume_layers.
  - apply loadAndPlayAudio_proj.
  - apply generateAndPlayNoise_proj.
  - by apply generateTone_proj.
  - by apply stopLayer_proj.
  - apply stopAll_proj.
  - apply playAll_proj.
  - unfold setMasterVolume, get_layer. destruct (masterGain s); simp_state; done.
  - unfold get_layer. by rewrite updateConfig_layers.
  - apply advance_proj.
Qed.

Lemma setLayerVolume_proj k v s k' :
  ignores_volume proj ->
  proj <$> get_layer k' (setLayerVolume k v s) = proj <$> get_layer k' s.
Proof using proj_gain.
  intros Hv. unfold setLayerVolume. destruct (get_layer k s); [|done]. cbv zeta.
  unfold get_layer. destruct (isPlaying _); rewrite !layers_update_proj by done; done.
Qed.

End KeptProjection.

Lemma identity_view_ignores_playback : ignores_playback identity_view.
Proof. by intros l a n c p ns. Qed.
Lemma identity_view_ignores_gain : ignores_gain identity_view.
Proof. by intros l g. Qed.
Lemma identity_view_ignores_volume : ignores_volume identity_view.
Proof. by intros l v. Qed.
Lemma volume_ignores_playback : ignores_playback volume.
Proof. by intros l a n c p ns. Qed.
Lemma volume_ignores_gain : ignores_gain volume.
Proof. by intros l g. Qed.

Lemma exec_settings random c s k l :
  is_dispose c = false ->
  get_layer k s = Some l ->
  exists l',
    get_layer k (exec random c s) = Some l' /\
    id l' = id l /\
    analyserNode l' = analyserNode l /\
    volume l' = match c with
                | SetLayerVolume k0 v => if String.eqb k0 k then v else volume l
                | _ => volume l
                end.
Proof.
  intros Hd Hk.
  assert (Hgoal : identity_view <$> get_layer k (exec random c s) = Some (identity_view l)
                  /\ volume <$> get_layer k (exec random c s)
                     = Some match c with
                            | SetLayerVolume k0 v =>
                                if String.eqb k0 k then v else volume l
                            | _ => volume l
                            end).
  { destruct (is_createLayer c) eqn:Hc; [|destruct (is_setLayerVolume c) eqn:Hv].
    - destruct c; try done. cbn [exec].
      rewrite !createLayer_proj by (by rewrite Hk). by rewrite Hk.
    - destruct c; try done. cbn [exec]. split.
      + rewrite setLayerVolume_proj, Hk;
          [done | apply identity_view_ignores_gain | apply identity_view_ignores_volume].
      + unfold setLayerVolume. destruct (String.eqb_spec layerId k) as [->|Hne].
        * rewrite Hk. cbv zeta. unfold get_layer in *.
          destruct (isPlaying l); simp_state; by rewrite Hk.
        * destruct (get_layer layerId s); [|by rewrite Hk]. cbv zeta.
          unfold get_layer in *.
          destruct (isPlaying _); rewrite !layers_update_other, Hk by done; done.
    - rewrite !exec_proj, Hk by
        (done || apply identity_view_ignores_playback || apply identity_view_ignores_gain
         || apply volume_ignores_playback || apply volume_ignores_gain).
      split; [done|]. by destruct c. }
  destruct Hgoal as [Hi Hv].
  destruct (get_layer k (exec random c s)) as [l'|]; [|done].
  injection Hi as Hid Han. injection Hv as Hv. by exists l'.
Qed.

(** X2: A layer lives until [dispose]: every other command keeps it, with its
    id and its analyser; its stored volume is changed by [setLayerVolume] on
    that layer, to the value given, and by nothing else. *)
Theorem exec_keeps_layer_settings random c s k l :
  is_dispose c = false ->
  get_layer k s = Some l ->
  exists l',
    get_layer k (exec random c s) = Some l' /\
    id l' = id l /\
    analyserNode l' = analyserNode l /\
    volume l' = match c with
                | SetLayerVolume k0 v => if String.eqb k0 k then v else volume l
                | _ => volume l
                end.
Proof. exact (exec_settings random c s k l). Qed.

(** A playing layer at volume 0.4 whose volume is set to 0.9. *)
Lemma exec_keeps_layer_settings_witness :
  let random := fun _ : nat => 1 # 2 in
  let s := run random [ Initialize (Some (mkContext 44100 Running));
                        CreateLayer "music" 0.4; Tone "music" 440 ] new_AudioEngine in
  let c := SetLayerVolume "music" 0.9 in
  exists l,
    is_dispose c = false /\ get_layer "music" s = Some l /\
    exists l', get_layer "music" (exec random c s) = Some l' /\
               id l' = id l /\ analyserNode l' = analyserNode l /\ volume l' = 0.9.
Proof.
  intros random s c.
  destruct (get_layer "music" s) as [l|] eqn:Hl; [|vm_compute in Hl; discriminate].
  exists l. split; [reflexivity|]. split; [reflexivity|].
  exact (exec_keeps_layer_settings random c s "music" l eq_refl Hl).
Defined.


(** ** The registry in reachable states *)

Lemma createLayer_new k v s :
  isInitialized s = true -> get_layer k s = None ->
  get_layer k (final (createLayer k v s))
  = Some (mkLayer k None None (set_value v (now s) default_gain)
                  (mkAnalyser 256 0.8) None false v None None).
Proof.
  intros Hi Hk. unfold createLayer. rewrite Hi, Hk. cbn [negb final].
  unfold get_layer. simp_state. rewrite layers_get_set.
  by rewrite String.eqb_refl.
Qed.

Lemma get_layer_None_ids k s : get_layer k s = None <-> k ∉ layer_ids s.
Proof. apply layers_get_None_ids. Qed.

Lemma dispose_layers s : layers (dispose s) = [].
Proof. unfold dispose. cbv zeta. case_match; simp_state; done. Qed.

Lemma exec_well_formed random c s :
  layers_well_formed s -> layers_well_formed (exec random c s).
Proof.
  intros [Hnd Hwf]. split.
  - rewrite exec_ids. destruct c; try done; try apply NoDup_nil_2.
    destruct (isInitialized s); [|done]. cbn [andb]. case_bool_decide; [done|].
      cbn [negb]. apply NoDup_app. split; [done|]. split; [|apply NoDup_singleton].
      intros x Hx ->%list_elem_of_singleton. done.
  - intros k l' Hl'.
    destruct (is_dispose c) eqn:Hd.
    { destruct c; done. }
    destruct (get_layer k s) as [l|] eqn:Hk.
    + destruct (exec_settings random c s k l Hd Hk) as (l2 & Hl2 & Hid & Han & _).
      rewrite Hl2 in Hl'. injection Hl' as <-. destruct (Hwf k l Hk) as [<- <-]. done.
    + assert (Hin : k ∈ layer_ids (exec random c s)).
      { destruct (decide (k ∈ layer_ids (exec random c s))) as [|Hn]; [done|].
        apply get_layer_None_ids in Hn. congruence. }
      apply get_layer_None_ids in Hk.
      rewrite exec_ids in Hin. destruct c; try done.
      destruct (isInitialized s) eqn:Hi; [|done]. cbn [andb] in Hin.
      case_bool_decide as Hold; cbn [negb] in Hin; [done|].
      apply elem_of_app in Hin as [Hin|Hin%list_elem_of_singleton]; [done|]. subst k.
      cbn [exec] in Hl'. rewrite createLayer_new in Hl'
        by (done || by apply get_layer_None_ids).
      by injection Hl' as <-.
Qed.

Lemma run_well_formed random cs : forall s,
  layers_well_formed s -> layers_well_formed (run random cs s).
Proof.
  unfold run. induction cs as [|c cs IH]; intros s Hs; [done|].
  cbn [fold_left]. by apply IH, exec_well_formed.
Qed.

Lemma new_AudioEngine_well_formed : layers_well_formed new_AudioEngine.
Proof. split; [apply NoDup_nil_2 | done]. Qed.

(** X3: Whatever commands a fresh engine has run, no two of its layers share an
    id, every layer is stored under its own id, and every analyser has the
    FFT size 256 and the smoothing 0.8 that [createLayer] gave it. *)
Theorem registry_well_formed random cs :
  layers_well_formed (run random cs new_AudioEngine).
Proof. apply run_well_formed, new_AudioEngine_well_formed. Qed.

(** X4: Whatever commands a fresh engine has run, the waveform data of a layer,
    when there is some, has 128 bytes. *)
Theorem getAnalyserData_has_128_bytes random cs waveform k data :
  getAnalyserData waveform k (run random cs new_AudioEngine) = Some data ->
  length data = 128%nat.
Proof.
  intros H. unfold getAnalyserData in H.
  destruct (get_layer k _) as [l|] eqn:Hk; [|done].
  destruct (run_well_formed random cs _ new_AudioEngine_well_formed) as [_ Hwf].
  destruct (Hwf k l Hk) as [_ Han]. rewrite Han in H.
  destruct (negb (isPlaying l)); [done|]. injection H as <-. reflexivity.
Qed.

(** A layer playing a tone. *)
Lemma getAnalyserData_has_128_bytes_witness :
  let random := fun _ : nat => 1 # 2 in
  let cs := [ Initialize (Some (mkContext 44100 Running));
              CreateLayer "music" 0.4; Tone "music" 440 ] in
  let waveform := fun _ : nat => Byte.x80 in
  getAnalyserData waveform "music" (run random cs new_AudioEngine)
    = Some (map waveform (seq 0 128)) /\
  length (map waveform (seq 0 128)) = 128%nat.
Proof.
  intros random cs waveform.
  assert (H : getAnalyserData waveform "music" (run random cs new_AudioEngine)
              = Some (map waveform (seq 0 128))) by (vm_compute; reflexivity).
  split; [exact H|].
  exact (getAnalyserData_has_128_bytes random cs waveform "music" _ H).
Defined.

(** ** A disposed engine *)

Lemma dispose_blank s : blank (dispose s).
Proof.
  split; [|apply dispose_layers].
  unfold dispose. cbv zeta. case_match; simp_state; done.
Qed.

Lemma exec_blank random c s :
  is_initialize c = false -> blank s -> blank (exec random c s).
Proof.
  intros Hc Hb. destruct c; try done; cbn [exec].
  - by apply blank_resume.
  - unfold createLayer. destruct Hb as [Hi Hl]. rewrite Hi. cbn [negb final]. by split.
  - unfold loadAndPlayAudio.
    rewrite (blank_get_layer _ _ (blank_resume s Hb)). by apply blank_resume.
  - unfold generateAndPlayNoise. by rewrite blank_get_layer.
  - unfold generateTone. by rewrite blank_get_layer.
  - unfold stopLayer. by rewrite blank_get_layer.
  - unfold stopAll. by rewrite blank_forEach_layer.
  - unfold playAll. by rewrite blank_forEach_layer.
  - unfold setLayerVolume. by rewrite blank_get_layer.
  - unfold setMasterVolume. destruct (masterGain s); [|done].
    revert Hb. apply blank_frame; simp_state; done.
  - unfold updateConfig. cbv zeta.
    match goal with
    | |- context [set_config ?c s] => assert (Hc' : blank (set_config c s))
        by (revert Hb; apply blank_frame; simp_state; done)
    end.
    destruct (patch_loopLayers p); [|done]. by rewrite blank_forEach_layer.
  - destruct Hb as [Hi Hl]. split.
    + transitivity (isInitialized s); [|done]. clear Hi Hl.
      unfold advance. cbv zeta. unfold render_all. simp_state.
      apply (fold_left_preserves (fun s' => isInitialized s' = isInitialized s)).
      * by simp_state.
      * intros tm s' <-. destruct (callback tm). cbn [run_callback].
        unfold _stopLayerImmediately. repeat case_match; simp_state; done.
    + apply (f_equal (map fst)) in Hl. change (layer_ids s = []) in Hl.
      rewrite <- (advance_ids dt s) in Hl. unfold layer_ids in Hl.
      by destruct (layers (advance dt s)).
Qed.

Lemma run_blank random cs : forall s,
  forallb (fun c => negb (is_initialize c)) cs = true ->
  blank s -> blank (run random cs s).
Proof.
  unfold run. induction cs as [|c cs IH]; intros s H Hb; [done|].
  cbn [forallb] in H. apply andb_prop in H as [H1 H2]. cbn [fold_left].
  apply IH; [done|]. apply exec_blank; [by destruct (is_initialize c) | done].
Qed.

(** X5: After [dispose], the engine has no layers and is not initialized, and it
    stays so through every command but [initialize]: no layer can be created
    or played before the engine is initialized again. *)
Theorem disposed_engine_stays_empty random cs s :
  forallb (fun c => negb (is_initialize c)) cs = true ->
  blank (run random cs (dispose s)).
Proof. intros Hcs. apply run_blank; [done | apply dispose_blank]. Qed.

(** Creating and playing on a disposed engine. *)
Lemma disposed_engine_stays_empty_witness :
  let random := fun _ : nat => 1 # 2 in
  let s := run random [ Initialize (Some (mkContext 44100 Running));
                        CreateLayer "music" 0.4; Tone "music" 440 ] new_AudioEngine in
  let cs := [ CreateLayer "music" 0.4; Tone "music" 440; Resume; Advance 1 ] in
  forallb (fun c => negb (is_initialize c)) cs = true /\
  blank (run random cs (dispose s)).
Proof.
  intros random s cs.
  assert (H : forallb (fun c => negb (is_initialize c)) cs = true) by reflexivity.
  split; [exact H|].
  exact (disposed_engine_stays_empty random cs s H).
Defined.


(** * Fades and volume changes over time *)

(** ** Automation timelines *)

Lemma Qle_bool_false x y : Qle_bool x y = false -> y < x.
Proof.
  intros H. apply Qnot_le_lt. intros Hle. apply Qle_bool_iff in Hle. congruence.
Qed.

Lemma Qle_bool_true x y : x <= y -> Qle_bool x y = true.
Proof. apply Qle_bool_iff. Qed.

Lemma Qle_bool_lt x y : y < x -> Qle_bool x y = false.
Proof.
  intros H. destruct (Qle_bool x y) eqn:E; [|done].
  apply Qle_bool_iff in E. by apply Qlt_not_le in H.
Qed.

Lemma insert_event_last e evs :
  Forall (fun e' => ev_time e' <= ev_time e) evs -> insert_event e evs = evs ++ [e].
Proof.
  induction 1 as [|e' evs He _ IH]; cbn; [done|].
  rewrite Qle_bool_true by done. by rewrite IH.
Qed.

Lemma cancelScheduledValues_before t p :
  Forall (fun e => ev_time e < t) (events (cancelScheduledValues t p)).
Proof.
  eapply Forall_impl; [apply cancelScheduledValues_clears|].
  intros e He. by apply Qle_bool_false.
Qed.

Lemma scheduled_ramp_events x v t0 t1 p :
  t0 <= t1 ->
  events (scheduled_ramp x v t0 t1 p)
  = events (cancelScheduledValues t0 p)
      ++ [mkEvent SetValue x t0; mkEvent LinearRamp v t1].
Proof.
  intros H01. unfold scheduled_ramp, linearRampToValueAtTime, setValueAtTime.
  cbn [events current].
  pose proof (cancelScheduledValues_before t0 p) as Hb.
  rewrite (insert_event_last (mkEvent SetValue x t0)).
  - rewrite insert_event_last; [by rewrite <- app_assoc|].
    apply Forall_app. split.
    + eapply Forall_impl; [exact Hb|]. intros e He. cbn in *. apply Qlt_le_weak.
      exact (Qlt_le_trans _ _ _ He H01).
    + by repeat constructor.
  - eapply Forall_impl; [exact Hb|]. intros e He. cbn. by apply Qlt_le_weak.
Qed.

Lemma scheduled_ramp_current x v t0 t1 p :
  current (scheduled_ramp x v t0 t1 p) = current p.
Proof. done. Qed.

Lemma timeline_from_past prev evs e t held :
  Forall (fun e' => ev_time e' <= t) evs -> ev_time e <= t ->
  timeline_from prev (evs ++ [e]) t held = ev_value e.
Proof.
  intros H He. revert prev. induction H as [|e' evs He' _ IH]; intros prev; cbn.
  - by rewrite Qle_bool_true.
  - rewrite Qle_bool_true by done. apply IH.
Qed.

Lemma timeline_from_ramp prev evs x v t0 t1 t held :
  Forall (fun e' => ev_time e' <= t) evs -> t0 <= t -> t < t1 ->
  timeline_from prev (evs ++ [mkEvent SetValue x t0; mkEvent LinearRamp v t1]) t held
  = ramp_value x t0 v t1 t.
Proof.
  intros H H0 H1. revert prev. induction H as [|e' evs He' _ IH]; intros prev; cbn.
  - rewrite Qle_bool_true by done. by rewrite Qle_bool_lt.
  - rewrite Qle_bool_true by done. apply IH.
Qed.

(** A scheduled ramp follows the line from [x] to [v] while it lasts, and
    holds [v] from its end on. *)
Lemma scheduled_ramp_render x v t0 t1 p t :
  t0 <= t1 -> t0 <= t ->
  current (render t (scheduled_ramp x v t0 t1 p))
  = if Qle_bool t1 t then v else ramp_value x t0 v t1 t.
Proof.
  intros H01 H0. unfold render. cbn [current]. rewrite scheduled_ramp_events by done.
  assert (Hb : Forall (fun e => ev_time e <= t) (events (cancelScheduledValues t0 p))).
  { eapply Forall_impl; [apply cancelScheduledValues_before|].
    intros e He. cbn in He. apply Qlt_le_weak. exact (Qlt_le_trans _ _ _ He H0). }
  destruct (Qle_bool t1 t) eqn:E.
  - apply Qle_bool_iff in E.
    change [mkEvent SetValue x t0; mkEvent LinearRamp v t1]
      with ([mkEvent SetValue x t0] ++ [mkEvent LinearRamp v t1]).
    rewrite app_assoc. rewrite timeline_from_past; [done| |done].
    apply Forall_app. split; [done|]. by repeat constructor.
  - apply Qle_bool_false in E. by apply timeline_from_ramp.
Qed.

(** ** What time passing does to a layer *)

Lemma advance_gainNode dt s k :
  gainNode <$> get_layer k (advance dt s)
  = (fun l => render (now s + dt) (gainNode l)) <$> get_layer k s.
Proof.
  unfold advance. cbv zeta. rewrite get_layer_render_all.
  match goal with
  | |- context [get_layer k (set_now ?t ?x)] =>
      assert (Hx : gainNode <$> get_layer k (set_now t x) = gainNode <$> get_layer k s)
  end.
  { transitivity (gainNode <$> get_layer k (set_timers
       (List.filter (fun tm => negb (Qle_bool (due tm) (now s + dt))) (timers s)) s));
      [|unfold get_layer; by simp_state].
    match goal with
    | |- context [fold_left ?f ?l ?s0] =>
        apply (fold_left_preserves
                 (fun s' => gainNode <$> get_layer k (set_now (now s + dt) s')
                            = gainNode <$> get_layer k s0))
    end.
    - unfold get_layer. by simp_state.
    - intros tm s' <-. destruct (callback tm). cbn [run_callback].
      unfold get_layer. simp_state.
      apply (_stopLayerImmediately_proj gainNode). by intros l a n c p ns. }
  simp_state.
  match type of Hx with
  | gainNode <$> ?a = gainNode <$> ?b => destruct a, b; cbn in *; congruence
  end.
Qed.

Lemma advance_gain_value dt s k :
  gain_value k (advance dt s)
  = (fun l => current (render (now s + dt) (gainNode l))) <$> get_layer k s.
Proof.
  unfold gain_value.
  change (fun l => current (gainNode l)) with (current ∘ gainNode).
  rewrite option_fmap_compose, advance_gainNode. by destruct (get_layer k s).
Qed.


(** ** Teardowns *)

Lemma _stopLayerImmediately_tears_down k s l :
  get_layer k s = Some l ->
  exists l', get_layer k (_stopLayerImmediately k s) = Some l' /\ torn_down l' /\
             gainNode l' = gainNode l /\ volume l' = volume l.
Proof.
  intros Hl. unfold _stopLayerImmediately. rewrite Hl. cbv zeta.
  destruct (audioElement l) eqn:Ha, (noiseSource l) eqn:Hn, (sourceNode l) eqn:Hs;
    repeat case_match; unfold get_layer in *; simp_state; rewrite Hl; cbn;
    (eexists; split; [reflexivity|]); unfold torn_down; cbn; by rewrite ?Ha, ?Hn.
Qed.

Lemma torn_down_stays k k' s l :
  get_layer k s = Some l -> torn_down l ->
  exists l', get_layer k (_stopLayerImmediately k' s) = Some l' /\ torn_down l'.
Proof.
  intros Hl Ht. destruct (String.eqb_spec k' k) as [->|Hne].
  - destruct (_stopLayerImmediately_tears_down k s l Hl) as (l' & ? & ? & _). by exists l'.
  - exists l. by rewrite _stopLayerImmediately_local.
Qed.

Lemma _stopLayerImmediately_exists k' s k :
  is_Some (get_layer k s) -> is_Some (get_layer k (_stopLayerImmediately k' s)).
Proof.
  intros Hk. eapply fmap_unit_is_Some; [|exact Hk].
  by apply (_stopLayerImmediately_proj (fun _ => ())).
Qed.

Lemma callbacks_tear_down k tm fired : forall s,
  In tm fired -> callback tm = StopLayerImmediately k -> is_Some (get_layer k s) ->
  exists l', get_layer k (fold_left (fun s tm => run_callback (callback tm) s) fired s)
             = Some l' /\ torn_down l'.
Proof.
  induction fired as [|tm0 fired IH]; intros s Hin Hcb Hk; [done|].
  cbn [fold_left]. destruct Hin as [->|Hin].
  - rewrite Hcb. cbn [run_callback]. destruct Hk as [l Hl].
    destruct (_stopLayerImmediately_tears_down k s l Hl) as (l' & Hl' & Ht & _).
    revert Hl' Ht. generalize (_stopLayerImmediately k s). clear.
    revert l'. induction fired as [|tm1 fired IH]; intros l' s Hl' Ht; cbn [fold_left].
    + by exists l'.
    + destruct (callback tm1) as [k1]. cbn [run_callback].
      destruct (torn_down_stays k k1 s l' Hl' Ht) as (l2 & Hl2 & Ht2).
      by apply (IH l2).
  - apply IH; [done..|]. destruct (callback tm0) as [k0]. cbn [run_callback].
    by apply _stopLayerImmediately_exists.
Qed.

(** A pending teardown of an existing layer that comes due tears the layer
    down, whatever else fires with it. *)
Lemma advance_tears_down dt s k tm :
  In tm (timers s) -> callback tm = StopLayerImmediately k -> due tm <= now s + dt ->
  is_Some (get_layer k s) ->
  exists l', get_layer k (advance dt s) = Some l' /\ torn_down l'.
Proof.
  intros Hin Hcb Hdue Hk. unfold advance. cbv zeta. rewrite get_layer_render_all.
  match goal with
  | |- context [fold_left ?f ?fired ?s0] =>
      destruct (callbacks_tear_down k tm fired s0) as (l' & Hl' & Ht)
  end.
  - apply filter_In. split; [done|]. by apply Qle_bool_iff.
  - done.
  - unfold get_layer in *. by simp_state.
  - unfold get_layer in *. simp_state. rewrite Hl'. cbn. eexists. split; [done|].
    destruct Ht as (? & ? & ? & ? & ?). by repeat split.
Qed.

Lemma advance_exists dt s k :
  is_Some (get_layer k s) -> is_Some (get_layer k (advance dt s)).
Proof.
  intros Hk. eapply fmap_unit_is_Some; [|exact Hk].
  apply (advance_proj (fun _ => ())); by intros.
Qed.

Lemma setTimeout_due cb fd s :
  0 <= fd -> exists tm, In tm (timers (setTimeout cb (fd * 1000) s)) /\
                        callback tm = cb /\ due tm == now s + fd.
Proof.
  intros Hfd. eexists (mkTimer _ cb). split; [|split; [done|]].
  - unfold setTimeout. simp_state.
    generalize (timers s). intros tms. induction tms as [|t0 tms IH]; cbn; [by left|].
    destruct (Qle_bool _ _); cbn; [by right | by left].
  - cbn. rewrite Q.max_r by (apply Qmult_le_0_compat; [done | lra]).
    field.
Qed.


(** ** Volume changes *)

Lemma Qle_bool_plus a x y : Qle_bool (a + x) (a + y) = Qle_bool x y.
Proof.
  destruct (Qle_bool x y) eqn:E.
  - apply Qle_bool_iff. apply Qle_bool_iff in E. by apply Qplus_le_r.
  - apply Qle_bool_lt. apply Qle_bool_false in E. by apply Qplus_lt_r.
Qed.

Lemma ramp_value_shift x v t0 d dt :
  0 < d -> ramp_value x t0 v (t0 + d) (t0 + dt) == x + (v - x) * (dt / d).
Proof.
  intros Hd. unfold ramp_value. field. intros H0.
  assert (d == 0) by lra. lra.
Qed.

(** The getter of a gain on which a ramp over [d] seconds has been
    scheduled, [dt] seconds later. *)
Lemma scheduled_ramp_after x v t0 d dt p :
  0 <= d -> 0 <= dt ->
  let g := current (render (t0 + dt) (scheduled_ramp x v t0 (t0 + d) p)) in
  if Qle_bool d dt then g = v else g == x + (v - x) * (dt / d).
Proof.
  intros Hd Hdt g. unfold g. rewrite scheduled_ramp_render by lra.
  rewrite Qle_bool_plus. destruct (Qle_bool d dt) eqn:E; [done|].
  apply Qle_bool_false in E. apply ramp_value_shift. lra.
Qed.

Lemma setLayerVolume_playing k v s l :
  get_layer k s = Some l -> isPlaying l = true ->
  get_layer k (setLayerVolume k v s)
  = Some (with_gainNode
            (scheduled_ramp (current (gainNode l)) v (now s) (now s + 0.05) (gainNode l))
            (with_volume v l)) /\
  now (setLayerVolume k v s) = now s.
Proof.
  intros Hl Hp. unfold setLayerVolume. rewrite Hl, Hp. cbv zeta.
  unfold get_layer in *. simp_state. by rewrite Hl.
Qed.

Lemma setLayerVolume_stopped k v s l :
  get_layer k s = Some l -> isPlaying l = false ->
  get_layer k (setLayerVolume k v s)
  = Some (with_gainNode (set_value v (now s) (gainNode l)) (with_volume v l)).
Proof.
  intros Hl Hp. unfold setLayerVolume. rewrite Hl, Hp. cbv zeta.
  unfold get_layer in *. simp_state. by rewrite Hl.
Qed.

(** X6: [setLayerVolume] on a stopped layer sets the gain at once. On a playing
    layer the gain keeps its value at the call and moves to the new volume
    on a line over 0.05 seconds, where it stays. *)
Theorem setLayerVolume_gain k v s l :
  get_layer k s = Some l ->
  if isPlaying l then
    gain_value k (setLayerVolume k v s) = Some (current (gainNode l)) /\
    forall dt, 0 <= dt ->
      exists g, gain_value k (advance dt (setLayerVolume k v s)) = Some g /\
                if Qle_bool 0.05 dt then g = v
                else g == current (gainNode l) + (v - current (gainNode l)) * (dt / 0.05)
  else gain_value k (setLayerVolume k v s) = Some v.
Proof.
  intros Hl. destruct (isPlaying l) eqn:Hp.
  - destruct (setLayerVolume_playing k v s l Hl Hp) as [Hl' Hnow]. split.
    + unfold gain_value. by rewrite Hl'.
    + intros dt Hdt. rewrite advance_gain_value, Hl', Hnow. cbn [fmap option_fmap option_map].
      eexists. split; [reflexivity|]. cbn [gainNode with_gainNode].
      apply scheduled_ramp_after; [lra | done].
  - unfold gain_value. by rewrite (setLayerVolume_stopped k v s l Hl Hp).
Qed.

(** A layer playing a tone at volume 0.4, set to 0.9. *)
Lemma setLayerVolume_gain_witness :
  let random := fun _ : nat => 1 # 2 in
  let s := run random [ Initialize (Some (mkContext 44100 Running));
                        CreateLayer "music" 0.4; Tone "music" 440 ] new_AudioEngine in
  exists l,
    get_layer "music" s = Some l /\
    if isPlaying l then
      gain_value "music" (setLayerVolume "music" 0.9 s) = Some (current (gainNode l)) /\
      forall dt, 0 <= dt ->
        exists g, gain_value "music" (advance dt (setLayerVolume "music" 0.9 s)) = Some g /\
                  if Qle_bool 0.05 dt then g = 0.9
                  else g == current (gainNode l) + (0.9 - current (gainNode l)) * (dt / 0.05)
    else gain_value "music" (setLayerVolume "music" 0.9 s) = Some 0.9.
Proof.
  intros random s.
  destruct (get_layer "music" s) as [l|] eqn:Hl; [|vm_compute in Hl; discriminate].
  exists l. split; [reflexivity|].
  exact (setLayerVolume_gain "music" 0.9 s l Hl).
Defined.

Lemma advance_masterGain dt s :
  masterGain (advance dt s) = render (now s + dt) <$> masterGain s.
Proof.
  unfold advance. cbv zeta. unfold render_all. simp_state. f_equal.
  match goal with
  | |- context [fold_left ?f ?l ?s0] =>
      apply (fold_left_preserves (fun s' => masterGain s' = masterGain s))
  end.
  - by simp_state.
  - intros tm s' <-. destruct (callback tm). cbn [run_callback].
    apply _stopLayerImmediately_masterGain.
Qed.

(** X7: [setMasterVolume] on an initialized engine moves the master gain to the
    new volume on a line over 0.05 seconds, where it stays. *)
Theorem setMasterVolume_gain v s g0 dt :
  masterGain s = Some g0 -> 0 <= dt ->
  exists g, masterGain (advance dt (setMasterVolume v s)) = Some g /\
            if Qle_bool 0.05 dt then current g = v
            else current g == current g0 + (v - current g0) * (dt / 0.05).
Proof.
  intros Hg Hdt. rewrite advance_masterGain. unfold setMasterVolume. rewrite Hg. cbv zeta.
  simp_state. eexists. split; [reflexivity|].
  apply (scheduled_ramp_after (current g0) v (now s) 0.05 dt g0); [lra | done].
Qed.

(** The master gain of a just initialized engine, moved from 0.7 to 0.2. *)
Lemma setMasterVolume_gain_witness :
  let s := final (initialize (Some (mkContext 44100 Running)) new_AudioEngine) in
  let g0 := set_value 0.7 0 default_gain in
  masterGain s = Some g0 /\ 0 <= 1 /\
  exists g, masterGain (advance 1 (setMasterVolume 0.2 s)) = Some g /\
            if Qle_bool 0.05 1 then current g = 0.2
            else current g == current g0 + (0.2 - current g0) * (1 / 0.05).
Proof.
  intros s g0.
  assert (H1 : masterGain s = Some g0) by reflexivity.
  assert (H2 : 0 <= 1) by lra.
  split; [exact H1|]. split; [exact H2|].
  exact (setMasterVolume_gain 0.2 s g0 1 H1 H2).
Defined.

(** ** Fades *)

Lemma fadeIn_layer k s l :
  get_layer k s = Some l ->
  get_layer k (fadeIn k s)
  = Some (with_gainNode
            (scheduled_ramp 0 (volume l) (now s) (now s + fadeDuration (config s))
                            (gainNode l)) l) /\
  now (fadeIn k s) = now s.
Proof.
  intros Hl. unfold fadeIn. rewrite Hl. cbv zeta.
  unfold get_layer in *. simp_state. by rewrite Hl.
Qed.

Lemma fadeOut_layer k cb s l :
  get_layer k s = Some l ->
  get_layer k (fadeOut k cb s)
  = Some (with_gainNode
            (scheduled_ramp (current (gainNode l)) 0 (now s)
                            (now s + fadeDuration (config s)) (gainNode l)) l) /\
  now (fadeOut k cb s) = now s.
Proof.
  intros Hl. unfold fadeOut. rewrite Hl. cbv zeta.
  unfold get_layer in *. destruct cb; simp_state; by rewrite Hl.
Qed.

(** X8: [fadeIn] starts the layer's gain at 0 and moves it to the stored volume
    on a line over the fade duration, where it stays. *)
Theorem fadeIn_gain k s l dt :
  get_layer k s = Some l -> 0 <= fadeDuration (config s) -> 0 <= dt ->
  exists g, gain_value k (advance dt (fadeIn k s)) = Some g /\
            if Qle_bool (fadeDuration (config s)) dt then g = volume l
            else g == volume l * (dt / fadeDuration (config s)).
Proof.
  intros Hl Hfd Hdt. destruct (fadeIn_layer k s l Hl) as [Hl' Hnow].
  rewrite advance_gain_value, Hl', Hnow. cbn [fmap option_fmap option_map].
  eexists. split; [reflexivity|]. cbn [gainNode with_gainNode].
  pose proof (scheduled_ramp_after 0 (volume l) (now s) (fadeDuration (config s)) dt
                (gainNode l) Hfd Hdt) as H. cbv zeta in H.
  destruct (Qle_bool _ dt); [done|]. rewrite H. ring.
Qed.

(** A fade-in of one second on a layer of volume 0.4, seen half way. *)
Lemma fadeIn_gain_witness :
  let random := fun _ : nat => 1 # 2 in
  let s := run random [ Initialize (Some (mkContext 44100 Running));
                        CreateLayer "music" 0.4 ] new_AudioEngine in
  exists l,
    get_layer "music" s = Some l /\ 0 <= fadeDuration (config s) /\ 0 <= 1 # 2 /\
    exists g, gain_value "music" (advance (1 # 2) (fadeIn "music" s)) = Some g /\
              if Qle_bool (fadeDuration (config s)) (1 # 2) then g = volume l
              else g == volume l * ((1 # 2) / fadeDuration (config s)).
Proof.
  intros random s.
  destruct (get_layer "music" s) as [l|] eqn:Hl; [|vm_compute in Hl; discriminate].
  assert (H1 : 0 <= fadeDuration (config s)) by (vm_compute; discriminate).
  assert (H2 : 0 <= 1 # 2) by lra.
  exists l. split; [reflexivity|]. split; [exact H1|]. split; [exact H2|].
  exact (fadeIn_gain "music" s l (1 # 2) Hl H1 H2).
Defined.


(** ** Stopping a layer *)

Lemma fadeOut_pending k s l :
  get_layer k s = Some l -> 0 <= fadeDuration (config s) ->
  exists tm, In tm (timers (fadeOut k (Some (StopLayerImmediately k)) s)) /\
             callback tm = StopLayerImmediately k /\
             due tm == now s + fadeDuration (config s).
Proof.
  intros Hl Hfd. unfold fadeOut. rewrite Hl. cbv zeta.
  match goal with
  | |- context [setTimeout ?cb (fadeDuration (config ?x) * 1000) ?x] =>
      destruct (setTimeout_due cb (fadeDuration (config x)) x) as (tm & Hin & Hcb & Hdue);
        [by simp_state|]
  end.
  exists tm. simp_state. done.
Qed.

(** X9: With crossfade on, [stopLayer] leaves a playing layer playing and
    starts a fade-out from the gain's value at the call; once the fade
    duration has passed the gain is 0 and the layer is torn down. *)
Theorem stopLayer_crossfade k s l :
  get_layer k s = Some l -> isPlaying l = true ->
  enableCrossfade (config s) = true -> 0 <= fadeDuration (config s) ->
  playback_view <$> get_layer k (stopLayer k s) = Some (playback_view l) /\
  forall dt, 0 <= dt ->
    exists l', get_layer k (advance dt (stopLayer k s)) = Some l' /\
               if Qle_bool (fadeDuration (config s)) dt
               then torn_down l' /\ current (gainNode l') = 0
               else current (gainNode l')
                    == current (gainNode l) * (1 - dt / fadeDuration (config s)).
Proof.
  intros Hl Hp Hc Hfd.
  assert (Hstop : stopLayer k s = fadeOut k (Some (StopLayerImmediately k)) s)
    by (unfold stopLayer; by rewrite Hl, Hc, Hp).
  rewrite Hstop.
  destruct (fadeOut_layer k (Some (StopLayerImmediately k)) s l Hl) as [Hl' Hnow]. split.
  - by rewrite Hl'.
  - intros dt Hdt.
    pose proof (advance_gain_value dt (fadeOut k (Some (StopLayerImmediately k)) s) k)
      as Hg.
    rewrite Hl', Hnow in Hg. cbn [fmap option_fmap option_map gainNode with_gainNode] in Hg.
    pose proof (scheduled_ramp_after (current (gainNode l)) 0 (now s)
                  (fadeDuration (config s)) dt (gainNode l) Hfd Hdt) as Hr.
    cbv zeta in Hr. unfold gain_value in Hg.
    destruct (Qle_bool (fadeDuration (config s)) dt) eqn:E.
    + destruct (fadeOut_pending k s l Hl Hfd) as (tm & Hin & Hcb & Hdue).
      destruct (advance_tears_down dt _ k tm Hin Hcb) as (l2 & Hl2 & Ht).
      * rewrite Hnow, Hdue. apply Qle_bool_iff in E. lra.
      * by rewrite Hl'.
      * exists l2. split; [done|]. split; [done|].
        rewrite Hl2 in Hg. cbn in Hg. injection Hg as ->. done.
    + destruct (advance_exists dt (fadeOut k (Some (StopLayerImmediately k)) s) k)
        as [l2 Hl2]; [by rewrite Hl'|].
      exists l2. split; [done|].
      rewrite Hl2 in Hg. cbn in Hg. injection Hg as ->. rewrite Hr. ring.
Qed.

(** A layer playing a tone under the default configuration. *)
Lemma stopLayer_crossfade_witness :
  let random := fun _ : nat => 1 # 2 in
  let s := run random [ Initialize (Some (mkContext 44100 Running));
                        CreateLayer "music" 0.4; Tone "music" 440 ] new_AudioEngine in
  exists l,
    get_layer "music" s = Some l /\ isPlaying l = true /\
    enableCrossfade (config s) = true /\ 0 <= fadeDuration (config s) /\
    playback_view <$> get_layer "music" (stopLayer "music" s) = Some (playback_view l) /\
    forall dt, 0 <= dt ->
      exists l', get_layer "music" (advance dt (stopLayer "music" s)) = Some l' /\
                 if Qle_bool (fadeDuration (config s)) dt
                 then torn_down l' /\ current (gainNode l') = 0
                 else current (gainNode l')
                      == current (gainNode l) * (1 - dt / fadeDuration (config s)).
Proof.
  intros random s.
  destruct (get_layer "music" s) as [l|] eqn:Hl; [|vm_compute in Hl; discriminate].
  assert (Hp : isPlaying l = true).
  { pose proof Hl as Hl'. vm_compute in Hl'. by injection Hl' as <-. }
  assert (Hc : enableCrossfade (config s) = true) by reflexivity.
  assert (Hfd : 0 <= fadeDuration (config s)) by (vm_compute; discriminate).
  exists l. split; [reflexivity|]. split; [exact Hp|]. split; [exact Hc|].
  split; [exact Hfd|].
  exact (stopLayer_crossfade "music" s l Hl Hp Hc Hfd).
Defined.

(** X10: Without crossfade, or on a layer that is not playing, [stopLayer] tears
    the layer down at once: no timer is set and the gain is left as it is. *)
Theorem stopLayer_immediate k s l :
  get_layer k s = Some l ->
  enableCrossfade (config s) && isPlaying l = false ->
  timers (stopLayer k s) = timers s /\
  exists l', get_layer k (stopLayer k s) = Some l' /\ torn_down l' /\
             gainNode l' = gainNode l.
Proof.
  intros Hl Hc. unfold stopLayer. rewrite Hl, Hc. split.
  - apply _stopLayerImmediately_timers.
  - destruct (_stopLayerImmediately_tears_down k s l Hl) as (l' & ? & ? & ? & _).
    by exists l'.
Qed.

(** A layer playing a tone after crossfade has been switched off. *)
Lemma stopLayer_immediate_witness :
  let random := fun _ : nat => 1 # 2 in
  let s := run random [ Initialize (Some (mkContext 44100 Running));
                        CreateLayer "music" 0.4; Tone "music" 440;
                        UpdateConfig (mkPatch None (Some false) None None) ]
               new_AudioEngine in
  exists l,
    get_layer "music" s = Some l /\
    enableCrossfade (config s) && isPlaying l = false /\
    timers (stopLayer "music" s) = timers s /\
    exists l', get_layer "music" (stopLayer "music" s) = Some l' /\ torn_down l' /\
               gainNode l' = gainNode l.
Proof.
  intros random s.
  destruct (get_layer "music" s) as [l|] eqn:Hl; [|vm_compute in Hl; discriminate].
  assert (Hc : enableCrossfade (config s) && isPlaying l = false) by reflexivity.
  exists l. split; [reflexivity|]. split; [exact Hc|].
  exact (stopLayer_immediate "music" s l Hl Hc).
Defined.


(** ** A new sound on a layer that is fading out *)

Lemma resume_now s : now (resume s) = now s.
Proof. frame_tac. Qed.
Lemma _stopLayerImmediately_now k s : now (_stopLayerImmediately k s) = now s.
Proof. frame_tac. Qed.
Lemma fadeOut_now k cb s : now (fadeOut k cb s) = now s.
Proof. frame_tac. Qed.
Lemma fadeIn_now k s : now (fadeIn k s) = now s.
Proof. frame_tac. Qed.
Lemma stopLayer_now k s : now (stopLayer k s) = now s.
Proof. frame_tac. Qed.
Lemma generateTone_now k f s : now (generateTone k f s) = now s.
Proof. frame_tac. Qed.
Lemma fall_back_now k msg s : now (fall_back k msg s) = now s.
Proof. unfold fall_back. by rewrite generateTone_now. Qed.
Lemma noise_cached_now random ctx t s : now (noise_cached random ctx t s) = now s.
Proof. frame_tac. Qed.
Lemma bind_noise_now k t b s : now (snd (bind_noise k t b s)) = now s.
Proof.
  unfold bind_noise. cbn [new_node snd].
  destruct (enableCrossfade _); rewrite ?fadeIn_now; by simp_state.
Qed.
Lemma bind_audio_now k st sn p s : now (snd (bind_audio k st sn p s)) = now s.
Proof.
  unfold bind_audio. cbn [new_Audio new_node snd].
  destruct (enableCrossfade _); rewrite ?fadeIn_now; by simp_state.
Qed.

Lemma generateAndPlayNoise_now random k t s :
  now (final (generateAndPlayNoise random k t s)) = now s.
Proof.
  rewrite generateAndPlayNoise_phases.
  destruct (get_layer k s); [|done].
  destruct (audioContext s) as [ctx|]; [|done]. cbv zeta.
  pose proof (noise_cached_now random ctx t s) as H1.
  set (s1 := noise_cached random ctx t s) in *.
  destruct (noiseGenerators s1 !! t) as [b|]; [|done].
  pose proof (bind_noise_now k t b s1) as H2.
  destruct (bind_noise k t b s1) as [source s2]. cbn [snd final] in *.
  unfold start_node. simp_state. congruence.
Qed.

Lemma loadAndPlayAudio_now random outcome k st sn s :
  now (final (loadAndPlayAudio random outcome k st sn s)) = now s.
Proof.
  rewrite loadAndPlayAudio_phases.
  destruct (get_layer k (resume s)); [|cbn [final]; apply resume_now].
  cbv zeta.
  assert (H1 : now (stopLayer k (resume s)) = now s)
    by (by rewrite stopLayer_now, resume_now).
  set (s1 := stopLayer k (resume s)) in *.
  destruct (is_generated_noise st sn); [by rewrite generateAndPlayNoise_now|].
  destruct (library_path st sn) as [path|];
    [|cbn [final]; by rewrite fall_back_now].
  destruct outcome; cbn [final].
  - by rewrite fall_back_now.
  - by rewrite fall_back_now, bind_audio_now.
  - pose proof (bind_audio_now k st sn path s1) as H2.
    destruct (bind_audio k st sn path s1) as [audio s2]. cbn [snd final] in *.
    unfold set_audio_playing. simp_state. congruence.
Qed.

Lemma isPlaying_ignores_gain : ignores_gain isPlaying.
Proof. by intros l g. Qed.

Lemma bind_noise_isPlaying k t b s :
  isPlaying <$> get_layer k (snd (bind_noise k t b s))
  = (fun _ => true) <$> get_layer k s.
Proof.
  unfold bind_noise. cbn [new_node snd].
  destruct (enableCrossfade _);
    rewrite ?(fadeIn_proj isPlaying) by apply isPlaying_ignores_gain;
    unfold get_layer; simp_state; by destruct (layers_get (layers s) k).
Qed.

Lemma bind_audio_isPlaying k st sn p s :
  isPlaying <$> get_layer k (snd (bind_audio k st sn p s))
  = isPlaying <$> get_layer k s.
Proof.
  unfold bind_audio. cbn [new_Audio new_node snd].
  destruct (enableCrossfade _);
    rewrite ?(fadeIn_proj isPlaying) by apply isPlaying_ignores_gain;
    unfold get_layer; simp_state; by destruct (layers_get (layers s) k).
Qed.

Lemma generateTone_isPlaying k f s :
  isPlaying <$> get_layer k (generateTone k f s) = (fun _ => true) <$> get_layer k s.
Proof.
  unfold generateTone. destruct (get_layer k s) as [l|] eqn:Hl; [|by rewrite Hl].
  cbn [new_node]. unfold get_layer in *. simp_state. by rewrite Hl.
Qed.

Lemma fall_back_isPlaying k msg s :
  isPlaying <$> get_layer k (fall_back k msg s) = (fun _ => true) <$> get_layer k s.
Proof. unfold fall_back. rewrite generateTone_isPlaying. unfold get_layer. by simp_state. Qed.

(** A layer that plays before [generateAndPlayNoise] plays after it. *)
Lemma generateAndPlayNoise_isPlaying random k t s :
  isPlaying <$> get_layer k s = Some true ->
  isPlaying <$> get_layer k (final (generateAndPlayNoise random k t s)) = Some true.
Proof.
  intros Hp. rewrite generateAndPlayNoise_phases.
  destruct (get_layer k s) as [l|] eqn:Hl; [|done].
  destruct (audioContext s) as [ctx|]; [|cbn [final]; by rewrite Hl]. cbv zeta.
  assert (H1 : get_layer k (noise_cached random ctx t s) = Some l)
    by (unfold get_layer in *; by rewrite noise_cached_layers).
  set (s1 := noise_cached random ctx t s) in *.
  destruct (noiseGenerators s1 !! t) as [b|]; [|cbn [final]; by rewrite H1].
  pose proof (bind_noise_isPlaying k t b s1) as H2. rewrite H1 in H2.
  destruct (bind_noise k t b s1) as [source s2]. cbn [snd final] in *.
  unfold get_layer, start_node in *. simp_state. by rewrite H2.
Qed.

(** With crossfade on, a layer that plays before [loadAndPlayAudio] plays
    right after it, whatever becomes of the new sound. *)
Lemma loadAndPlayAudio_isPlaying random outcome k st sn s l :
  get_layer k s = Some l -> isPlaying l = true -> enableCrossfade (config s) = true ->
  isPlaying <$> get_layer k (final (loadAndPlayAudio random outcome k st sn s))
  = Some true.
Proof.
  intros Hl Hp Hc. rewrite loadAndPlayAudio_phases.
  assert (Hr : get_layer k (resume s) = Some l)
    by (unfold get_layer in *; by rewrite resume_layers).
  rewrite Hr. cbv zeta.
  assert (H1 : isPlaying <$> get_layer k (stopLayer k (resume s)) = Some true).
  { unfold stopLayer. rewrite Hr, resume_config, Hc, Hp. cbn [andb].
    rewrite (fadeOut_proj isPlaying) by apply isPlaying_ignores_gain.
    by rewrite Hr; cbn; rewrite Hp. }
  set (s1 := stopLayer k (resume s)) in *.
  destruct (is_generated_noise st sn); [by apply generateAndPlayNoise_isPlaying|].
  assert (Hex : (fun _ : Layer => true) <$> get_layer k s1 = Some true)
    by (destruct (get_layer k s1); done).
  destruct (library_path st sn) as [path|];
    [|cbn [final]; by rewrite fall_back_isPlaying].
  pose proof (bind_audio_isPlaying k st sn path s1) as H2.
  destruct outcome; cbn [final].
  - by rewrite fall_back_isPlaying.
  - rewrite fall_back_isPlaying.
    destruct (get_layer k (snd (bind_audio k st sn path s1))); [done|].
    rewrite H1 in H2. done.
  - destruct (bind_audio k st sn path s1) as [audio s2]. cbn [snd final] in *.
    rewrite H1 in H2. unfold get_layer, set_audio_playing in *. simp_state.
    by destruct (layers_get (layers s2) k).
Qed.

Lemma loadAndPlayAudio_pending random outcome k st sn s l :
  get_layer k s = Some l -> isPlaying l = true -> enableCrossfade (config s) = true ->
  0 <= fadeDuration (config s) ->
  exists tm, In tm (timers (final (loadAndPlayAudio random outcome k st sn s))) /\
             callback tm = StopLayerImmediately k /\
             due tm == now s + fadeDuration (config s).
Proof.
  intros Hl Hp Hc Hfd. rewrite loadAndPlayAudio_phases.
  assert (Hr : get_layer k (resume s) = Some l)
    by (unfold get_layer in *; by rewrite resume_layers).
  rewrite Hr. cbv zeta.
  assert (H1 : exists tm, In tm (timers (stopLayer k (resume s))) /\
                          callback tm = StopLayerImmediately k /\
                          due tm == now s + fadeDuration (config s)).
  { unfold stopLayer. rewrite Hr, resume_config, Hc, Hp. cbn [andb].
    destruct (fadeOut_pending k (resume s) l Hr) as (tm & ? & ? & Hdue);
      [by rewrite resume_config|].
    exists tm. by rewrite resume_now, resume_config in Hdue. }
  set (s1 := stopLayer k (resume s)) in *.
  destruct H1 as (tm & Hin & Hcb & Hdue). exists tm. split; [|done].
  destruct (is_generated_noise st sn); [by rewrite generateAndPlayNoise_timers|].
  destruct (library_path st sn) as [path|];
    [|cbn [final]; by rewrite fall_back_timers].
  destruct outcome; cbn [final].
  - by rewrite fall_back_timers.
  - by rewrite fall_back_timers, bind_audio_timers.
  - pose proof (bind_audio_timers k st sn path s1) as H2.
    destruct (bind_audio k st sn path s1) as [audio s2]. cbn [snd final] in *.
    unfold set_audio_playing. simp_state. by rewrite H2.
Qed.

(** X11: With crossfade on, starting a sound on a layer that is playing never
    lasts: right after [loadAndPlayAudio] the layer plays, but the teardown
    that the fade-out of the old sound has scheduled stays pending, and once
    the fade duration has passed the layer is torn down, whatever sound was
    asked for and whatever became of it. *)
Theorem replacing_a_playing_sound_ends_torn_down random outcome k st sn s l dt :
  get_layer k s = Some l -> isPlaying l = true ->
  enableCrossfade (config s) = true ->
  0 <= fadeDuration (config s) -> fadeDuration (config s) <= dt ->
  let s1 := exec random (Play outcome k st sn) s in
  isPlaying <$> get_layer k s1 = Some true /\
  exists l', get_layer k (exec random (Advance dt) s1) = Some l' /\ torn_down l'.
Proof.
  intros Hl Hp Hc Hfd Hdt s1. unfold s1. cbn [exec]. split.
  - by apply (loadAndPlayAudio_isPlaying random outcome k st sn s l).
  - destruct (loadAndPlayAudio_pending random outcome k st sn s l Hl Hp Hc Hfd)
      as (tm & Hin & Hcb & Hdue).
    apply (advance_tears_down dt _ k tm Hin Hcb).
    + rewrite loadAndPlayAudio_now, Hdue. lra.
    + pose proof (loadAndPlayAudio_isPlaying random outcome k st sn s l Hl Hp Hc) as H.
      match type of H with _ <$> ?x = _ => destruct x end; [by eexists | done].
Qed.

(** Rain plays for two seconds, then forest is started on the same layer. *)
Lemma replacing_a_playing_sound_ends_torn_down_witness :
  let random := fun _ : nat => 1 # 2 in
  let s := run random [ Initialize (Some (mkContext 44100 Running));
                        CreateLayer "nature" 0.6;
                        Play PlayResolves "nature" "nature" "rain"; Advance 2 ]
               new_AudioEngine in
  let s1 := exec random (Play PlayResolves "nature" "nature" "forest") s in
  exists l,
    get_layer "nature" s = Some l /\ isPlaying l = true /\
    enableCrossfade (config s) = true /\
    0 <= fadeDuration (config s) /\ fadeDuration (config s) <= 1 /\
    isPlaying <$> get_layer "nature" s1 = Some true /\
    exists l', get_layer "nature" (exec random (Advance 1) s1) = Some l' /\ torn_down l'.
Proof.
  intros random s s1.
  destruct (get_layer "nature" s) as [l|] eqn:Hl; [|vm_compute in Hl; discriminate].
  assert (Hp : isPlaying l = true).
  { pose proof Hl as Hl'. vm_compute in Hl'. by injection Hl' as <-. }
  assert (Hc : enableCrossfade (config s) = true) by reflexivity.
  assert (Hfd : 0 <= fadeDuration (config s)) by (vm_compute; discriminate).
  assert (Hdt : fadeDuration (config s) <= 1) by (vm_compute; discriminate).
  exists l. split; [reflexivity|]. split; [exact Hp|]. split; [exact Hc|].
  split; [exact Hfd|]. split; [exact Hdt|].
  exact (replacing_a_playing_sound_ends_torn_down random PlayResolves "nature" "nature"
           "forest" s l 1 Hl Hp Hc Hfd Hdt).
Defined.


(** ** Stopping every layer *)

Lemma stopAll_fold s : stopAll s = fold_left stopAll_step (layer_ids s) s.
Proof. reflexivity. Qed.

Lemma stopAll_step_config s k : config (stopAll_step s k) = config s.
Proof. unfold stopAll_step. repeat case_match; try done. apply stopLayer_config. Qed.

Lemma stopAll_step_now s k : now (stopAll_step s k) = now s.
Proof. unfold stopAll_step. repeat case_match; try done. apply stopLayer_now. Qed.

Lemma stopAll_step_exists s k k' :
  is_Some (get_layer k' s) -> is_Some (get_layer k' (stopAll_step s k)).
Proof. unfold stopAll_step. repeat case_match; try done. apply stopLayer_exists. Qed.

Lemma stopAll_step_keeps s k k' t : stopping k' t s -> stopping k' t (stopAll_step s k).
Proof.
  intros [Hex Hs]. split; [by apply stopAll_step_exists|].
  unfold stopAll_step. destruct (get_layer k s) as [l|] eqn:Hl; [|done].
  destruct (isPlaying l) eqn:Hp; [|done].
  destruct Hs as [Hs|(tm & Hin & Hcb & Hdue)].
  - destruct (String.eqb_spec k k') as [->|Hne].
    + rewrite Hl in Hs. cbn in Hs. congruence.
    + left. by rewrite stopLayer_local.
  - right. exists tm. split; [|done]. by apply stopLayer_keeps_timers.
Qed.

Lemma stopAll_step_stops s k t :
  is_Some (get_layer k s) -> 0 <= fadeDuration (config s) ->
  now s + fadeDuration (config s) <= t ->
  stopping k t (stopAll_step s k).
Proof.
  intros [l Hl] Hfd Ht. split; [apply stopAll_step_exists; by rewrite Hl|].
  unfold stopAll_step. rewrite Hl. destruct (isPlaying l) eqn:Hp.
  - unfold stopLayer. rewrite Hl, Hp. destruct (enableCrossfade (config s)); cbn [andb].
    + right. destruct (fadeOut_pending k s l Hl Hfd) as (tm & Hin & Hcb & Hdue).
      exists tm. split; [done|]. split; [done|]. rewrite Hdue. done.
    + left. destruct (_stopLayerImmediately_tears_down k s l Hl) as (l' & -> & Ht' & _).
      cbn. by destruct Ht' as [-> _].
  - left. by rewrite Hl; cbn; rewrite Hp.
Qed.

Lemma fold_stopAll_step_keeps ks k t : forall s,
  stopping k t s -> stopping k t (fold_left stopAll_step ks s).
Proof.
  induction ks as [|k0 ks IH]; intros s Hs; [done|].
  cbn [fold_left]. by apply IH, stopAll_step_keeps.
Qed.

Lemma fold_stopAll_step_stops ks t k : forall s,
  k ∈ ks -> (forall k', k' ∈ ks -> is_Some (get_layer k' s)) ->
  0 <= fadeDuration (config s) -> now s + fadeDuration (config s) <= t ->
  stopping k t (fold_left stopAll_step ks s).
Proof.
  induction ks as [|k0 ks IH]; intros s Hin Hex Hfd Ht; [by apply elem_of_nil in Hin|].
  cbn [fold_left]. apply elem_of_cons in Hin as [->|Hin].
  - apply fold_stopAll_step_keeps, stopAll_step_stops; [|done..].
    apply Hex. by left.
  - apply IH; [done| | |].
    + intros k' Hk'. apply stopAll_step_exists, Hex. by right.
    + by rewrite stopAll_step_config.
    + by rewrite stopAll_step_config, stopAll_step_now.
Qed.

Lemma stopAll_stopping s k :
  k ∈ layer_ids s -> 0 <= fadeDuration (config s) ->
  stopping k (now s + fadeDuration (config s)) (stopAll s).
Proof.
  intros Hk Hfd. rewrite stopAll_fold. apply fold_stopAll_step_stops; try done.
  - intros k' Hk'. destruct (get_layer k' s) eqn:E; [done|].
    by apply get_layer_None_ids in E.
  - apply Qle_refl.
Qed.

Lemma not_playing_stays k k' s :
  isPlaying <$> get_layer k s = Some false ->
  isPlaying <$> get_layer k (_stopLayerImmediately k' s) = Some false.
Proof.
  intros Hp. destruct (String.eqb_spec k' k) as [->|Hne].
  - destruct (get_layer k s) as [l|] eqn:Hl; [|done].
    destruct (_stopLayerImmediately_tears_down k s l Hl) as (l' & -> & Ht & _).
    cbn. by destruct Ht as [-> _].
  - by rewrite _stopLayerImmediately_local.
Qed.

Lemma advance_not_playing dt s k :
  isPlaying <$> get_layer k s = Some false ->
  isPlaying <$> get_layer k (advance dt s) = Some false.
Proof.
  intros Hp. unfold advance. cbv zeta. rewrite get_layer_render_all.
  rewrite fmap_proj_with by done.
  match goal with
  | |- context [fold_left ?f ?l ?s0] =>
      assert (Hx : isPlaying <$> get_layer k (fold_left f l s0) = Some false)
  end.
  { apply (fold_left_preserves (fun s' => isPlaying <$> get_layer k s' = Some false)).
    - unfold get_layer in *. by simp_state.
    - intros tm s' Hs'. destruct (callback tm). by apply not_playing_stays. }
  unfold get_layer in *. by simp_state.
Qed.

Lemma advance_stopped dt s k t :
  stopping k t s -> t <= now s + dt ->
  isPlaying <$> get_layer k (advance dt s) = Some false.
Proof.
  intros [Hex [Hp|(tm & Hin & Hcb & Hdue)]] Ht.
  - by apply advance_not_playing.
  - destruct (advance_tears_down dt s k tm Hin Hcb) as (l' & -> & Htd & _);
      [lra | done |].
    cbn. by rewrite Htd.
Qed.

Lemma layers_get_In ls k l :
  NoDup (map fst ls) -> In (k, l) ls -> layers_get ls k = Some l.
Proof.
  induction ls as [|[k0 l0] ls IH]; cbn; [done|].
  intros [Hk0 Hnd]%NoDup_cons [[= -> ->]|Hin].
  - by rewrite String.eqb_refl.
  - destruct (String.eqb_spec k0 k) as [->|Hne]; [|by apply IH].
    exfalso. apply Hk0. apply list_elem_of_fmap. exists (k, l). split; [done|].
    by apply list_elem_of_In.
Qed.

(** X12: When no two layers share an id, [stopAll] followed by the fade duration
    leaves no layer playing. *)
Theorem stopAll_stops_every_layer s dt :
  NoDup (layer_ids s) ->
  0 <= fadeDuration (config s) -> fadeDuration (config s) <= dt ->
  getActiveLayersCount (advance dt (stopAll s)) = 0%nat.
Proof.
  intros Hnd Hfd Hdt. unfold getActiveLayersCount.
  set (s' := advance dt (stopAll s)).
  assert (Hids : layer_ids s' = layer_ids s)
    by (unfold s'; by rewrite advance_ids, stopAll_ids).
  assert (Hall : forall kl, In kl (layers s') -> isPlaying (snd kl) = false).
  { intros [k l] Hin. cbn.
    assert (Hl : get_layer k s' = Some l).
    { apply layers_get_In; [|done]. fold (layer_ids s'). by rewrite Hids. }
    assert (Hk : k ∈ layer_ids s).
    { rewrite <- Hids. apply list_elem_of_fmap. exists (k, l). split; [done|].
      by apply list_elem_of_In. }
    pose proof (advance_stopped dt (stopAll s) k _ (stopAll_stopping s k Hk Hfd)) as H.
    fold s' in H. rewrite Hl in H. cbn in H.
    assert (Hn : now (stopAll s) = now s).
    { rewrite stopAll_fold. apply (fold_left_preserves (fun x => now x = now s)); [done|].
      intros k' x <-. apply stopAll_step_now. }
    rewrite Hn in H. injection H; [done | lra]. }
  induction (layers s') as [|kl ls IH]; [done|].
  cbn [List.filter]. rewrite (Hall kl) by (by left).
  apply IH. intros kl' Hin. apply Hall. by right.
Qed.

(** Two playing layers, stopped together, one second later. *)
Lemma stopAll_stops_every_layer_witness :
  let random := fun _ : nat => 1 # 2 in
  let s := run random [ Initialize (Some (mkContext 44100 Running));
                        CreateLayer "nature" 0.6; CreateLayer "music" 0.4;
                        Play PlayResolves "nature" "nature" "rain";
                        Tone "music" 440; Advance 2 ] new_AudioEngine in
  NoDup (layer_ids s) /\
  0 <= fadeDuration (config s) /\ fadeDuration (config s) <= 1 /\
  getActiveLayersCount s = 2%nat /\
  getActiveLayersCount (advance 1 (stopAll s)) = 0%nat.
Proof.
  intros random s.
  assert (Hnd : NoDup (layer_ids s)).
  { change (layer_ids s) with ["nature"; "music"]%string.
    apply NoDup_cons. split; [|apply NoDup_singleton].
    intros H%list_elem_of_singleton. discriminate. }
  assert (Hfd : 0 <= fadeDuration (config s)) by (vm_compute; discriminate).
  assert (Hdt : fadeDuration (config s) <= 1) by (vm_compute; discriminate).
  split; [exact Hnd|]. split; [exact Hfd|]. split; [exact Hdt|].
  split; [vm_compute; reflexivity|].
  exact (stopAll_stops_every_layer s 1 Hnd Hfd Hdt).
Defined.


(** * Configuration changes *)

Lemma fold_left_visits {A S} (P I : S -> Prop) (f : S -> A -> S) (x : A) xs : forall s,
  x ∈ xs -> I s ->
  (forall y s', I s' -> I (f s' y)) ->
  (forall s', I s' -> P (f s' x)) ->
  (forall y s', I s' -> P s' -> P (f s' y)) ->
  P (fold_left f xs s).
Proof.
  induction xs as [|x0 xs IH]; intros s Hin Hs HI Hx HP; [by apply elem_of_nil in Hin|].
  cbn [fold_left]. apply elem_of_cons in Hin as [->|Hin].
  - assert (H : I (f s x0) /\ P (f s x0)) by (split; [by apply HI | by apply Hx]).
    revert H. generalize (f s x0). clear -HI HP.
    induction xs as [|x1 xs IH]; intros s' [Hi Hp]; [done|].
    cbn [fold_left]. apply IH. split; [by apply HI | by apply HP].
  - apply IH; try done. by apply HI.
Qed.

Lemma get_layer_Some_ids k s l : get_layer k s = Some l -> k ∈ layer_ids s.
Proof.
  intros Hl. destruct (decide (k ∈ layer_ids s)) as [|Hn]; [done|].
  apply get_layer_None_ids in Hn. congruence.
Qed.

(** X13: [updateConfig] with a [loopLayers] option sets the loop flag of the
    audio element of every layer that has one, and leaves the rest of the
    element as it is. *)
Theorem updateConfig_loopLayers_reaches_bound_elements p v s k l a el :
  patch_loopLayers p = Some v ->
  get_layer k s = Some l -> audioElement l = Some a -> audios s !! a = Some el ->
  get_layer k (updateConfig p s) = Some l /\
  audios (updateConfig p s) !! a = Some (mkAudio (src el) v (paused el)).
Proof.
  intros Hp Hl Ha Hel. unfold updateConfig. cbv zeta. rewrite Hp.
  match goal with
  | |- context [forEach_layer ?f ?s0] =>
      set (step := f); set (s1 := s0);
      pose (I := fun s' : State =>
                   layers s' = layers s /\
                   (audios s' !! a = Some el \/
                    audios s' !! a = Some (mkAudio (src el) v (paused el))))
  end.
  assert (Hstep : forall k' s', I s' ->
            I (match get_layer k' s' with Some l' => step k' l' s' | None => s' end)).
  { intros k' s' [HL HA]. destruct (get_layer k' s') as [l'|]; [|done].
    unfold step. destruct (audioElement l') as [a'|]; [|done].
    split; [by simp_state|]. unfold set_audio_loop. simp_state.
    destruct (decide (a' = a)) as [->|Hne].
    - right. rewrite lookup_alter_eq. by destruct HA as [-> | ->].
    - by rewrite lookup_alter_ne. }
  assert (HI1 : I s1) by (split; [by unfold s1; simp_state | left; by unfold s1; simp_state]).
  split.
  - unfold get_layer in *. rewrite <- Hl. f_equal.
    apply (forEach_layer_preserves (fun s' => layers s' = layers s));
      [by unfold s1; simp_state|].
    intros k' l' s' HL. unfold step. destruct (audioElement l'); [|done]. by simp_state.
  - unfold forEach_layer.
    apply (fold_left_visits
             (fun s' => audios s' !! a = Some (mkAudio (src el) v (paused el))) I _ k).
    + change (k ∈ layer_ids s1). apply (get_layer_Some_ids k s1 l).
      unfold get_layer in *. by unfold s1; simp_state.
    + done.
    + intros k' s' Hs'. by apply Hstep.
    + intros s' [HL HA]. unfold get_layer. rewrite HL. unfold get_layer in Hl. rewrite Hl.
      unfold step. rewrite Ha. unfold set_audio_loop. simp_state.
      rewrite lookup_alter_eq. by destruct HA as [-> | ->].
    + intros k' s' Hs' HP. destruct (Hstep k' s' Hs') as [_ [H|H]]; [|done].
      destruct Hs' as [HL HA].
      destruct (get_layer k' s') as [l'|]; [|done].
      unfold step in *. destruct (audioElement l') as [a'|]; [|done].
      unfold set_audio_loop in *. simp_state.
      destruct (decide (a' = a)) as [->|Hne].
      * rewrite lookup_alter_eq, HP. done.
      * by rewrite lookup_alter_ne.
Qed.

(** Looping is switched off while a layer plays a looping file. *)
Lemma updateConfig_loopLayers_reaches_bound_elements_witness :
  let random := fun _ : nat => 1 # 2 in
  let s := run random [ Initialize (Some (mkContext 44100 Running));
                        CreateLayer "nature" 0.6;
                        Play PlayResolves "nature" "nature" "rain" ] new_AudioEngine in
  let p := mkPatch None None (Some false) None in
  let el := mkAudio "assets/audio/nature/rain.mp3" true false in
  exists l,
    patch_loopLayers p = Some false /\ get_layer "nature" s = Some l /\
    audioElement l = Some 0%nat /\ audios s !! 0%nat = Some el /\
    get_layer "nature" (updateConfig p s) = Some l /\
    audios (updateConfig p s) !! 0%nat = Some (mkAudio (src el) false (paused el)).
Proof.
  intros random s p el.
  destruct (get_layer "nature" s) as [l|] eqn:Hl; [|vm_compute in Hl; discriminate].
  assert (Ha : audioElement l = Some 0%nat).
  { pose proof Hl as Hl'. vm_compute in Hl'. by injection Hl' as <-. }
  assert (Hel : audios s !! 0%nat = Some el) by (vm_compute; reflexivity).
  exists l. split; [reflexivity|]. split; [reflexivity|]. split; [exact Ha|].
  split; [exact Hel|].
  exact (updateConfig_loopLayers_reaches_bound_elements p false s "nature" l 0%nat el
           eq_refl Hl Ha Hel).
Defined.


(** * Disposal *)

Lemma fadeOut_audios k cb s : audios (fadeOut k cb s) = audios s.
Proof. frame_tac. Qed.
Lemma fadeOut_nodes k cb s : nodes (fadeOut k cb s) = nodes s.
Proof. frame_tac. Qed.

Lemma stopAll_crossfade_stores s :
  enableCrossfade (config s) = true ->
  audios (stopAll s) = audios s /\ nodes (stopAll s) = nodes s.
Proof.
  intros Hc. rewrite stopAll_fold.
  apply (fold_left_preserves
           (fun s' => config s' = config s /\ audios s' = audios s /\ nodes s' = nodes s))
    ; [done|].
  intros k s' (Hcfg & <- & <-). split; [by rewrite stopAll_step_config|].
  unfold stopAll_step. destruct (get_layer k s') as [l|] eqn:Hl; [|done].
  destruct (isPlaying l) eqn:Hp; [|done].
  unfold stopLayer. rewrite Hl, Hp, Hcfg, Hc. cbn [andb].
  by rewrite fadeOut_audios, fadeOut_nodes.
Qed.

Lemma dispose_stores s :
  audios (dispose s) = audios (stopAll s) /\ nodes (dispose s) = nodes (stopAll s).
Proof. unfold dispose. cbv zeta. case_match; simp_state; done. Qed.

Lemma exec_blank_stores random c s :
  blank s -> is_initialize c = false ->
  audios (exec random c s) = audios s /\ nodes (exec random c s) = nodes s.
Proof.
  intros Hb Hc. destruct c; try done; cbn [exec].
  - unfold resume. repeat case_match; by simp_state.
  - unfold createLayer. destruct Hb as [-> _]. done.
  - unfold loadAndPlayAudio.
    rewrite (blank_get_layer _ _ (blank_resume s Hb)). cbn [final].
    unfold resume. repeat case_match; by simp_state.
  - unfold generateAndPlayNoise. by rewrite blank_get_layer.
  - unfold generateTone. by rewrite blank_get_layer.
  - unfold stopLayer. by rewrite blank_get_layer.
  - unfold stopAll. by rewrite blank_forEach_layer.
  - unfold playAll. by rewrite blank_forEach_layer.
  - unfold setLayerVolume. by rewrite blank_get_layer.
  - unfold setMasterVolume. destruct (masterGain s); by simp_state.
  - unfold updateConfig. cbv zeta.
    match goal with
    | |- context [set_config ?c s] => assert (Hc' : blank (set_config c s))
        by (revert Hb; apply blank_frame; simp_state; done)
    end.
    destruct (patch_loopLayers p); [|by simp_state].
    rewrite blank_forEach_layer by done. by simp_state.
  - destruct (dispose_stores s) as [-> ->]. unfold stopAll.
    by rewrite blank_forEach_layer.
  - unfold advance. cbv zeta. unfold render_all. simp_state.
    match goal with
    | |- context [fold_left ?f ?l ?s0] =>
        apply (fold_left_preserves
                 (fun s' => layers s' = [] /\ audios s' = audios s /\ nodes s' = nodes s)
                 f l s0)
    end.
    + destruct Hb as [_ Hl]. by simp_state.
    + intros tm s' (Hl & <- & <-). destruct (callback tm) as [k]. cbn [run_callback].
      unfold _stopLayerImmediately, get_layer. by rewrite Hl.
Qed.

(** X14: With crossfade on, [dispose] pauses no audio element and stops no source
    node, and nothing does until the engine is initialized again: the
    teardowns it has scheduled find the registry empty. *)
Theorem dispose_with_crossfade_stops_no_source random cs s :
  enableCrossfade (config s) = true ->
  forallb (fun c => negb (is_initialize c)) cs = true ->
  audios (run random cs (dispose s)) = audios s /\
  nodes (run random cs (dispose s)) = nodes s.
Proof.
  intros Hc Hcs.
  destruct (stopAll_crossfade_stores s Hc) as [Ha Hn].
  destruct (dispose_stores s) as [Ha' Hn']. rewrite <- Ha, <- Hn, <- Ha', <- Hn'.
  pose proof (dispose_blank s) as Hb. revert Hb Hcs. generalize (dispose s). clear.
  unfold run. induction cs as [|c cs IH]; intros s Hb Hcs; [done|].
  cbn [forallb] in Hcs. apply andb_prop in Hcs as [Hc Hcs]. cbn [fold_left].
  assert (Hc' : is_initialize c = false) by (by destruct (is_initialize c)).
  destruct (exec_blank_stores random c s Hb Hc') as [<- <-].
  apply IH; [by apply exec_blank | done].
Qed.

(** An engine disposed while a file plays: five seconds and two stop calls
    later the element is still not paused. *)
Lemma dispose_with_crossfade_stops_no_source_witness :
  let random := fun _ : nat => 1 # 2 in
  let s := run random [ Initialize (Some (mkContext 44100 Running));
                        CreateLayer "nature" 0.6;
                        Play PlayResolves "nature" "nature" "rain" ] new_AudioEngine in
  let cs := [ Advance 5; Stop "nature"; StopAll ] in
  enableCrossfade (config s) = true /\
  forallb (fun c => negb (is_initialize c)) cs = true /\
  paused <$> audios s !! 0%nat = Some false /\
  audios (run random cs (dispose s)) = audios s /\
  nodes (run random cs (dispose s)) = nodes s.
Proof.
  intros random s cs.
  assert (Hc : enableCrossfade (config s) = true) by reflexivity.
  assert (Hcs : forallb (fun c => negb (is_initialize c)) cs = true) by reflexivity.
  split; [exact Hc|]. split; [exact Hcs|]. split; [vm_compute; reflexivity|].
  exact (dispose_with_crossfade_stops_no_source random cs s Hc Hcs).
Defined.

(** * Errors *)



(** * Creating layers and playing files *)

(** X16: On an initialized engine, [createLayer] registers a stopped layer with
    the given volume under a new id, its gain set to that volume, and leaves
    a layer that exists under the id as it is, volume included. *)
Theorem createLayer_registers_or_keeps k v s :
  isInitialized s = true ->
  match get_layer k s with
  | Some l => get_layer k (final (createLayer k v s)) = Some l
  | None =>
      getLayerInfo k (final (createLayer k v s)) = Some (mkInfo k false None v) /\
      gain_value k (final (createLayer k v s)) = Some v
  end.
Proof.
  intros Hi. destruct (get_layer k s) as [l|] eqn:Hl.
  - unfold createLayer. rewrite Hi, Hl. cbn [negb final].
    unfold get_layer in *. by simp_state.
  - unfold getLayerInfo, gain_value. by rewrite (createLayer_new k v s Hi Hl).
Qed.

(** A first layer on a just initialized engine. *)
Lemma createLayer_registers_or_keeps_witness :
  let s := final (initialize (Some (mkContext 44100 Running)) new_AudioEngine) in
  isInitialized s = true /\
  getLayerInfo "music" (final (createLayer "music" 0.4 s))
    = Some (mkInfo "music" false None 0.4) /\
  gain_value "music" (final (createLayer "music" 0.4 s)) = Some 0.4.
Proof.
  intros s.
  assert (Hi : isInitialized s = true) by reflexivity.
  split; [exact Hi|].
  exact (createLayer_registers_or_keeps "music" 0.4 s Hi).
Defined.

(** X17: [initialize] on an initialized engine does nothing: the audio context
    and the master gain of the first call stay. *)
Theorem initialize_only_once ctx created s :
  isInitialized s = false ->
  let s1 := final (initialize (Some ctx) s) in
  isInitialized s1 = true /\ audioContext s1 = Some ctx /\
  initialize created s1 = Normal s1.
Proof.
  intros Hi s1.
  assert (Hs1 : s1 = log LogInfo "Audio Engine initialized successfully"
                       (set_isInitialized true
                          (set_masterGain (Some (set_value 0.7 (now s) default_gain))
                             (set_audioContext (Some ctx) s))))
    by (unfold s1, initialize; by rewrite Hi).
  clearbody s1.
  assert (H1 : isInitialized s1 = true) by (rewrite Hs1; by simp_state).
  assert (H2 : audioContext s1 = Some ctx) by (rewrite Hs1; by simp_state).
  split; [done|]. split; [done|]. unfold initialize. by rewrite H1.
Qed.

(** A second [initialize] that would be handed another context. *)
Lemma initialize_only_once_witness :
  let ctx := mkContext 44100 Running in
  let s1 := final (initialize (Some ctx) new_AudioEngine) in
  isInitialized new_AudioEngine = false /\
  isInitialized s1 = true /\ audioContext s1 = Some ctx /\
  initialize (Some (mkContext 48000 Suspended)) s1 = Normal s1.
Proof.
  intros ctx s1.
  assert (Hi : isInitialized new_AudioEngine = false) by reflexivity.
  split; [exact Hi|].
  exact (initialize_only_once ctx (Some (mkContext 48000 Suspended)) new_AudioEngine Hi).
Defined.

Lemma stopLayer_next_id k s : next_id (stopLayer k s) = next_id s.
Proof. frame_tac. Qed.
Lemma resume_next_id s : next_id (resume s) = next_id s.
Proof. frame_tac. Qed.
Lemma stopLayer_audios_fresh k s a :
  audios s !! a = None -> audios (stopLayer k s) !! a = None.
Proof.
  intros Ha. unfold stopLayer, fadeOut, _stopLayerImmediately, pause_audio.
  repeat case_match; simp_state; rewrite ?lookup_alter_None; done.
Qed.

Lemma fadeIn_audios k s : audios (fadeIn k s) = audios s.
Proof. frame_tac. Qed.


Lemma bound_view_ignores_gain : ignores_gain bound_view.
Proof. by intros l g. Qed.

Lemma bind_audio_binds k st sn path s l :
  get_layer k s = Some l ->
  let a := next_id s in
  let n := S (next_id s) in
  let s' := snd (bind_audio k st sn path s) in
  fst (bind_audio k st sn path s) = a /\
  bound_view <$> get_layer k s'
  = Some (Some a, Some n, Some (st +:+ "/" +:+ sn), isPlaying l, volume l) /\
  audios s' = <[a := mkAudio path (loopLayers (config s)) true]> (audios s) /\
  nodes s' = <[n := mkNode (MediaElementSource a) Unscheduled k]> (nodes s).
Proof.
  intros Hl. cbv zeta. unfold bind_audio. cbn [new_Audio new_node fst snd].
  split; [done|]. split; [|split].
  - destruct (enableCrossfade _);
      rewrite ?(fadeIn_proj bound_view) by apply bound_view_ignores_gain;
      unfold get_layer in *; simp_state; by rewrite Hl.
  - destruct (enableCrossfade _); rewrite ?fadeIn_audios; unfold set_audio_loop;
      simp_state; by rewrite alter_insert_eq.
  - destruct (enableCrossfade _); unfold set_audio_loop; by simp_state.
Qed.

(** X18: When [audio.play()] resolves for a sound of the library, the layer is
    bound to a new, playing audio element for the library's path, looping as
    the configuration says, and to a media-element source for it; the layer
    plays, remembers the sound and keeps its volume. *)
Theorem loadAndPlayAudio_plays_library_file random k st sn s l path :
  get_layer k s = Some l ->
  is_generated_noise st sn = false -> library_path st sn = Some path ->
  let r := loadAndPlayAudio random PlayResolves k st sn s in
  let a := next_id s in
  returns r = true /\
  bound_view <$> get_layer k (final r)
  = Some (Some a, Some (S a), Some (st +:+ "/" +:+ sn), true, volume l) /\
  audios (final r) !! a = Some (mkAudio path (loopLayers (config s)) false) /\
  nodes (final r) !! S a = Some (mkNode (MediaElementSource a) Unscheduled k).
Proof.
  intros Hl Hnoise Hpath. cbv zeta. rewrite loadAndPlayAudio_phases.
  assert (Hr : get_layer k (resume s) = Some l)
    by (unfold get_layer in *; by rewrite resume_layers).
  rewrite Hr, Hnoise, Hpath. cbv zeta.
  assert (Hid : next_id (stopLayer k (resume s)) = next_id s)
    by (by rewrite stopLayer_next_id, resume_next_id).
  assert (Hcfg : config (stopLayer k (resume s)) = config s)
    by (by rewrite stopLayer_config, resume_config).
  assert (Hvol : volume <$> get_layer k (stopLayer k (resume s)) = Some (volume l)).
  { rewrite (stopLayer_proj volume), Hr;
      [done | apply volume_ignores_playback | apply volume_ignores_gain]. }
  set (s1 := stopLayer k (resume s)) in *.
  destruct (get_layer k s1) as [l1|] eqn:Hl1; [|done]. injection Hvol as Hvol.
  destruct (bind_audio_binds k st sn path s1 l1 Hl1) as (Hf & Hb & Ha & Hn).
  rewrite Hid, Hcfg, Hvol in *.
  destruct (bind_audio k st sn path s1) as [audio s2]. cbn [fst snd final] in *.
  subst audio. split; [done|]. split; [|split].
  - unfold get_layer, set_audio_playing in *. simp_state.
    destruct (layers_get (layers s2) k) as [l2|]; [|done]. cbn in *.
    unfold bound_view in *. cbn. congruence.
  - unfold set_audio_playing. simp_state. by rewrite Ha, lookup_alter_eq, lookup_insert_eq.
  - unfold set_audio_playing. simp_state. by rewrite Hn, lookup_insert_eq.
Qed.

(** Rain on a fresh layer of volume 0.6. *)
Lemma loadAndPlayAudio_plays_library_file_witness :
  let random := fun _ : nat => 1 # 2 in
  let s := run random [ Initialize (Some (mkContext 44100 Running));
                        CreateLayer "nature" 0.6 ] new_AudioEngine in
  let path := "assets/audio/nature/rain.mp3"%string in
  let r := loadAndPlayAudio random PlayResolves "nature" "nature" "rain" s in
  let a := next_id s in
  exists l,
    get_layer "nature" s = Some l /\
    is_generated_noise "nature" "rain" = false /\
    library_path "nature" "rain" = Some path /\
    returns r = true /\
    bound_view <$> get_layer "nature" (final r)
    = Some (Some a, Some (S a), Some ("nature" +:+ "/" +:+ "rain"), true, volume l) /\
    audios (final r) !! a = Some (mkAudio path (loopLayers (config s)) false) /\
    nodes (final r) !! S a = Some (mkNode (MediaElementSource a) Unscheduled "nature").
Proof.
  intros random s path r a.
  destruct (get_layer "nature" s) as [l|] eqn:Hl; [|vm_compute in Hl; discriminate].
  exists l. split; [reflexivity|]. split; [reflexivity|]. split; [reflexivity|].
  exact (loadAndPlayAudio_plays_library_file random "nature" "nature" "rain" s l path
           Hl eq_refl eq_refl).
Defined.


(** * The application controller *)

(** ** Playback touches one layer *)

Lemma generateAndPlayNoise_local random k t s k' :
  k <> k' -> get_layer k' (final (generateAndPlayNoise random k t s)) = get_layer k' s.
Proof.
  intros Hne. rewrite generateAndPlayNoise_phases.
  destruct (get_layer k s); [|done].
  destruct (audioContext s) as [ctx|]; [|done]. cbv zeta.
  assert (H1 : get_layer k' (noise_cached random ctx t s) = get_layer k' s)
    by (unfold get_layer; by rewrite noise_cached_layers).
  set (s1 := noise_cached random ctx t s) in *.
  destruct (noiseGenerators s1 !! t) as [b|]; [|done].
  pose proof (bind_noise_local k t b s1 k' Hne) as H2.
  destruct (bind_noise k t b s1) as [source s2]. cbn [snd final] in *.
  rewrite <- H1, <- H2. unfold get_layer, start_node. by simp_state.
Qed.

Lemma loadAndPlayAudio_local random outcome k st sn s k' :
  k <> k' ->
  get_layer k' (final (loadAndPlayAudio random outcome k st sn s)) = get_layer k' s.
Proof.
  intros Hne. rewrite loadAndPlayAudio_phases.
  assert (Hr : get_layer k' (resume s) = get_layer k' s)
    by (unfold get_layer; by rewrite resume_layers).
  destruct (get_layer k (resume s)); [|done]. cbv zeta.
  assert (Hs1 : get_layer k' (stopLayer k (resume s)) = get_layer k' s)
    by (by rewrite stopLayer_local).
  set (s1 := stopLayer k (resume s)) in *.
  destruct (is_generated_noise st sn); [by rewrite generateAndPlayNoise_local|].
  destruct (library_path st sn) as [path|];
    [|cbn [final]; by rewrite fall_back_local].
  pose proof (bind_audio_local k st sn path s1 k' Hne) as Hs2.
  destruct outcome; cbn [final].
  - by rewrite fall_back_local.
  - by rewrite fall_back_local, Hs2.
  - destruct (bind_audio k st sn path s1) as [audio s2]. cbn [snd final] in *.
    rewrite <- Hs1, <- Hs2. unfold get_layer, set_audio_playing.
    repeat (first [rewrite layers_update_other by done | progress simp_state]). done.
Qed.

(** ** Volumes the controller passes on *)

Lemma presets_volumes_ok : Forall (fun np => preset_volumes_ok (snd np)) presets.
Proof.
  unfold presets, preset_volumes_ok, unit_range.
  repeat (apply Forall_cons; split); try apply Forall_nil; cbn; lra.
Qed.

Lemma assoc_In {A} k (kvs : list (string * A)) v :
  assoc k kvs = Some v -> exists k', In (k', v) kvs.
Proof.
  induction kvs as [|[k0 v0] kvs IH]; cbn; [done|].
  destruct (String.eqb k0 k).
  - intros [= ->]. exists k0. by left.
  - intros H. destruct (IH H) as [k' Hin]. exists k'. by right.
Qed.

Lemma applyLayerPreset_gains_ok random outcome preset c k :
  preset_volumes_ok preset -> gains_ok (final c) ->
  gains_ok (final (applyLayerPreset random outcome preset c k)).
Proof.
  intros Hp Hc. unfold applyLayerPreset. destruct c as [s|m s]; [|done]. cbn [final] in Hc.
  destruct (assoc k preset) as [entry|] eqn:Hk; [|done].
  assert (Hv : unit_range (preset_volume entry)).
  { destruct (assoc_In _ _ _ Hk) as [k' Hin].
    unfold preset_volumes_ok in Hp. rewrite Forall_forall in Hp.
    by apply (Hp (k', entry)), list_elem_of_In. }
  cbv zeta.
  assert (Hr : gains_ok (final (match get_layer k s with
                                | Some _ => Normal (setLayerVolume k (preset_volume entry) s)
                                | None => createLayer k (preset_volume entry) s
                                end))).
  { destruct (get_layer k s); cbn [final].
    - by apply setLayerVolume_gains_ok.
    - by apply createLayer_gains_ok. }
  destruct (match get_layer k s with Some _ => _ | None => _ end) as [s1|m s1];
    cbn [final] in Hr; [|done].
  destruct (truthy _); [|done]. unfold playLayer. by apply loadAndPlayAudio_gains_ok.
Qed.

(** X19: Loading one of the built-in presets keeps every gain and stored volume
    in [[0, 1]], and so do the volume sliders at a position from 0 to 100. *)
Theorem controller_keeps_gains_in_unit_range random created outcome name k percent s :
  gains_ok s -> 0 <= percent <= 100 ->
  gains_ok (final (loadPreset random presets created outcome name s)) /\
  gains_ok (handleLayerVolumeChange k percent s) /\
  gains_ok (handleMasterVolumeChange percent s).
Proof.
  intros Hs Hpc.
  assert (Hv : unit_range (percent / 100)).
  { unfold unit_range, Qdiv. change (/ 100) with (1 # 100). lra. }
  split; [|split].
  - unfold loadPreset. destruct (assoc name presets) as [preset|] eqn:Hn.
    + assert (Hp : preset_volumes_ok preset).
      { destruct (assoc_In _ _ _ Hn) as [k' Hin].
        pose proof presets_volumes_ok as H. rewrite Forall_forall in H.
        by apply (H (k', preset)), list_elem_of_In. }
      cbv zeta.
      match goal with
      | |- context [if ?b then initialize created ?x else Normal ?x] =>
          assert (Hi : gains_ok (final (if b then initialize created x else Normal x)))
      end.
      { assert (gains_ok (log LogInfo ("Loading preset: " +:+ name) s))
          by (revert Hs; apply gains_ok_frame; by simp_state).
        destruct (negb _); [by apply initialize_gains_ok | done]. }
      destruct (if negb _ then _ else _) as [s1|m s1]; cbn [final] in Hi; [|done].
      apply (fold_left_preserves (fun c => gains_ok (final c))).
      * cbn [final]. by apply stopAll_gains_ok.
      * intros k' c Hc. by apply applyLayerPreset_gains_ok.
    + cbn [final]. revert Hs. apply gains_ok_frame; by simp_state.
  - unfold handleLayerVolumeChange. cbv zeta.
    destruct (get_layer k s); [by apply setLayerVolume_gains_ok | done].
  - unfold handleMasterVolumeChange. cbv zeta.
    destruct (isInitialized s); [by apply setMasterVolume_gains_ok | done].
Qed.

(** The preset rain-study and sliders at 35 on an engine with one layer. *)
Lemma controller_keeps_gains_in_unit_range_witness :
  let random := fun _ : nat => 1 # 2 in
  let s := run random [ Initialize (Some (mkContext 8 Running));
                        CreateLayer "nature" 0.6 ] new_AudioEngine in
  let created := Some (mkContext 8 Running) in
  let outcome := fun _ : string => PlayResolves in
  gains_ok s /\ 0 <= 35 <= 100 /\
  gains_ok (final (loadPreset random presets created outcome "rain-study" s)) /\
  gains_ok (handleLayerVolumeChange "nature" 35 s) /\
  gains_ok (handleMasterVolumeChange 35 s).
Proof.
  intros random s created outcome.
  assert (Hs : gains_ok s).
  { apply exec_gains_ok; [unfold volume_arg_ok, unit_range; lra|].
    apply exec_gains_ok; [exact I|]. exact new_AudioEngine_gains_ok. }
  assert (Hp : 0 <= 35 <= 100) by lra.
  split; [exact Hs|]. split; [exact Hp|].
  exact (controller_keeps_gains_in_unit_range random created outcome "rain-study"
           "nature" 35 s Hs Hp).
Defined.


(** ** Sounds started over a fade-out *)

Lemma createLayer_timers k v s : timers (final (createLayer k v s)) = timers s.
Proof. unfold createLayer. repeat case_match; cbn [final]; simp_state; done. Qed.
Lemma createLayer_now k v s : now (final (createLayer k v s)) = now s.
Proof. unfold createLayer. repeat case_match; cbn [final]; simp_state; done. Qed.
Lemma createLayer_config k v s : config (final (createLayer k v s)) = config s.
Proof. unfold createLayer. repeat case_match; cbn [final]; simp_state; done. Qed.
Lemma setLayerVolume_timers k v s : timers (setLayerVolume k v s) = timers s.
Proof. unfold setLayerVolume. repeat case_match; simp_state; done. Qed.
Lemma setLayerVolume_now k v s : now (setLayerVolume k v s) = now s.
Proof. unfold setLayerVolume. repeat case_match; simp_state; done. Qed.
Lemma setLayerVolume_config k v s : config (setLayerVolume k v s) = config s.
Proof. unfold setLayerVolume. repeat case_match; simp_state; done. Qed.

Lemma generateAndPlayNoise_config random k t s :
  config (final (generateAndPlayNoise random k t s)) = config s.
Proof.
  rewrite generateAndPlayNoise_phases.
  destruct (get_layer k s); [|done].
  destruct (audioContext s) as [ctx|]; [|done]. cbv zeta.
  pose proof (noise_cached_config random ctx t s) as H1.
  set (s1 := noise_cached random ctx t s) in *.
  destruct (noiseGenerators s1 !! t) as [b|]; [|done].
  pose proof (bind_noise_config k t b s1) as H2.
  destruct (bind_noise k t b s1) as [source s2]. cbn [snd final] in *.
  unfold start_node. simp_state. congruence.
Qed.

Lemma loadAndPlayAudio_config random outcome k st sn s :
  config (final (loadAndPlayAudio random outcome k st sn s)) = config s.
Proof.
  rewrite loadAndPlayAudio_phases.
  destruct (get_layer k (resume s)); [|cbn [final]; apply resume_config].
  cbv zeta.
  assert (H1 : config (stopLayer k (resume s)) = config s)
    by (by rewrite stopLayer_config, resume_config).
  set (s1 := stopLayer k (resume s)) in *.
  destruct (is_generated_noise st sn); [by rewrite generateAndPlayNoise_config|].
  destruct (library_path st sn) as [path|];
    [|cbn [final]; by rewrite fall_back_config].
  destruct outcome; cbn [final].
  - by rewrite fall_back_config.
  - by rewrite fall_back_config, bind_audio_config.
  - pose proof (bind_audio_config k st sn path s1) as H2.
    destruct (bind_audio k st sn path s1) as [audio s2]. cbn [snd final] in *.
    unfold set_audio_playing. simp_state. congruence.
Qed.

Lemma isPlaying_ignores_volume : ignores_volume isPlaying.
Proof. by intros l v. Qed.

Lemma doomed_loadAndPlayAudio random outcome k' st sn s k t :
  enableCrossfade (config s) = true ->
  doomed k t s -> doomed k t (final (loadAndPlayAudio random outcome k' st sn s)).
Proof.
  intros Hc [Hp (tm & Hin & Hcb & Hdue)]. split.
  - destruct (String.eqb_spec k' k) as [->|Hne].
    + destruct (get_layer k s) as [l|] eqn:Hl; [|done]. injection Hp as Hp.
      by apply (loadAndPlayAudio_isPlaying random outcome k st sn s l).
    + by rewrite loadAndPlayAudio_local.
  - exists tm. split; [|done]. by apply loadAndPlayAudio_keeps_timers.
Qed.

Lemma doomed_setLayerVolume k' v s k t :
  doomed k t s -> doomed k t (setLayerVolume k' v s).
Proof.
  intros [Hp (tm & Hin & Hcb & Hdue)]. split.
  - rewrite setLayerVolume_proj;
      [done | apply isPlaying_ignores_gain | apply isPlaying_ignores_volume].
  - exists tm. by rewrite setLayerVolume_timers.
Qed.

Lemma doomed_createLayer k' v s k t :
  doomed k t s -> doomed k t (final (createLayer k' v s)).
Proof.
  intros [Hp (tm & Hin & Hcb & Hdue)]. split.
  - rewrite createLayer_proj; [done|]. by destruct (get_layer k s).
  - exists tm. by rewrite createLayer_timers.
Qed.

Lemma doomed_applyLayerPreset random outcome preset c k' k t :
  enableCrossfade (config (final c)) = true -> doomed k t (final c) ->
  let c' := applyLayerPreset random outcome preset c k' in
  enableCrossfade (config (final c')) = true /\ now (final c') = now (final c) /\
  doomed k t (final c').
Proof.
  intros Hc Hd. cbv zeta. unfold applyLayerPreset. destruct c as [s|m s]; [|done].
  cbn [final] in *. destruct (assoc k' preset) as [entry|]; [|done]. cbv zeta.
  assert (Hr : let r := match get_layer k' s with
                        | Some _ => Normal (setLayerVolume k' (preset_volume entry) s)
                        | None => createLayer k' (preset_volume entry) s
                        end in
               enableCrossfade (config (final r)) = true /\
               now (final r) = now s /\ doomed k t (final r)).
  { cbv zeta. destruct (get_layer k' s); cbn [final].
    - rewrite setLayerVolume_config, setLayerVolume_now.
      split; [done|]. split; [done|]. by apply doomed_setLayerVolume.
    - rewrite createLayer_config, createLayer_now.
      split; [done|]. split; [done|]. by apply doomed_createLayer. }
  cbv zeta in Hr.
  destruct (match get_layer k' s with Some _ => _ | None => _ end) as [s1|m s1];
    cbn [final] in Hr; [|done].
  destruct Hr as (Hc1 & Hn1 & Hd1).
  destruct (truthy _); [|done]. unfold playLayer.
  rewrite loadAndPlayAudio_config, loadAndPlayAudio_now.
  split; [done|]. split; [done|]. by apply doomed_loadAndPlayAudio.
Qed.

Lemma stopAll_step_doomed s k' k l :
  enableCrossfade (config s) = true -> 0 <= fadeDuration (config s) ->
  get_layer k s = Some l -> isPlaying l = true ->
  (k' = k -> doomed k (now s + fadeDuration (config s)) (stopAll_step s k')) /\
  isPlaying <$> get_layer k (stopAll_step s k') = Some true /\
  incl (timers s) (timers (stopAll_step s k')).
Proof.
  intros Hc Hfd Hl Hp.
  assert (Hplay : isPlaying <$> get_layer k (stopAll_step s k') = Some true).
  { unfold stopAll_step.
    destruct (get_layer k' s) as [l'|] eqn:Hl'; [|by rewrite Hl; cbn; rewrite Hp].
    destruct (isPlaying l') eqn:Hp'; [|by rewrite Hl; cbn; rewrite Hp].
    unfold stopLayer. rewrite Hl', Hp', Hc. cbn [andb].
    rewrite (fadeOut_proj isPlaying) by apply isPlaying_ignores_gain.
    by rewrite Hl; cbn; rewrite Hp. }
  split; [|split; [done|]].
  - intros ->. split; [done|].
    unfold stopAll_step. rewrite Hl, Hp. unfold stopLayer. rewrite Hl, Hp, Hc. cbn [andb].
    by apply (fadeOut_pending k s l).
  - unfold stopAll_step.
    repeat case_match; first [apply stopLayer_keeps_timers | apply incl_refl].
Qed.

Lemma stopAll_doomed s k l :
  enableCrossfade (config s) = true -> 0 <= fadeDuration (config s) ->
  get_layer k s = Some l -> isPlaying l = true ->
  doomed k (now s + fadeDuration (config s)) (stopAll s).
Proof.
  intros Hc Hfd Hl Hp. rewrite stopAll_fold.
  apply (fold_left_visits
           (doomed k (now s + fadeDuration (config s)))
           (fun s' => config s' = config s /\ now s' = now s /\
                      isPlaying <$> get_layer k s' = Some true) _ k).
  - by apply (get_layer_Some_ids k s l).
  - by rewrite Hl; cbn; rewrite Hp.
  - intros k' s' (Hc' & Hn' & Hp'). rewrite stopAll_step_config, stopAll_step_now.
    split; [done|]. split; [done|].
    destruct (get_layer k s') as [l'|] eqn:Hl'; [|done]. injection Hp' as Hp'.
    apply (stopAll_step_doomed s' k' k l'); try done; by rewrite Hc'.
  - intros s' (Hc' & Hn' & Hp').
    destruct (get_layer k s') as [l'|] eqn:Hl'; [|done]. injection Hp' as Hp'.
    rewrite <- Hc', <- Hn'.
    apply (stopAll_step_doomed s' k k l'); try done; by rewrite Hc'.
  - intros k' s' (Hc' & Hn' & Hp') [_ (tm & Hin & Hcb & Hdue)].
    destruct (get_layer k s') as [l'|] eqn:Hl'; [|done]. injection Hp' as Hp'.
    destruct (stopAll_step_doomed s' k' k l') as (_ & Hplay & Hincl);
      try done; try (by rewrite Hc').
    split; [done|]. exists tm. split; [by apply Hincl | done].
Qed.

Lemma doomed_advance k t s dt :
  doomed k t s -> t <= now s + dt ->
  exists l', get_layer k (advance dt s) = Some l' /\ torn_down l'.
Proof.
  intros [Hp (tm & Hin & Hcb & Hdue)] Ht.
  apply (advance_tears_down dt s k tm Hin Hcb).
  - rewrite Hdue. done.
  - by destruct (get_layer k s).
Qed.

(** X20: With crossfade on, loading a preset on an initialized engine leaves
    every layer that was playing marked as playing, and torn down once the
    fade duration has passed, whether or not the preset gives it a sound:
    the teardowns scheduled by the stop-all at the start also end the
    sounds started after it. *)
Theorem loadPreset_over_playing_layer random table created outcome name preset s k l dt :
  assoc name table = Some preset -> isInitialized s = true ->
  get_layer k s = Some l -> isPlaying l = true ->
  enableCrossfade (config s) = true ->
  0 <= fadeDuration (config s) -> fadeDuration (config s) <= dt ->
  let s1 := final (loadPreset random table created outcome name s) in
  isPlaying <$> get_layer k s1 = Some true /\
  exists l', get_layer k (advance dt s1) = Some l' /\ torn_down l'.
Proof.
  intros Hn Hi Hl Hp Hc Hfd Hdt. cbv zeta. unfold loadPreset. rewrite Hn. cbv zeta.
  set (s0 := log LogInfo ("Loading preset: " +:+ name) s).
  assert (Hi0 : isInitialized s0 = true) by (unfold s0; by simp_state).
  rewrite Hi0. cbn [negb]. unfold handleStopAll.
  assert (Hd : doomed k (now s + fadeDuration (config s)) (stopAll s0)).
  { apply (stopAll_doomed s0 k l); unfold s0, get_layer in *; by simp_state. }
  assert (Hinv : enableCrossfade (config (stopAll s0)) = true /\
                 now (stopAll s0) = now s).
  { rewrite stopAll_fold. split.
    - apply (fold_left_preserves (fun x => enableCrossfade (config x) = true));
        [unfold s0; by simp_state|].
      intros k' x Hx. by rewrite stopAll_step_config.
    - apply (fold_left_preserves (fun x => now x = now s));
        [unfold s0; by simp_state|].
      intros k' x Hx. by rewrite stopAll_step_now. }
  assert (Hfinal : let c := fold_left (applyLayerPreset random outcome preset) app_layers
                              (Normal (stopAll s0)) in
                   enableCrossfade (config (final c)) = true /\
                   now (final c) = now s /\
                   doomed k (now s + fadeDuration (config s)) (final c)).
  { cbv zeta. apply fold_left_preserves.
    - by destruct Hinv.
    - intros k' c (Hc' & Hn' & Hd').
      destruct (doomed_applyLayerPreset random outcome preset c k' k _ Hc' Hd')
        as (? & ? & ?).
      split; [done|]. split; [congruence | done]. }
  cbv zeta in Hfinal. destruct Hfinal as (_ & Hnow & [Hplay Hpend]).
  split; [done|].
  apply (doomed_advance k (now s + fadeDuration (config s))); [done|].
  rewrite Hnow. lra.
Qed.

(** The preset meditation loaded while the nature layer plays rain: ocean is
    started on it and gone a second later. *)
Lemma loadPreset_over_playing_layer_witness :
  let random := fun _ : nat => 1 # 2 in
  let s := run random [ Initialize (Some (mkContext 8 Running));
                        CreateLayer "nature" 0.6;
                        Play PlayResolves "nature" "nature" "rain"; Advance 2 ]
               new_AudioEngine in
  let outcome := fun _ : string => PlayResolves in
  let s1 := final (loadPreset random presets None outcome "meditation" s) in
  exists preset l,
    assoc "meditation" presets = Some preset /\ isInitialized s = true /\
    get_layer "nature" s = Some l /\ isPlaying l = true /\
    enableCrossfade (config s) = true /\
    0 <= fadeDuration (config s) /\ fadeDuration (config s) <= 1 /\
    currentSound <$> get_layer "nature" s1 = Some (Some "nature/ocean"%string) /\
    isPlaying <$> get_layer "nature" s1 = Some true /\
    exists l', get_layer "nature" (advance 1 s1) = Some l' /\ torn_down l'.
Proof.
  intros random s outcome s1.
  destruct (assoc "meditation" presets) as [preset|] eqn:Hn; [|discriminate].
  destruct (get_layer "nature" s) as [l|] eqn:Hl; [|vm_compute in Hl; discriminate].
  assert (Hi : isInitialized s = true) by reflexivity.
  assert (Hp : isPlaying l = true).
  { pose proof Hl as Hl'. vm_compute in Hl'. by injection Hl' as <-. }
  assert (Hc : enableCrossfade (config s) = true) by reflexivity.
  assert (Hfd : 0 <= fadeDuration (config s)) by (vm_compute; discriminate).
  assert (Hdt : fadeDuration (config s) <= 1) by (vm_compute; discriminate).
  exists preset, l. split; [reflexivity|]. split; [exact Hi|]. split; [reflexivity|].
  split; [exact Hp|]. split; [exact Hc|]. split; [exact Hfd|]. split; [exact Hdt|].
  split; [vm_compute; reflexivity|].
  exact (loadPreset_over_playing_layer random presets None outcome "meditation" preset
           s "nature" l 1 Hn Hi Hl Hp Hc Hfd Hdt).
Defined.

(** X21: With crossfade on, choosing another sound for a playing layer ends in
    silence: the layer is marked as playing right after the choice, and is
    torn down once the fade duration has passed. *)
Theorem handleAudioSelect_on_playing_layer random outcome k selected s l dt :
  selected <> EmptyString ->
  get_layer k s = Some l -> isPlaying l = true ->
  enableCrossfade (config s) = true ->
  0 <= fadeDuration (config s) -> fadeDuration (config s) <= dt ->
  let s1 := handleAudioSelect random outcome k selected s in
  isPlaying <$> get_layer k s1 = Some true /\
  exists l', get_layer k (advance dt s1) = Some l' /\ torn_down l'.
Proof.
  intros Hsel Hl Hp Hc Hfd Hdt. cbv zeta. unfold handleAudioSelect.
  destruct (String.eqb_spec selected EmptyString) as [|_]; [done|].
  unfold getLayerInfo. rewrite Hl. cbn [info_isPlaying]. rewrite Hp. unfold playLayer.
  split.
  - by apply (loadAndPlayAudio_isPlaying random outcome k k selected s l).
  - destruct (loadAndPlayAudio_pending random outcome k k selected s l Hl Hp Hc Hfd)
      as (tm & Hin & Hcb & Hdue).
    apply (advance_tears_down dt _ k tm Hin Hcb).
    + rewrite loadAndPlayAudio_now, Hdue. lra.
    + pose proof (loadAndPlayAudio_isPlaying random outcome k k selected s l Hl Hp Hc) as H.
      match type of H with _ <$> ?x = _ => destruct x end; [by eexists | done].
Qed.

(** Forest chosen while the nature layer plays rain. *)
Lemma handleAudioSelect_on_playing_layer_witness :
  let random := fun _ : nat => 1 # 2 in
  let s := run random [ Initialize (Some (mkContext 8 Running));
                        CreateLayer "nature" 0.6;
                        Play PlayResolves "nature" "nature" "rain"; Advance 2 ]
               new_AudioEngine in
  let s1 := handleAudioSelect random PlayResolves "nature" "forest" s in
  exists l,
    "forest"%string <> EmptyString /\
    get_layer "nature" s = Some l /\ isPlaying l = true /\
    enableCrossfade (config s) = true /\
    0 <= fadeDuration (config s) /\ fadeDuration (config s) <= 1 /\
    isPlaying <$> get_layer "nature" s1 = Some true /\
    exists l', get_layer "nature" (advance 1 s1) = Some l' /\ torn_down l'.
Proof.
  intros random s s1.
  destruct (get_layer "nature" s) as [l|] eqn:Hl; [|vm_compute in Hl; discriminate].
  assert (Hsel : "forest"%string <> EmptyString) by discriminate.
  assert (Hp : isPlaying l = true).
  { pose proof Hl as Hl'. vm_compute in Hl'. by injection Hl' as <-. }
  assert (Hc : enableCrossfade (config s) = true) by reflexivity.
  assert (Hfd : 0 <= fadeDuration (config s)) by (vm_compute; discriminate).
  assert (Hdt : fadeDuration (config s) <= 1) by (vm_compute; discriminate).
  exists l. split; [exact Hsel|]. split; [reflexivity|]. split; [exact Hp|].
  split; [exact Hc|]. split; [exact Hfd|]. split; [exact Hdt|].
  exact (handleAudioSelect_on_playing_layer random PlayResolves "nature" "forest" s l 1
           Hsel Hl Hp Hc Hfd Hdt).
Defined.


(** ** What the page shows *)

Lemma layers_set_map {A} (proj : Layer -> A) ls k l v :
  layers_get ls k = Some l -> proj v = proj l ->
  map (fun kl => proj (snd kl)) (layers_set ls k v) = map (fun kl => proj (snd kl)) ls.
Proof.
  induction ls as [|[k0 l0] ls IH]; cbn; [done|].
  destruct (String.eqb k0 k); cbn.
  - intros [= ->] ->. done.
  - intros Hl Hv. by rewrite IH.
Qed.

Lemma update_layer_map {A} (proj : Layer -> A) k f s :
  (forall l, proj (f l) = proj l) ->
  map (fun kl => proj (snd kl)) (layers (update_layer k f s))
  = map (fun kl => proj (snd kl)) (layers s).
Proof.
  intros Hf. unfold update_layer. destruct (get_layer k s) as [l|] eqn:Hl; [|done].
  simp_state. by apply (layers_set_map proj _ k l).
Qed.

Lemma getActiveLayersCount_map s s' :
  map (fun kl => isPlaying (snd kl)) (layers s')
  = map (fun kl => isPlaying (snd kl)) (layers s) ->
  getActiveLayersCount s' = getActiveLayersCount s.
Proof.
  unfold getActiveLayersCount. generalize (layers s), (layers s'). clear.
  intros ls ls'. revert ls. induction ls' as [|kl' ls' IH]; intros [|kl ls]; cbn; try done.
  intros [= Hp Hrest]. rewrite Hp. destruct (isPlaying (snd kl)); cbn; by rewrite (IH ls).
Qed.

Lemma fadeOut_map k cb s :
  map (fun kl => isPlaying (snd kl)) (layers (fadeOut k cb s))
  = map (fun kl => isPlaying (snd kl)) (layers s).
Proof.
  unfold fadeOut. destruct (get_layer k s); [|done]. cbv zeta.
  destruct cb; unfold setTimeout; simp_state; by apply update_layer_map.
Qed.

(** X22: With crossfade on, the status that [handleStopAll] puts on the page is
    the one from before the call: the layers it fades out still count as
    active, and the playback status stays as it was. *)
Theorem handleStopAll_shows_the_status_from_before s :
  enableCrossfade (config s) = true ->
  updateStatus (handleStopAll s) = updateStatus s.
Proof.
  intros Hc. unfold handleStopAll.
  assert (H : config (stopAll s) = config s /\
              isInitialized (stopAll s) = isInitialized s /\
              map (fun kl => isPlaying (snd kl)) (layers (stopAll s))
              = map (fun kl => isPlaying (snd kl)) (layers s)).
  { rewrite stopAll_fold. apply fold_left_preserves; [done|].
    intros k s' (Hc' & <- & <-). rewrite stopAll_step_config. split; [done|].
    unfold stopAll_step. destruct (get_layer k s') as [l|] eqn:Hl; [|done].
    destruct (isPlaying l) eqn:Hp; [|done].
    unfold stopLayer. rewrite Hl, Hp, Hc', Hc. cbn [andb].
    split; [|apply fadeOut_map]. unfold fadeOut. rewrite Hl. cbv zeta.
    unfold setTimeout. by simp_state. }
  destruct H as (_ & Hi & Hm). unfold updateStatus. cbv zeta.
  by rewrite (getActiveLayersCount_map s (stopAll s) Hm), Hi.
Qed.

(** One layer plays: after Stop All the page still says Playing, with one
    active layer. *)
Lemma handleStopAll_shows_the_status_from_before_witness :
  let random := fun _ : nat => 1 # 2 in
  let s := run random [ Initialize (Some (mkContext 8 Running));
                        CreateLayer "nature" 0.6;
                        Play PlayResolves "nature" "nature" "rain"; Advance 2 ]
               new_AudioEngine in
  enableCrossfade (config s) = true /\
  updateStatus s = (1%nat, "Playing"%string, "Initialized"%string) /\
  updateStatus (handleStopAll s) = updateStatus s.
Proof.
  intros random s.
  assert (Hc : enableCrossfade (config s) = true) by reflexivity.
  split; [exact Hc|]. split; [vm_compute; reflexivity|].
  exact (handleStopAll_shows_the_status_from_before s Hc).
Defined.

Lemma waveform_loop_points sliceWidth height data : forall x i p,
  waveform_loop sliceWidth height x data !! i = Some p ->
  exists b, data !! i = Some b /\
            fst p == x + inject_Z (Z.of_nat i) * sliceWidth /\
            snd p = (inject_Z (Z.of_N (Byte.to_N b)) / 128 * height) / 2.
Proof.
  induction data as [|b data IH]; intros x i p; [done|].
  destruct i as [|i]; cbn [waveform_loop lookup list_lookup].
  - intros [= <-]. exists b. cbn. split; [done|]. split; [ring | done].
  - intros H. destruct (IH _ _ _ H) as (b' & Hb' & Hx & Hy).
    exists b'. split; [done|]. split; [|done].
    rewrite Hx, Nat2Z.inj_succ. unfold Z.succ. rewrite inject_Z_plus. ring.
Qed.

Lemma waveform_loop_length sliceWidth height data : forall x,
  length (waveform_loop sliceWidth height x data) = length data.
Proof. induction data as [|b data IH]; intros x; cbn; [done | by rewrite IH]. Qed.

Lemma byte_below_256 b : (Z.of_N (Byte.to_N b) < 256)%Z.
Proof. pose proof (Byte.to_N_bounded b). lia. Qed.

(** X23: [drawWaveform] hands the canvas one point per byte and a closing point
    at mid-height on the right edge; on a canvas of non-negative size every
    point lies on the canvas. *)
Theorem drawWaveform_stays_on_canvas width height data p :
  0 <= width -> 0 <= height -> In p (drawWaveform width height data) ->
  length (drawWaveform width height data) = S (length data) /\
  0 <= fst p <= width /\ 0 <= snd p <= height.
Proof.
  intros Hw Hh Hin. unfold drawWaveform in *. cbv zeta in *. split.
  - rewrite length_app, waveform_loop_length. cbn. lia.
  - apply in_app_or in Hin as [Hin|[<-|[]]];
      [|cbn [fst snd]; unfold Qdiv; change (/ 2) with (1 # 2); lra].
    apply list_elem_of_In, list_elem_of_lookup in Hin as [i Hi].
    destruct (waveform_loop_points _ _ _ _ _ _ Hi) as (b & Hb & Hx & Hy).
    apply lookup_lt_Some in Hb.
    set (n := inject_Z (Z.of_nat (length data))) in *.
    set (j := inject_Z (Z.of_nat i)) in *.
    set (B := inject_Z (Z.of_N (Byte.to_N b))) in *.
    assert (Hn : 0 < n) by (unfold n; change 0 with (inject_Z 0); rewrite <- Zlt_Qlt; lia).
    assert (Hj : 0 <= j <= n)
      by (unfold j, n; change 0 with (inject_Z 0); rewrite <- !Zle_Qle; lia).
    assert (HB : 0 <= B <= 255).
    { unfold B. change 0 with (inject_Z 0). change 255 with (inject_Z 255).
      rewrite <- !Zle_Qle. pose proof (byte_below_256 b). lia. }
    assert (Hq : 0 <= width / n) by (apply Qle_shift_div_l; lra).
    assert (Hqn : width / n * n == width) by (field; lra).
    split.
    + rewrite Hx. nra.
    + rewrite Hy. unfold Qdiv. change (/ 128) with (1 # 128). change (/ 2) with (1 # 2).
      nra.
Qed.

(** The second point of a four-byte waveform on a canvas of 300 by 100. *)
Lemma drawWaveform_stays_on_canvas_witness :
  let data := [Byte.x80; Byte.xff; Byte.x00; Byte.x40] in
  let p := (0 + 300 / 4, 255 / 128 * 100 / 2) in
  0 <= 300 /\ 0 <= 100 /\ In p (drawWaveform 300 100 data) /\
  length (drawWaveform 300 100 data) = S (length data) /\
  0 <= fst p <= 300 /\ 0 <= snd p <= 100.
Proof.
  intros data p.
  assert (Hw : 0 <= 300) by lra.
  assert (Hh : 0 <= 100) by lra.
  assert (Hin : In p (drawWaveform 300 100 data)).
  { right. left. reflexivity. }
  split; [exact Hw|]. split; [exact Hh|]. split; [exact Hin|].
  exact (drawWaveform_stays_on_canvas 300 100 data p Hw Hh Hin).
Defined.


(** * Brown noise *)

Section BrownSteps.

Variable random : nat -> Q.
Hypothesis white_range : forall k, -1 <= white_draw random k <= 1.

Lemma brown_body_step lastOut white white' :
  -1 <= lastOut <= 1 -> -1 <= white <= 1 -> -1 <= white' <= 1 ->
  let '(lastOut', x) := brown_body lastOut white in
  let '(_, y) := brown_body lastOut' white' in
  -1 <= lastOut' <= 1 /\ - 0.14 <= y - x <= 0.14.
Proof.
  intros Hl Hw Hw'. unfold brown_body. rewrite !Qdiv_102. lra.
Qed.

Lemma brown_loop_steps n : forall k lastOut i x y,
  -1 <= lastOut <= 1 ->
  brown_loop random n k lastOut !! i = Some x ->
  brown_loop random n k lastOut !! S i = Some y ->
  - 0.14 <= y - x <= 0.14.
Proof.
  induction n as [|n IH]; intros k lastOut i x y Hl Hx Hy; [done|].
  cbn [brown_loop] in Hx, Hy.
  pose proof (brown_body_step lastOut (white_draw random k) (white_draw random (S k))
                Hl (white_range k) (white_range (S k))) as Hstep.
  destruct (brown_body lastOut (white_draw random k)) as [lastOut' out].
  cbn [lookup list_lookup] in Hy.
  destruct i as [|i]; cbn [lookup list_lookup] in Hx.
  - injection Hx as ->. destruct n as [|n]; [done|]. cbn [brown_loop] in Hy.
    destruct (brown_body lastOut' (white_draw random (S k))) as [l2 out2].
    cbn [lookup list_lookup] in Hy. injection Hy as ->. apply Hstep.
  - destruct (brown_body lastOut' (white_draw random (S k))) as [l2 out2].
    apply (IH (S k) lastOut' i x y); [apply Hstep | done | done].
Qed.

End BrownSteps.

(** X24: When every white sample is in [[-1, 1]], two neighbouring samples of a
    brown-noise buffer differ by at most 0.14. *)
Theorem brown_noise_moves_in_small_steps random ctx s i x y :
  (forall k, -1 <= white_draw random k <= 1) ->
  let data := channelData (fst (createNoiseBuffer random ctx "brown" s)) in
  data !! i = Some x -> data !! S i = Some y ->
  - 0.14 <= y - x <= 0.14.
Proof.
  intros Hw data. unfold data. cbn [createNoiseBuffer fst channelData].
  change (noise_data random "brown" ?n ?k) with (brown_loop random n k 0).
  apply brown_loop_steps; [done | lra].
Qed.

(** The first two samples of a brown buffer when the white samples alternate
    between 1 and -1. *)
Lemma brown_noise_moves_in_small_steps_witness :
  let random := fun k : nat => if Nat.even k then 1 else 0 in
  let ctx := mkContext 2 Running in
  let data := channelData (fst (createNoiseBuffer random ctx "brown" new_AudioEngine)) in
  let x := 7000 # 102000 in
  let y := -1400000 # 1040400000 in
  (forall k, -1 <= white_draw random k <= 1) /\
  data !! 0%nat = Some x /\ data !! 1%nat = Some y /\
  - 0.14 <= y - x <= 0.14.
Proof.
  intros random ctx data x y.
  assert (Hw : forall k, -1 <= white_draw random k <= 1).
  { intros k. unfold white_draw, random. destruct (Nat.even k); lra. }
  assert (Hx : data !! 0%nat = Some x) by (vm_compute; reflexivity).
  assert (Hy : data !! 1%nat = Some y) by (vm_compute; reflexivity).
  split; [exact Hw|]. split; [exact Hx|]. split; [exact Hy|].
  exact (brown_noise_moves_in_small_steps random ctx new_AudioEngine 0 x y Hw Hx Hy).
Defined.


(** ** Pending timers at work *)

(** A teardown scheduled by a stop is still pending after a tone has been
    started on the layer. *)
Lemma exec_keeps_timers_witness :
  let random := fun _ : nat => 1 # 2 in
  let s := run random [ Initialize (Some (mkContext 44100 Running));
                        CreateLayer "music" 0.4; Tone "music" 440; Stop "music" ]
               new_AudioEngine in
  let c := Tone "music" 220 in
  is_advance c = false /\ length (timers s) = 1%nat /\
  incl (timers s) (timers (exec random c s)).
Proof.
  intros random s c.
  assert (Hc : is_advance c = false) by reflexivity.
  split; [exact Hc|]. split; [vm_compute; reflexivity|].
  exact (exec_keeps_timers random c s Hc).
Defined.

(** * The audio context under playback *)

Lemma loadAndPlayAudio_audioContext random outcome k st sn s :
  audioContext (final (loadAndPlayAudio random outcome k st sn s))
  = audioContext (resume s).
Proof.
  rewrite loadAndPlayAudio_phases.
  destruct (get_layer k (resume s)); [|done]. cbv zeta.
  assert (H1 : audioContext (stopLayer k (resume s)) = audioContext (resume s))
    by apply stopLayer_audioContext.
  set (s1 := stopLayer k (resume s)) in *.
  destruct (is_generated_noise st sn); [by rewrite generateAndPlayNoise_audioContext|].
  assert (Hfb : forall m s', cache_view s' = cache_view s1 ->
                  audioContext (fall_back k m s') = audioContext (resume s)).
  { intros m s' Hs'. pose proof (fall_back_cache_view k m s') as Hf.
    rewrite Hs' in Hf. injection Hf as _ _ ->. done. }
  destruct (library_path st sn) as [path|]; [|by apply Hfb].
  pose proof (bind_audio_cache_view k st sn path s1) as H2.
  destruct outcome; cbn [final].
  - by apply Hfb.
  - by apply Hfb.
  - destruct (bind_audio k st sn path s1) as [audio s2]. cbn [snd final] in *.
    injection H2 as _ _ H2. unfold set_audio_playing. simp_state. by rewrite H2.
Qed.

(** X27: [loadAndPlayAudio] leaves the engine with the audio context it had,
    running if it was suspended, also when it throws for a missing layer; a
    closed context stays closed. *)
Theorem loadAndPlayAudio_resumes_suspended_context random outcome k st sn s ctx :
  audioContext s = Some ctx ->
  audioContext (final (loadAndPlayAudio random outcome k st sn s))
  = Some (mkContext (ctx_sampleRate ctx)
                    match ctx_state ctx with Suspended => Running | st' => st' end).
Proof.
  intros Hctx. rewrite loadAndPlayAudio_audioContext. unfold resume. rewrite Hctx.
  destruct ctx as [rate []]; by simp_state.
Qed.

(** A suspended context and a layer that does not exist. *)
Lemma loadAndPlayAudio_resumes_suspended_context_witness :
  let random := fun _ : nat => 1 # 2 in
  let ctx := mkContext 44100 Suspended in
  let s := final (initialize (Some ctx) new_AudioEngine) in
  let r := loadAndPlayAudio random PlayResolves "nature" "nature" "rain" s in
  audioContext s = Some ctx /\ returns r = false /\
  audioContext (final r) = Some (mkContext 44100 Running).
Proof.
  intros random ctx s r.
  assert (Hctx : audioContext s = Some ctx) by reflexivity.
  split; [exact Hctx|]. split; [reflexivity|].
  exact (loadAndPlayAudio_resumes_suspended_context random PlayResolves "nature" "nature"
           "rain" s ctx Hctx).
Defined.

(** * Toggling a layer *)

Lemma fadeOut_isInitialized k cb s : isInitialized (fadeOut k cb s) = isInitialized s.
Proof. frame_tac. Qed.

(** X28: With crossfade on, pressing the toggle of a playing layer twice within
    the fade does not bring the sound back: both presses call [stopLayer],
    the selection is not looked at, and once the fade duration has passed
    the layer is torn down. *)
Theorem handleLayerToggle_twice_while_fading
    random created outcome k percent selected s l dt :
  isInitialized s = true ->
  get_layer k s = Some l -> isPlaying l = true ->
  enableCrossfade (config s) = true ->
  0 <= fadeDuration (config s) -> fadeDuration (config s) <= dt ->
  let toggle := handleLayerToggle random created outcome k percent selected in
  toggle s = stopLayer k s /\
  toggle (toggle s) = stopLayer k (stopLayer k s) /\
  isPlaying <$> get_layer k (toggle (toggle s)) = Some true /\
  exists l', get_layer k (advance dt (toggle (toggle s))) = Some l' /\ torn_down l'.
Proof.
  intros Hi Hl Hp Hc Hfd Hdt toggle.
  assert (Htoggle : forall s0 l0, isInitialized s0 = true -> get_layer k s0 = Some l0 ->
                      isPlaying l0 = true -> toggle s0 = stopLayer k s0).
  { intros s0 l0 Hi0 Hl0 Hp0. unfold toggle, handleLayerToggle. cbv zeta.
    rewrite Hi0. cbn [negb]. rewrite Hl0. unfold getLayerInfo. rewrite Hl0.
    cbn [info_isPlaying]. by rewrite Hp0. }
  assert (Hstop : stopLayer k s = fadeOut k (Some (StopLayerImmediately k)) s)
    by (unfold stopLayer; by rewrite Hl, Hc, Hp).
  destruct (fadeOut_layer k (Some (StopLayerImmediately k)) s l Hl) as [Hl1 Hnow].
  rewrite <- Hstop in Hl1, Hnow.
  assert (Hi1 : isInitialized (stopLayer k s) = true)
    by (by rewrite Hstop, fadeOut_isInitialized).
  rewrite (Htoggle s l Hi Hl Hp).
  rewrite (Htoggle (stopLayer k s) _ Hi1 Hl1 Hp).
  split; [done|]. split; [done|].
  assert (Hc1 : enableCrossfade (config (stopLayer k s)) = true)
    by (by rewrite stopLayer_config).
  assert (Hfd1 : 0 <= fadeDuration (config (stopLayer k s)))
    by (by rewrite stopLayer_config).
  assert (Hstop2 : stopLayer k (stopLayer k s)
                   = fadeOut k (Some (StopLayerImmediately k)) (stopLayer k s))
    by (unfold stopLayer at 1; rewrite Hl1, Hc1; cbn [isPlaying with_gainNode];
        by rewrite Hp).
  destruct (fadeOut_layer k (Some (StopLayerImmediately k)) (stopLayer k s) _ Hl1)
    as [Hl2 Hnow2].
  rewrite <- Hstop2 in Hl2, Hnow2. split; [rewrite Hl2; cbn; by rewrite Hp|].
  destruct (fadeOut_pending k (stopLayer k s) _ Hl1 Hfd1) as (tm & Hin & Hcb & Hdue).
  rewrite <- Hstop2 in Hin.
  apply (advance_tears_down dt _ k tm Hin Hcb).
  - rewrite Hnow2, Hdue, Hnow, stopLayer_config. lra.
  - by rewrite Hl2.
Qed.

(** A playing layer toggled twice in a row, with a sound selected. *)
Lemma handleLayerToggle_twice_while_fading_witness :
  let random := fun _ : nat => 1 # 2 in
  let s := run random [ Initialize (Some (mkContext 8 Running));
                        CreateLayer "nature" 0.6;
                        Play PlayResolves "nature" "nature" "rain"; Advance 2 ]
               new_AudioEngine in
  let toggle := handleLayerToggle random None PlayResolves "nature" 60 "rain" in
  exists l,
    isInitialized s = true /\
    get_layer "nature" s = Some l /\ isPlaying l = true /\
    enableCrossfade (config s) = true /\
    0 <= fadeDuration (config s) /\ fadeDuration (config s) <= 1 /\
    toggle s = stopLayer "nature" s /\
    toggle (toggle s) = stopLayer "nature" (stopLayer "nature" s) /\
    isPlaying <$> get_layer "nature" (toggle (toggle s)) = Some true /\
    exists l', get_layer "nature" (advance 1 (toggle (toggle s))) = Some l' /\
               torn_down l'.
Proof.
  intros random s toggle.
  destruct (get_layer "nature" s) as [l|] eqn:Hl; [|vm_compute in Hl; discriminate].
  assert (Hi : isInitialized s = true) by reflexivity.
  assert (Hp : isPlaying l = true).
  { pose proof Hl as Hl'. vm_compute in Hl'. by injection Hl' as <-. }
  assert (Hc : enableCrossfade (config s) = true) by reflexivity.
  assert (Hfd : 0 <= fadeDuration (config s)) by (vm_compute; discriminate).
  assert (Hdt : fadeDuration (config s) <= 1) by (vm_compute; discriminate).
  exists l. split; [exact Hi|]. split; [reflexivity|]. split; [exact Hp|].
  split; [exact Hc|]. split; [exact Hfd|]. split; [exact Hdt|].
  exact (handleLayerToggle_twice_while_fading random None PlayResolves "nature" 60 "rain"
           s l 1 Hi Hl Hp Hc Hfd Hdt).
Defined.
